(** * pump-trader: the trade engine of [src/index.js], embedded and verified

    Part I holds the definitions.  It embeds the engine component by
    component: the JavaScript values it computes with (exceptions, BigInt,
    Number, strings, buffers, public keys), the price computation, the order
    planner, the curve-phase trade entry points with the state loaders and
    the routing between the two phases, the confirmation poller and the
    trade-event listener.  It ends with the definitions the statements need
    besides: what the specification says in its own words, and sample data.
    Part II holds the facts, component by component. *)

From Stdlib Require Import ZArith List String Ascii Lia Bool.
From Stdlib Require Import Strings.Byte.
From Stdlib Require Import DecimalString.
From stdpp Require Import base option list strings gmap.

Local Open Scope string_scope.
Local Open Scope list_scope.
Local Open Scope Z_scope.

(** * Part I: the program *)

(** ** JavaScript values *)

(** A thrown value: every [throw] of the source throws an [Error] (or the
    runtime a [RangeError]); handlers only ever read [e.message]. *)
Record exn : Type := Exn { exn_name : string; message : string }.

Definition Error (msg : string) : exn := Exn "Error" msg.
Definition RangeError (msg : string) : exn := Exn "RangeError" msg.

(** The completion of a call: a returned value or a thrown exception. *)
Inductive outcome (A : Type) : Type :=
| Return (a : A)
| Throw (e : exn).
Arguments Return {A} a.
Arguments Throw {A} e.

Definition obind {A B : Type} (m : outcome A) (k : A -> outcome B) : outcome B :=
  match m with
  | Return a => k a
  | Throw e => Throw e
  end.

Declare Scope js_scope.
Delimit Scope js_scope with js.
Notation "'let*' x ':=' m 'in' k" := (obind m (fun x => k))
  (at level 10, x name, m at level 100, k at level 200) : js_scope.
Notation "'let*' ' p ':=' m 'in' k" := (obind m (fun x => match x with p => k end))
  (at level 10, p pattern, m at level 100, k at level 200) : js_scope.
Local Open Scope js_scope.

(** BigInt: unbounded integers.  [a / b] truncates toward zero and throws a
    RangeError when [b] is [0n]. *)
Definition bigint_div (a b : Z) : outcome Z :=
  if b =? 0 then Throw (RangeError "Division by zero") else Return (a ÷ b).

(** The values [readBigUInt64LE] can produce. *)
Definition u64 (z : Z) : Prop := 0 <= z < 2 ^ 64.

(** [Number(b)] for a BigInt [b] (of a magnitude within the range of
    doubles): the nearest double, ties to even.  Doubles that hold an integer
    are represented by that integer; the conversion is exact up to 53 bits
    and rounds the bits below the 53rd away beyond. *)
Definition Number (b : Z) : Z :=
  let a := Z.abs b in
  if a <? 2 ^ 53 then b
  else
    let e := Z.log2 a - 52 in
    let q := Z.shiftr a e in
    let r := Z.land a (Z.ones e) in
    let half := Z.shiftl 1 (e - 1) in
    let q' := if (half <? r) || ((r =? half) && Z.odd q) then q + 1 else q in
    Z.sgn b * Z.shiftl q' e.

(** [BigInt(n)] for a Number holding an integer. *)
Definition BigInt (n : Z) : Z := n.

(** ** Strings *)

(** [s.includes(pat)].  Strings are held as their UTF-8 bytes; a well-formed
    string occurs in another as a run of bytes exactly when it does as a run of
    characters. *)
Fixpoint includes (pat s : string) : bool :=
  String.prefix pat s
  || match s with
     | EmptyString => false
     | String _ s' => includes pat s'
     end.

(** [s.startsWith(pat)]. *)
Definition startsWith (pat s : string) : bool := String.prefix pat s.

(** The decimal rendering of an integer Number in a template literal. *)
Definition decimal (n : Z) : string := NilZero.string_of_int (Z.to_int n).

(** [s] without its first [n] characters. *)
Fixpoint string_drop (n : nat) (s : string) : string :=
  match n, s with
  | O, _ => s
  | S n', String _ s' => string_drop n' s'
  | S _, EmptyString => EmptyString
  end.

(** [s.replace(pat, rep)] with a string pattern: the first occurrence only. *)
Fixpoint replace (pat rep s : string) : string :=
  if String.prefix pat s then rep +:+ string_drop (String.length pat) s
  else
    match s with
    | EmptyString => EmptyString
    | String c s' => String c (replace pat rep s')
    end.

(** ** Buffers and public keys *)

Definition byte_value (b : byte) : Z := Z.of_N (Byte.to_N b).

Definition byte_of_value (z : Z) : byte := default x00 (Byte.of_N (Z.to_N z)).

(** The number a run of bytes holds, least significant byte first. *)
Fixpoint le_value (bytes : list byte) : Z :=
  match bytes with
  | [] => 0
  | b :: rest => byte_value b + 256 * le_value rest
  end.

(** The number a run of bytes holds, most significant byte first. *)
Definition be_value (bytes : list byte) : Z := le_value (rev bytes).

(** The [n] low bytes of a number, least significant first. *)
Fixpoint le_bytes (n : nat) (z : Z) : list byte :=
  match n with
  | O => []
  | S n' => byte_of_value (z mod 256) :: le_bytes n' (z / 256)
  end.

(** [buf.slice(start, stop)] and [buf.subarray(start, stop)], which stop at
    the end of the buffer. *)
Definition slice (buf : list byte) (start stop : nat) : list byte :=
  take (stop - start) (drop start buf).

(** [buf.readBigUInt64LE(offset)]; Node throws a RangeError (named here by its
    error code) when the eight bytes are not all inside the buffer. *)
Definition readBigUInt64LE (buf : list byte) (offset : nat) : outcome Z :=
  if (offset + 8 <=? length buf)%nat
  then Return (le_value (slice buf offset (offset + 8)))
  else Throw (RangeError "ERR_OUT_OF_RANGE").

(** [buf.readBigInt64LE(offset)]: the same eight bytes in two's complement. *)
Definition readBigInt64LE (buf : list byte) (offset : nat) : outcome Z :=
  let* v := readBigUInt64LE buf offset in
  Return (if v <? 2 ^ 63 then v else v - 2 ^ 64).

(** The [readU64] helper of the source: the value and the next offset. *)
Definition readU64 (buf : list byte) (offset : nat) : outcome (Z * nat) :=
  let* value := readBigUInt64LE buf offset in
  Return (value, (offset + 8)%nat).

(** [buf[offset] === 1], false beyond the end of the buffer. *)
Definition byte_is_one (buf : list byte) (offset : nat) : bool :=
  match buf !! offset with
  | Some b => byte_value b =? 1
  | None => false
  end.

(** [a.equals(b)] on buffers. *)
Fixpoint Buffer_equals (a b : list byte) : bool :=
  match a, b with
  | [], [] => true
  | x :: a', y :: b' => Byte.eqb x y && Buffer_equals a' b'
  | _, _ => false
  end.

(** A web3.js [PublicKey]: the big number it holds.  The constructor reads a
    byte array as a big-endian number and rejects it only when it needs more
    than 32 bytes. *)
Record PublicKey : Type := { bn : Z }.

Definition PublicKey_of_bytes (value : list byte) : outcome PublicKey :=
  let n := be_value value in
  if 2 ^ 256 <=? n then Throw (Error "Invalid public key input") else Return {| bn := n |}.

(** [key.equals(other)]. *)
Definition equals (key other : PublicKey) : bool := bn key =? bn other.

(** [key.toBuffer()]: the 32 bytes of the key, most significant first. *)
Definition toBuffer (key : PublicKey) : list byte := rev (le_bytes 32 (bn key)).

(** ** Bonding curve and pool state *)

Record BondingCurveState : Type := {
  virtualTokenReserves : Z;
  virtualSolReserves : Z;
  realTokenReserves : Z;
  realSolReserves : Z;
  tokenTotalSupply : Z;
  complete : bool
}.

Record PoolReserves : Type := {
  baseAmount : Z;
  quoteAmount : Z
}.

Definition AMM_FEE_BPS : Z := 100.
Definition BPS_DENOMINATOR : Z := 10000.

(** ** Price computation ([calcBuy], [calcSell], AMM outputs) *)

Definition calcBuy (solIn : Z) (state : BondingCurveState) : outcome Z :=
  let newVirtualSol := virtualSolReserves state + solIn in
  let* newVirtualToken :=
    bigint_div (virtualSolReserves state * virtualTokenReserves state) newVirtualSol in
  Return (virtualTokenReserves state - newVirtualToken).

Definition calcSell (tokenIn : Z) (state : BondingCurveState) : outcome Z :=
  let newVirtualToken := virtualTokenReserves state + tokenIn in
  let* newVirtualSol :=
    bigint_div (virtualSolReserves state * virtualTokenReserves state) newVirtualToken in
  Return (virtualSolReserves state - newVirtualSol).

Definition calculateAmmBuyOutput (quoteIn : Z) (reserves : PoolReserves) : outcome Z :=
  let* quoteInAfterFee :=
    bigint_div (quoteIn * (BPS_DENOMINATOR - AMM_FEE_BPS)) BPS_DENOMINATOR in
  let numerator := baseAmount reserves * quoteInAfterFee in
  let denominator := quoteAmount reserves + quoteInAfterFee in
  bigint_div numerator denominator.

Definition calculateAmmSellOutput (baseIn : Z) (reserves : PoolReserves) : outcome Z :=
  let* baseInAfterFee :=
    bigint_div (baseIn * (BPS_DENOMINATOR - AMM_FEE_BPS)) BPS_DENOMINATOR in
  let numerator := quoteAmount reserves * baseInAfterFee in
  let denominator := baseAmount reserves + baseInAfterFee in
  bigint_div numerator denominator.

(** ** Order planner ([splitByMax], [splitIntoN], the sell-side plan)

    Arrays are lists, [chunks.push(chunk)] appends at the end; the bound on
    the length of a JavaScript array is not modelled. *)

(** The [while (remaining > 0n)] loop of [splitByMax].  The loop condition
    need not ever fail (a ceiling of [0n] never lowers [remaining], and the
    program then goes on until the array can grow no further), so the loop
    runs on fuel: [None] says the fuel ran out before the loop condition
    failed. *)
Fixpoint splitByMax_loop (fuel : nat) (max remaining : Z) (chunks : list Z)
  : option (list Z) :=
  match fuel with
  | O => None
  | S fuel' =>
      if 0 <? remaining then
        let chunk := if max <? remaining then max else remaining in
        splitByMax_loop fuel' max (remaining - chunk) (chunks ++ [chunk])
      else Some chunks
  end.

Definition splitByMax (fuel : nat) (total max : Z) : option (list Z) :=
  splitByMax_loop fuel max total [].

(** The [for (let i = 0; i < n; i++)] loop of [splitIntoN], [iters] iterations
    from counter [i] on. *)
Fixpoint splitIntoN_loop (iters : nat) (i n part remaining : Z) (chunks : list Z)
  : list Z :=
  match iters with
  | O => chunks
  | S iters' =>
      let chunk := if i =? n - 1 then remaining else part in
      splitIntoN_loop iters' (i + 1) n part (remaining - chunk) (chunks ++ [chunk])
  end.

(** [n] is a Number holding an integer below 2^53 (where [i++] is exact), so
    the loop runs [n] times, and not at all when [n] is negative. *)
Definition splitIntoN (total n : Z) : outcome (list Z) :=
  let* part := bigint_div total (BigInt n) in
  Return (splitIntoN_loop (Z.to_nat n) 0 n part total []).

(** The plan of [sell]: the chunks of tokens it goes on to submit one by one
    (the [totalSolOut] and [tokenChunks] constants of the source). *)
Definition tokenChunks (totalTokenIn maxSolPerTx : Z) (state : BondingCurveState)
  : outcome (list Z) :=
  let* totalSolOut := calcSell totalTokenIn state in
  if totalSolOut <=? maxSolPerTx then Return [totalTokenIn]
  else
    let* n := bigint_div (totalSolOut + maxSolPerTx - 1) maxSolPerTx in
    splitIntoN totalTokenIn (Number n).

(** ** The trader: its state, its remote calls and its entry points *)

Inductive TokenProgramId : Type := TOKEN_2022_PROGRAM_ID | TOKEN_PROGRAM_ID.

(** The result of [detectTokenProgram]. *)
Record TokenProgram : Type := { type : string; programId : TokenProgramId }.

Record GlobalState : Type := {
  initialized : bool;
  authority : PublicKey;
  feeRecipient : PublicKey;
  withdrawAuthority : PublicKey;
  initialVirtualTokenReserves : Z;
  initialVirtualSolReserves : Z;
  initialRealTokenReserves : Z;
  global_tokenTotalSupply : Z;
  feeBasisPoints : Z
}.

Inductive Side : Type := Buy | Sell.

(** One sub-order of a plan: its index, the amount it puts in and the amount
    the curve quotes for it. *)
Record SubOrder : Type := { side : Side; index : nat; amountIn : Z; quotedOut : Z }.

(** The remote calls of the curve-phase paths, in the order they are made. *)
Inductive RpcCall : Type :=
| RpcGetMint (mint : PublicKey) (program : TokenProgramId)
| RpcGetAccountInfo (address : PublicKey)
| RpcSubmit (order : SubOrder).

Record PendingTransaction : Type := {
  pending_signature : string;
  lastValidBlockHeight : Z;
  pending_index : nat
}.

Record FailedTransaction : Type := { failed_index : nat; error : string }.

Record TradeResult : Type := {
  pendingTransactions : list PendingTransaction;
  failedTransactions : list FailedTransaction
}.

(** The mutable fields of a [PumpTrader], with the calls it has made so far. *)
Record Trader : Type := {
  globalState : option GlobalState;
  tokenProgramCache : gmap string TokenProgram;
  history : list RpcCall
}.

(** An [async] method: it runs on the trader, returns or throws, and leaves
    the trader changed. *)
Definition M (A : Type) : Type := Trader -> outcome A * Trader.

Definition ret {A : Type} (a : A) : M A := fun t => (Return a, t).

Definition throw {A : Type} (e : exn) : M A := fun t => (Throw e, t).

Definition lift {A : Type} (o : outcome A) : M A := fun t => (o, t).

Definition mbind {A B : Type} (m : M A) (k : A -> M B) : M B :=
  fun t =>
    match m t with
    | (Return a, t') => k a t'
    | (Throw e, t') => (Throw e, t')
    end.

(** [try { body } catch (e) { handler }]. *)
Definition try_catch {A : Type} (body : M A) (handler : exn -> M A) : M A :=
  fun t =>
    match body t with
    | (Return a, t') => (Return a, t')
    | (Throw e, t') => handler e t'
    end.

(** A remote call: answered from the calls made so far, and recorded. *)
Definition rpc {A : Type} (call : RpcCall) (answer : list RpcCall -> outcome A) : M A :=
  fun t =>
    (answer (history t),
     {| globalState := globalState t;
        tokenProgramCache := tokenProgramCache t;
        history := history t ++ [call] |}).

Notation "'let!' x ':=' m 'in' k" := (mbind m (fun x => k))
  (at level 10, x name, m at level 100, k at level 200) : js_scope.
Notation "'let!' ' p ':=' m 'in' k" := (mbind m (fun x => match x with p => k end))
  (at level 10, p pattern, m at level 100, k at level 200) : js_scope.

(** [`${error}`]. *)
Definition exn_toString (e : exn) : string :=
  if String.eqb (message e) "" then exn_name e else exn_name e +:+ ": " +:+ message e.

(** What the sub-orders of a call are submitted under. *)
Record TradeOptions (SlippageOptions PriorityOptions : Type) : Type := {
  maxSolPerTx : Z;
  slippage : SlippageOptions;
  priority : PriorityOptions
}.
Arguments maxSolPerTx {SlippageOptions PriorityOptions} _.
Arguments slippage {SlippageOptions PriorityOptions} _.
Arguments priority {SlippageOptions PriorityOptions} _.

(** What the engine runs on.  From its libraries it takes the base58 decoder,
    the derivation of program addresses and the program id.  From the
    connection it takes what each remote call completes with, given the calls
    made before it; [submit] stands for the rest of the body of a sub-order
    once its quote is known: the slippage bound and priority fee, the
    instruction, the blockhash, the signature and [sendRawTransaction]; it
    returns the signature and the expiry ceiling, or throws what any of these
    steps throws.  [ammBuy] and [ammSell] are the trading paths of the AMM
    phase. *)
Record Runtime (SlippageOptions PriorityOptions : Type) : Type := {
  bs58_decode : string -> outcome (list byte);
  findProgramAddressSync : list (list byte) -> PublicKey -> PublicKey;
  PUMP : PublicKey;
  getMint : list RpcCall -> PublicKey -> TokenProgramId -> outcome unit;
  getAccountInfo : list RpcCall -> PublicKey -> outcome (option (list byte));
  submit : list RpcCall -> TradeOptions SlippageOptions PriorityOptions -> SubOrder
           -> outcome (string * Z);
  ammBuy : string -> Z -> TradeOptions SlippageOptions PriorityOptions -> Trader
           -> option (outcome TradeResult * Trader);
  ammSell : string -> Z -> TradeOptions SlippageOptions PriorityOptions -> M TradeResult
}.
Arguments bs58_decode {SlippageOptions PriorityOptions} _.
Arguments findProgramAddressSync {SlippageOptions PriorityOptions} _.
Arguments PUMP {SlippageOptions PriorityOptions} _.
Arguments getMint {SlippageOptions PriorityOptions} _.
Arguments getAccountInfo {SlippageOptions PriorityOptions} _.
Arguments submit {SlippageOptions PriorityOptions} _.
Arguments ammBuy {SlippageOptions PriorityOptions} _.
Arguments ammSell {SlippageOptions PriorityOptions} _.

Section PumpTrader.

Context {SlippageOptions PriorityOptions : Type}.
Variable rt : Runtime SlippageOptions PriorityOptions.
Abbreviation Options := (TradeOptions SlippageOptions PriorityOptions).

Definition SEEDS_GLOBAL : list byte := list_byte_of_string "global".
Definition SEEDS_BONDING : list byte := list_byte_of_string "bonding-curve".

(** [new PublicKey(value)] for a base58 string. *)
Definition PublicKey_of_string (value : string) : outcome PublicKey :=
  let* decoded := bs58_decode rt value in
  if negb (length decoded =? 32)%nat then Throw (Error "Invalid public key input")
  else PublicKey_of_bytes decoded.

(** [this.global], set by the constructor. *)
Definition global : PublicKey := findProgramAddressSync rt [SEEDS_GLOBAL] (PUMP rt).

Definition cache_set (tokenAddr : string) (result : TokenProgram) : M unit :=
  fun t =>
    (Return tt,
     {| globalState := globalState t;
        tokenProgramCache := <[tokenAddr := result]> (tokenProgramCache t);
        history := history t |}).

Definition detectTokenProgram (tokenAddr : string) : M TokenProgram :=
  fun t =>
    match tokenProgramCache t !! tokenAddr with
    | Some cached => (Return cached, t)
    | None =>
        (let! mint := lift (PublicKey_of_string tokenAddr) in
         try_catch
           (let! mintData := rpc (RpcGetMint mint TOKEN_2022_PROGRAM_ID)
                               (fun h => getMint rt h mint TOKEN_2022_PROGRAM_ID) in
            let result := {| type := "TOKEN_2022_PROGRAM_ID";
                             programId := TOKEN_2022_PROGRAM_ID |} in
            let! _ := cache_set tokenAddr result in
            ret result)
           (fun e =>
              try_catch
                (let! mintData := rpc (RpcGetMint mint TOKEN_PROGRAM_ID)
                                    (fun h => getMint rt h mint TOKEN_PROGRAM_ID) in
                 let result := {| type := "TOKEN_PROGRAM_ID";
                                  programId := TOKEN_PROGRAM_ID |} in
                 let! _ := cache_set tokenAddr result in
                 ret result)
                (fun error =>
                   throw (Error ("Failed to detect token program for " +:+ tokenAddr
                                 +:+ ": " +:+ exn_toString error))))) t
    end.

(** The record [loadGlobal] decodes, field by field. *)
Definition decodeGlobal (data : list byte) : outcome GlobalState :=
  let offset := 8%nat in
  let initialized := byte_is_one data offset in
  let offset := (offset + 1)%nat in
  let* authority := PublicKey_of_bytes (slice data offset (offset + 32)) in
  let offset := (offset + 32)%nat in
  let* feeRecipient := PublicKey_of_bytes (slice data offset (offset + 32)) in
  let offset := (offset + 32)%nat in
  let* withdrawAuthority := PublicKey_of_bytes (slice data offset (offset + 32)) in
  let offset := (offset + 32)%nat in
  let* initialVirtualTokenReserves := readBigUInt64LE data offset in
  let offset := (offset + 8)%nat in
  let* initialVirtualSolReserves := readBigUInt64LE data offset in
  let offset := (offset + 8)%nat in
  let* initialRealTokenReserves := readBigUInt64LE data offset in
  let offset := (offset + 8)%nat in
  let* tokenTotalSupply := readBigUInt64LE data offset in
  let offset := (offset + 8)%nat in
  let* feeBasisPoints := readBigUInt64LE data offset in
  Return {| initialized := initialized;
            authority := authority;
            feeRecipient := feeRecipient;
            withdrawAuthority := withdrawAuthority;
            initialVirtualTokenReserves := initialVirtualTokenReserves;
            initialVirtualSolReserves := initialVirtualSolReserves;
            initialRealTokenReserves := initialRealTokenReserves;
            global_tokenTotalSupply := tokenTotalSupply;
            feeBasisPoints := feeBasisPoints |}.

Definition set_globalState (g : GlobalState) : M unit :=
  fun t =>
    (Return tt,
     {| globalState := Some g;
        tokenProgramCache := tokenProgramCache t;
        history := history t |}).

Definition loadGlobal : M GlobalState :=
  let! acc := rpc (RpcGetAccountInfo global) (fun h => getAccountInfo rt h global) in
  match acc with
  | None => throw (Error "Global account not found")
  | Some data =>
      let! decoded := lift (decodeGlobal data) in
      let! _ := set_globalState decoded in
      ret decoded
  end.

Definition getBondingPda (mint : PublicKey) : PublicKey :=
  findProgramAddressSync rt [SEEDS_BONDING; toBuffer mint] (PUMP rt).

(** The state and the creator [loadBonding] decodes from the account. *)
Definition decodeBonding (data : list byte) : outcome (BondingCurveState * PublicKey) :=
  let offset := 8%nat in
  let* '(virtualTokenReserves, offset) := readU64 data offset in
  let* '(virtualSolReserves, offset) := readU64 data offset in
  let* '(realTokenReserves, offset) := readU64 data offset in
  let* '(realSolReserves, offset) := readU64 data offset in
  let* '(tokenTotalSupply, offset) := readU64 data offset in
  let complete := byte_is_one data offset in
  let offset := (offset + 1)%nat in
  let* creator := PublicKey_of_bytes (slice data offset (offset + 32)) in
  Return ({| virtualTokenReserves := virtualTokenReserves;
             virtualSolReserves := virtualSolReserves;
             realTokenReserves := realTokenReserves;
             realSolReserves := realSolReserves;
             tokenTotalSupply := tokenTotalSupply;
             complete := complete |}, creator).

Definition loadBonding (mint : PublicKey)
  : M (PublicKey * BondingCurveState * PublicKey) :=
  let bonding := getBondingPda mint in
  let! acc := rpc (RpcGetAccountInfo bonding) (fun h => getAccountInfo rt h bonding) in
  match acc with
  | None => throw (Error "Bonding curve not found")
  | Some data =>
      let! '(state, creator) := lift (decodeBonding data) in
      ret (bonding, state, creator)
  end.

(** [if (!this.globalState) await this.loadGlobal();] *)
Definition loadGlobal_if_missing : M unit :=
  fun t =>
    match globalState t with
    | Some _ => (Return tt, t)
    | None => (let! _ := loadGlobal in ret tt) t
    end.

Definition push_pending (result : TradeResult) (p : PendingTransaction) : TradeResult :=
  {| pendingTransactions := pendingTransactions result ++ [p];
     failedTransactions := failedTransactions result |}.

Definition push_failed (result : TradeResult) (f : FailedTransaction) : TradeResult :=
  {| pendingTransactions := pendingTransactions result;
     failedTransactions := failedTransactions result ++ [f] |}.

(** The body of the sub-order loop, for the sub-order [i] of either side: the
    quote, the submission, and the [catch] that records a failure. *)
Definition subOrder_body (tradeOpt : Options) (state : BondingCurveState) (side : Side)
    (i : nat) (amount : Z) (result : TradeResult) : M TradeResult :=
  try_catch
    (let! quoted := lift (match side with
                          | Buy => calcBuy amount state
                          | Sell => calcSell amount state
                          end) in
     let order := {| side := side; index := i; amountIn := amount; quotedOut := quoted |} in
     let! '(signature, lastValidBlockHeight) :=
       rpc (RpcSubmit order) (fun h => submit rt h tradeOpt order) in
     ret (push_pending result {| pending_signature := signature;
                                 lastValidBlockHeight := lastValidBlockHeight;
                                 pending_index := i |}))
    (fun e => ret (push_failed result {| failed_index := i; error := message e |})).

(** [for (let i = 0; i < chunks.length; i++)], from the sub-order [i] on. *)
Fixpoint subOrder_loop (tradeOpt : Options) (state : BondingCurveState) (side : Side)
    (i : nat) (chunks : list Z) (result : TradeResult) : M TradeResult :=
  match chunks with
  | [] => ret result
  | amount :: chunks' =>
      let! result' := subOrder_body tradeOpt state side i amount result in
      subOrder_loop tradeOpt state side (S i) chunks' result'
  end.

Definition empty_result : TradeResult :=
  {| pendingTransactions := []; failedTransactions := [] |}.

(** The reads both curve-phase entry points start with, up to the check of
    the completion flag. *)
Definition curve_checks (tokenAddr : string) : M BondingCurveState :=
  let! mint := lift (PublicKey_of_string tokenAddr) in
  let! tokenProgram := detectTokenProgram tokenAddr in
  let! _ := loadGlobal_if_missing in
  let! '(bonding, state, creator) := loadBonding mint in
  if complete state then throw (Error "Bonding curve already completed")
  else ret state.

(** [buy]; [None] when the fuel does not see [splitByMax] through.  The
    addresses derived between the plan and the loop only enter the
    instruction, which [submit] builds. *)
Definition buy (fuel : nat) (tokenAddr : string) (totalSolIn : Z) (tradeOpt : Options)
  : Trader -> option (outcome TradeResult * Trader) :=
  fun t =>
    match curve_checks tokenAddr t with
    | (Throw e, t') => Some (Throw e, t')
    | (Return state, t') =>
        match splitByMax fuel totalSolIn (maxSolPerTx tradeOpt) with
        | None => None
        | Some solChunks =>
            Some (subOrder_loop tradeOpt state Buy 0 solChunks empty_result t')
        end
    end.

(** [sell]: the same checks, the plan of [tokenChunks] (which throws out of
    the call when the quote divides by zero) and the loop. *)
Definition sell (tokenAddr : string) (totalTokenIn : Z) (tradeOpt : Options)
  : M TradeResult :=
  let! state := curve_checks tokenAddr in
  let! chunks := lift (tokenChunks totalTokenIn (maxSolPerTx tradeOpt) state) in
  subOrder_loop tradeOpt state Sell 0 chunks empty_result.

Definition isAmmCompleted (tokenAddr : string) : M bool :=
  try_catch
    (let! mint := lift (PublicKey_of_string tokenAddr) in
     let! '(bonding, state, creator) := loadBonding mint in
     ret (complete state))
    (fun error => ret true).

Definition getTradeMode (tokenAddr : string) : M string :=
  let! isAmmMode := isAmmCompleted tokenAddr in
  ret (if isAmmMode : bool then "amm" else "bonding").

Definition autoBuy (fuel : nat) (tokenAddr : string) (totalSolIn : Z) (tradeOpt : Options)
  : Trader -> option (outcome TradeResult * Trader) :=
  fun t =>
    match getTradeMode tokenAddr t with
    | (Throw e, t') => Some (Throw e, t')
    | (Return mode, t') =>
        if String.eqb mode "bonding" then buy fuel tokenAddr totalSolIn tradeOpt t'
        else ammBuy rt tokenAddr totalSolIn tradeOpt t'
    end.

Definition autoSell (tokenAddr : string) (totalTokenIn : Z) (tradeOpt : Options)
  : M TradeResult :=
  let! mode := getTradeMode tokenAddr in
  if String.eqb mode "bonding" then sell tokenAddr totalTokenIn tradeOpt
  else ammSell rt tokenAddr totalTokenIn tradeOpt.

End PumpTrader.

(** ** Transaction confirmation ([confirmTransactionWithPolling]) *)

(** What [getTransaction] resolves to when the transaction is found: the
    [meta] record may be absent, and its [err] field is [null] ([None]) or a
    value, held as its [JSON.stringify] rendering: a node reports [null] on
    success and the failure payload otherwise. *)
Record TxMeta : Type := { err : option string }.
Record TxInfo : Type := { meta : option TxMeta }.

(** The status source the poller queries: the completions of the
    [getTransaction] and [getBlockHeight] calls made by attempt [k]. *)
Record StatusSource : Type := {
  getTransaction : nat -> outcome (option TxInfo);
  getBlockHeight : nat -> outcome Z
}.

(** The calls the poller makes, in order. *)
Inductive PollCall : Type :=
| Delay (delayMs : Z)
| GetTransaction (signature : string)
| GetBlockHeight.

Definition rejectionError (payload : string) : exn := Error ("交易失败: " +:+ payload).
Definition expirationError : exn := Error "交易过期：未在有效区块高度内确认".
Definition timeoutError (maxAttempts : Z) (signature : string) : exn :=
  Error ("交易确认超时（已尝试 " +:+ decimal maxAttempts +:+ " 次），签名: " +:+ signature
         +:+ "。请手动检查交易状态。").

(** The test of the [catch] block: the errors it throws again. *)
Definition rethrown (error : exn) : bool :=
  includes "交易失败" (message error) || includes "交易过期" (message error).

(** The rendering of the empty string: two double quotes. *)
Definition empty_string_rendering : string := String "034" (String "034" EmptyString).

(** A value of the [err] field taken as a condition, [if (txInfo.meta?.err)],
    read off its rendering: besides [null] and [undefined], which no rendering
    stands for, JavaScript takes [false], zero and the empty string for
    false, and every other value for true. *)
Definition truthy (rendering : string) : bool :=
  negb (String.eqb rendering "false" || String.eqb rendering "0"
        || String.eqb rendering empty_string_rendering).

(** The [try] block of one attempt: the calls it makes, and its completion
    ([Return None] when it falls through to the next iteration). *)
Definition attempt_try (src : StatusSource) (signature : string) (lastValidBlockHeight : Z)
    (attempt : nat) : list PollCall * outcome (option string) :=
  match getTransaction src attempt with
  | Throw error => ([GetTransaction signature], Throw error)
  | Return (Some txInfo) =>
      match meta txInfo ≫= err with
      | Some payload =>
          if truthy payload
          then ([GetTransaction signature], Throw (rejectionError payload))
          else ([GetTransaction signature], Return (Some signature))
      | None => ([GetTransaction signature], Return (Some signature))
      end
  | Return None =>
      match getBlockHeight src attempt with
      | Throw error => ([GetTransaction signature; GetBlockHeight], Throw error)
      | Return currentBlockHeight =>
          if lastValidBlockHeight <? currentBlockHeight
          then ([GetTransaction signature; GetBlockHeight], Throw expirationError)
          else ([GetTransaction signature; GetBlockHeight], Return None)
      end
  end.

(** One iteration of the loop: the delay, the [try] block and its [catch].
    [None] goes on to the next iteration. *)
Definition attempt_body (src : StatusSource) (signature : string) (lastValidBlockHeight : Z)
    (delayMs : Z) (attempt : nat) : list PollCall * option (outcome string) :=
  let '(calls, completion) := attempt_try src signature lastValidBlockHeight attempt in
  (Delay delayMs :: calls,
   match completion with
   | Return (Some sig) => Some (Return sig)
   | Return None => None
   | Throw error => if rethrown error then Some (Throw error) else None
   end).

(** The [for (let attempt = 1; attempt <= maxAttempts; attempt++)] loop with
    [iters] iterations left, and the [throw] after it. *)
Fixpoint poll_loop (src : StatusSource) (signature : string) (lastValidBlockHeight : Z)
    (maxAttempts delayMs : Z) (iters attempt : nat) : list PollCall * outcome string :=
  match iters with
  | O => ([], Throw (timeoutError maxAttempts signature))
  | S iters' =>
      let '(calls, done) := attempt_body src signature lastValidBlockHeight delayMs attempt in
      match done with
      | Some completion => (calls, completion)
      | None =>
          let '(calls', completion) :=
            poll_loop src signature lastValidBlockHeight maxAttempts delayMs iters' (S attempt) in
          (calls ++ calls', completion)
      end
  end.

Definition confirmTransactionWithPolling (src : StatusSource) (signature : string)
    (lastValidBlockHeight maxAttempts delayMs : Z) : list PollCall * outcome string :=
  poll_loop src signature lastValidBlockHeight maxAttempts delayMs (Z.to_nat maxAttempts) 1.

(** ** Trade events ([listenTrades]) *)

Definition TRADE_EVENT : list byte := [xbd; xdb; x7f; xd3; x4e; xe6; x61; xee].

Record TradeEvent : Type := {
  event_mint : string;
  solAmount : Z;
  tokenAmount : Z;
  isBuy : bool;
  user : string;
  timestamp : Z;
  event_signature : string
}.

(** A message of the log stream: the log lines of one transaction. *)
Record Logs : Type := { logs : list string; signature : string }.

(** How the body of the [for (const logLine of log.logs)] loop ends. *)
Inductive line_end : Type :=
| Continue
| ReturnFromHandler
| Called (event : TradeEvent).

Section ListenTrades.

(** The codecs of the runtime and of bs58: [Buffer.from(s, "base64")] and
    [key.toBase58()]. *)
Variable base64 : string -> list byte.
Variable toBase58 : PublicKey -> string.

(** The body of the loop on one line: [Called event] is a call of the
    callback. *)
Definition logLine_body (mintFilter : option PublicKey) (log : Logs) (logLine : string)
  : outcome line_end :=
  if negb (startsWith "Program data: " logLine) then Return Continue
  else
    let buf := base64 (replace "Program data: " "" logLine) in
    if negb (Buffer_equals (slice buf 0 8) TRADE_EVENT) then Return Continue
    else
      let offset := 8%nat in
      let* mint := PublicKey_of_bytes (slice buf offset (offset + 32)) in
      let offset := (offset + 32)%nat in
      if match mintFilter with
         | Some wanted => negb (equals mint wanted)
         | None => false
         end
      then Return ReturnFromHandler
      else
        let* solAmount := readBigUInt64LE buf offset in
        let offset := (offset + 8)%nat in
        let* tokenAmount := readBigUInt64LE buf offset in
        let offset := (offset + 8)%nat in
        let isBuy := byte_is_one buf offset in
        let offset := (offset + 1)%nat in
        let* user := PublicKey_of_bytes (slice buf offset (offset + 32)) in
        let offset := (offset + 32)%nat in
        let* timestamp := readBigInt64LE buf offset in
        Return (Called {| event_mint := toBase58 mint;
                          solAmount := solAmount;
                          tokenAmount := tokenAmount;
                          isBuy := isBuy;
                          user := toBase58 user;
                          timestamp := Number timestamp;
                          event_signature := signature log |}).

(** The loop over the lines of one message, from [lines] on: the events the
    callback has been called with, in order, and how the handler ended. *)
Fixpoint logLines_loop (mintFilter : option PublicKey) (log : Logs) (lines : list string)
    (called : list TradeEvent) : list TradeEvent * outcome unit :=
  match lines with
  | [] => (called, Return tt)
  | logLine :: lines' =>
      match logLine_body mintFilter log logLine with
      | Throw e => (called, Throw e)
      | Return Continue => logLines_loop mintFilter log lines' called
      | Return ReturnFromHandler => (called, Return tt)
      | Return (Called event) => logLines_loop mintFilter log lines' (called ++ [event])
      end
  end.

(** The handler [listenTrades] subscribes with, run on one message. *)
Definition listenTrades (mintFilter : option PublicKey) (log : Logs)
  : list TradeEvent * outcome unit :=
  logLines_loop mintFilter log (logs log) [].

End ListenTrades.

(** ** The specification in its own words

    What the statements of Part II speak of besides the program: sums and
    ceilings, the state machine of the confirmation poller, the calls a run
    has made. *)

Module Spec.

(** The sum of a plan's amounts. *)
Definition plan_sum (chunks : list Z) : Z := foldr Z.add 0 chunks.

(** The ceiling of [a / b], for a positive [b]. *)
Definition ceil_div (a b : Z) : Z := - (- a / b).

(** What the specification says of [splitIntoN total n]: the chunks sum to the
    total, there are [n] of them, each one before the last is
    [floor (total / n)], and the last one takes the remainder as well. *)
Definition even_split (total n : Z) (chunks : list Z) : Prop :=
  plan_sum chunks = total /\
  Z.of_nat (length chunks) = n /\
  (forall (i : nat) (c : Z),
      Z.of_nat i < n - 1 -> chunks !! i = Some c -> c = total / n) /\
  last chunks = Some (total / n + total mod n).

(** *** The state machine of the confirmation poller *)

(** The states of the confirmation poller as the specification names them. *)
Inductive poll_state : Type :=
| Polling
| Confirmed (signature : string)
| Failed (payload : string)
| Expired
| TimedOut (signature : string).

(** What one attempt learns of the transaction. *)
Inductive status : Type :=
| FoundWithError (payload : string)
| FoundOk
| NotFound (finalizedHeight : Z)
| QueryFailed.

(** The transition taken from [Polling] on one status. *)
Definition transition (signature : string) (expiryCeiling : Z) (s : status) : poll_state :=
  match s with
  | FoundWithError payload => Failed payload
  | FoundOk => Confirmed signature
  | NotFound height => if expiryCeiling <? height then Expired else Polling
  | QueryFailed => Polling
  end.

(** The machine run from attempt [k] with [budget] attempts left: the state it
    ends in and the number of attempts it consumed. *)
Fixpoint machine (signature : string) (expiryCeiling : Z) (statuses : nat -> status)
    (budget k : nat) : poll_state * nat :=
  match budget with
  | O => (TimedOut signature, O)
  | S budget' =>
      match transition signature expiryCeiling (statuses k) with
      | Polling =>
          let '(final, used) := machine signature expiryCeiling statuses budget' (S k) in
          (final, S used)
      | final => (final, 1%nat)
      end
  end.

(** How a final state surfaces to the caller. *)
Definition surface (maxAttempts : Z) (final : poll_state) : option (outcome string) :=
  match final with
  | Polling => None
  | Confirmed signature => Some (Return signature)
  | Failed payload => Some (Throw (rejectionError payload))
  | Expired => Some (Throw expirationError)
  | TimedOut signature => Some (Throw (timeoutError maxAttempts signature))
  end.

(** *** The statuses a status source shows *)

Definition status_of (src : StatusSource) (k : nat) : status :=
  match getTransaction src k with
  | Throw _ => QueryFailed
  | Return (Some txInfo) =>
      match meta txInfo ≫= err with
      | Some payload => FoundWithError payload
      | None => FoundOk
      end
  | Return None =>
      match getBlockHeight src k with
      | Throw _ => QueryFailed
      | Return height => NotFound height
      end
  end.

(** A message that quotes the text of the poller's rejection error or of its
    expiration error. *)
Definition quotes_poller_error (text : string) : Prop :=
  includes "交易失败" text = true \/ includes "交易过期" text = true.

(** The failing queries of a source are transient: none of them fails with a
    message that quotes the poller's own errors. *)
Definition transient_failures (src : StatusSource) : Prop :=
  (forall k error, getTransaction src k = Throw error ->
                   ~ quotes_poller_error (message error)) /\
  (forall k error, getBlockHeight src k = Throw error ->
                   ~ quotes_poller_error (message error)).

(** The error fields of a source are set to errors: an error field that is
    not null is none of [false], zero and the empty string (a node reports an
    object or a name). *)
Definition error_fields_set (src : StatusSource) : Prop :=
  forall k txInfo payload,
    getTransaction src k = Return (Some txInfo) -> meta txInfo ≫= err = Some payload ->
    payload <> "false" /\ payload <> "0" /\ payload <> empty_string_rendering.

(** The number of status queries among the calls made. *)
Definition is_status_query (call : PollCall) : bool :=
  match call with
  | GetTransaction _ => true
  | _ => false
  end.

Definition attempts_used (calls : list PollCall) : nat :=
  length (List.filter is_status_query calls).

(** *** Trade-event lines *)

(** A line the handler takes for a trade event of [mint]. *)
Definition trade_event_line (base64 : string -> list byte) (logLine : string)
    (mint : PublicKey) : Prop :=
  startsWith "Program data: " logLine = true /\
  Buffer_equals (slice (base64 (replace "Program data: " "" logLine)) 0 8) TRADE_EVENT = true /\
  PublicKey_of_bytes (slice (base64 (replace "Program data: " "" logLine)) 8 40) = Return mint.

(** *** The sub-orders a call submits *)

(** The sub-orders submitted among the calls made. *)
Definition submitted (calls : list RpcCall) : list SubOrder :=
  omap (fun call => match call with RpcSubmit order => Some order | _ => None end) calls.

(** A method keeps the submissions when the calls it makes submit nothing. *)
Definition submits_nothing {A : Type} (m : M A) : Prop :=
  forall t, submitted (history (snd (m t))) = submitted (history t).

Definition CurveAlreadyComplete : exn := Error "Bonding curve already completed".

End Spec.

(** ** Reference codecs

    [listenTrades] is verified for every base64 decoder and base58 encoder;
    these two run it on concrete log lines. *)
Module Codecs.

(** The value of a base64 digit, of the standard or the URL-safe alphabet. *)
Definition base64_digit (c : ascii) : option Z :=
  let n := Z.of_nat (nat_of_ascii c) in
  if (65 <=? n) && (n <=? 90) then Some (n - 65)
  else if (97 <=? n) && (n <=? 122) then Some (n - 71)
  else if (48 <=? n) && (n <=? 57) then Some (n + 4)
  else if (n =? 43) || (n =? 45) then Some 62
  else if (n =? 47) || (n =? 95) then Some 63
  else None.

(** Decoding keeps [nbits] pending bits in [acc], emits a byte whenever eight
    are there, skips what is no digit, and stops at the padding. *)
Fixpoint base64_run (s : string) (acc : Z) (nbits : Z) : list byte :=
  match s with
  | EmptyString => []
  | String c s' =>
      if Ascii.eqb c "="%char then []
      else
        match base64_digit c with
        | None => base64_run s' acc nbits
        | Some d =>
            let acc := acc * 64 + d in
            let nbits := nbits + 6 in
            if 8 <=? nbits
            then byte_of_value (acc / 2 ^ (nbits - 8))
                 :: base64_run s' (acc mod 2 ^ (nbits - 8)) (nbits - 8)
            else base64_run s' acc nbits
        end
  end.

Definition base64 (s : string) : list byte := base64_run s 0 0.

Definition base58_alphabet : list ascii :=
  list_ascii_of_string "123456789ABCDEFGHJKLMNPQRSTUVWXYZabcdefghijkmnopqrstuvwxyz".

Definition base58_char (d : Z) : ascii := nth (Z.to_nat d) base58_alphabet "1"%char.

Fixpoint base58_digits (fuel : nat) (n : Z) (acc : string) : string :=
  match fuel with
  | O => acc
  | S fuel' =>
      if n <=? 0 then acc
      else base58_digits fuel' (n / 58) (String (base58_char (n mod 58)) acc)
  end.

Fixpoint leading_zeros (bytes : list byte) : nat :=
  match bytes with
  | x00 :: rest => S (leading_zeros rest)
  | _ => O
  end.

(** A key in base58: one [1] for each leading zero byte, then the digits. *)
Definition toBase58 (key : PublicKey) : string :=
  string_of_list_ascii (replicate (leading_zeros (toBuffer key)) "1"%char)
  +:+ base58_digits 44 (bn key) "".

End Codecs.

(** ** Sample data *)

Module Samples.

(** The state of the specification's worked example: 1_000_000_000 virtual
    tokens against 30_000_000_000 virtual lamports. *)
Definition example_curve : BondingCurveState :=
  {| virtualTokenReserves := 1000000000; virtualSolReserves := 30000000000;
     realTokenReserves := 0; realSolReserves := 0; tokenTotalSupply := 1000000000;
     complete := false |}.

(** The same curve after a buy of 100_000_000 lamports has been applied to its
    virtual reserves. *)
Definition example_curve_after_buy : BondingCurveState :=
  {| virtualTokenReserves := 996677740; virtualSolReserves := 30100000000;
     realTokenReserves := 0; realSolReserves := 0; tokenTotalSupply := 1000000000;
     complete := false |}.

(** The smallest curve: one virtual token against one virtual lamport. *)
Definition unit_curve : BondingCurveState :=
  {| virtualTokenReserves := 1; virtualSolReserves := 1;
     realTokenReserves := 0; realSolReserves := 0; tokenTotalSupply := 1;
     complete := false |}.

Definition example_pool : PoolReserves :=
  {| baseAmount := 500000; quoteAmount := 10000000 |}.

(** A source that finds the transaction failed at its first query. *)
Definition rejected_at_once : StatusSource :=
  {| getTransaction := fun _ => Return (Some {| meta := Some {| err := Some "{}" |} |});
     getBlockHeight := fun _ => Return 0 |}.

(** A source that never finds the transaction, below the expiry ceiling until
    the third attempt. *)
Definition expires_at_third : StatusSource :=
  {| getTransaction := fun _ => Return None;
     getBlockHeight := fun k => Return (Z.of_nat k + 98) |}.

(** The bytes of a trade event as the program logs them. *)
Definition event_bytes (mint : PublicKey) (sol token : Z) (buy : bool) (trader : PublicKey)
    (time : Z) : list byte :=
  TRADE_EVENT ++ toBuffer mint ++ le_bytes 8 sol ++ le_bytes 8 token
  ++ [if buy then x01 else x00] ++ toBuffer trader ++ le_bytes 8 time.

Definition mintA : PublicKey := {| bn := 1 |}.
Definition mintB : PublicKey := {| bn := 2 |}.

(** A buy of [mintA] and the same buy of [mintB], as log lines. *)
Definition lineA : string :=
  "Program data: vdt/007mYe4AAAAAAAAAAAAAAAAAAAAAAAAAAAAAAAAAAAAAAAAAAQDh9QUAAAAAlLEyAAAAAAABAAAAAAAAAAAAAAAAAAAAAAAAAAAAAAAAAAAAAAAAAAcA8VNlAAAAAA==".
Definition lineB : string :=
  "Program data: vdt/007mYe4AAAAAAAAAAAAAAAAAAAAAAAAAAAAAAAAAAAAAAAAAAgDh9QUAAAAAlLEyAAAAAAABAAAAAAAAAAAAAAAAAAAAAAAAAAAAAAAAAAAAAAAAAAcA8VNlAAAAAA==".

Definition eventB : TradeEvent :=
  {| event_mint := "11111111111111111111111111111113";
     solAmount := 100000000;
     tokenAmount := 3322260;
     isBuy := true;
     user := "11111111111111111111111111111118";
     timestamp := 1700000000;
     event_signature := "sig" |}.

(** A small ledger to run the entry points on: every address string decodes
    to the mint [mintA], a program address is numbered by how many seeds
    derive it (the global account 1, a bonding curve 2), and every mint is a
    Token-2022 mint. *)
Definition decode (value : string) : outcome (list byte) := Return (toBuffer mintA).

Definition derive (seeds : list (list byte)) (program : PublicKey) : PublicKey :=
  {| bn := Z.of_nat (length seeds) |}.

Definition program : PublicKey := {| bn := 0 |}.

Definition mints (h : list RpcCall) (mint : PublicKey) (p : TokenProgramId) : outcome unit :=
  Return tt.

Definition global_data : list byte := replicate 145 x00.

(** The account of a curve that has completed: the reserves of
    [example_curve] and the completion flag set. *)
Definition completed_curve_data : list byte :=
  replicate 8 x00 ++ le_bytes 8 1000000000 ++ le_bytes 8 30000000000
  ++ le_bytes 8 0 ++ le_bytes 8 0 ++ le_bytes 8 1000000000 ++ [x01] ++ replicate 32 x00.

Definition completed_ledger (h : list RpcCall) (address : PublicKey)
  : outcome (option (list byte)) :=
  if bn address =? 1 then Return (Some global_data) else Return (Some completed_curve_data).

(** A ledger without the curve account. *)
Definition empty_ledger (h : list RpcCall) (address : PublicKey)
  : outcome (option (list byte)) :=
  Return None.

Definition options : TradeOptions unit unit :=
  {| maxSolPerTx := 30000000; slippage := tt; priority := tt |}.

Definition send (h : list RpcCall) (o : TradeOptions unit unit) (order : SubOrder)
  : outcome (string * Z) :=
  Return ("sig", 100).

Definition amm_buy (tokenAddr : string) (total : Z) (o : TradeOptions unit unit) (t : Trader)
  : option (outcome TradeResult * Trader) :=
  Some (Return empty_result, t).

Definition amm_sell (tokenAddr : string) (total : Z) (o : TradeOptions unit unit)
  : M TradeResult :=
  ret empty_result.

Definition fresh : Trader :=
  {| globalState := None; tokenProgramCache := ∅; history := [] |}.

Definition token2022 : TokenProgram :=
  {| type := "TOKEN_2022_PROGRAM_ID"; programId := TOKEN_2022_PROGRAM_ID |}.

(** An open curve with empty reserves. *)
Definition open_ledger (h : list RpcCall) (address : PublicKey)
  : outcome (option (list byte)) :=
  if bn address =? 1 then Return (Some global_data)
  else Return (Some (replicate 130 x00 ++ [x01])).

Definition runtime_on (ledger : list RpcCall -> PublicKey -> outcome (option (list byte)))
  : Runtime unit unit :=
  {| bs58_decode := decode;
     findProgramAddressSync := derive;
     PUMP := program;
     getMint := mints;
     getAccountInfo := ledger;
     submit := send;
     ammBuy := amm_buy;
     ammSell := amm_sell |}.

(** The trader after each of the reads of a trade on the completed curve. *)
Definition after_detect : Trader :=
  snd (detectTokenProgram (runtime_on completed_ledger) "mint" fresh).

Definition after_global : Trader :=
  snd (loadGlobal_if_missing (runtime_on completed_ledger) after_detect).

Definition after_bonding : Trader :=
  snd (loadBonding (runtime_on completed_ledger) mintA after_global).

End Samples.

(** ** More of the engine: encoded arguments, account records, the cache *)

(** *** Reads of the account parsers *)

(** [buf.readUInt8(offset)], [buf.readUInt16LE(offset)] and
    [buf.readUInt32LE(offset)]: like [readBigUInt64LE] on one, two and four
    bytes. *)
Definition readUInt8 (buf : list byte) (offset : nat) : outcome Z :=
  if (offset + 1 <=? length buf)%nat
  then Return (le_value (slice buf offset (offset + 1)))
  else Throw (RangeError "ERR_OUT_OF_RANGE").

Definition readUInt16LE (buf : list byte) (offset : nat) : outcome Z :=
  if (offset + 2 <=? length buf)%nat
  then Return (le_value (slice buf offset (offset + 2)))
  else Throw (RangeError "ERR_OUT_OF_RANGE").

Definition readUInt32LE (buf : list byte) (offset : nat) : outcome Z :=
  if (offset + 4 <=? length buf)%nat
  then Return (le_value (slice buf offset (offset + 4)))
  else Throw (RangeError "ERR_OUT_OF_RANGE").

(** *** Encoded arguments *)

Module Wire.

(** The [u64] helper: [new BN(v.toString()).toArrayLike(Buffer, "le", 8)].
    bn.js writes the magnitude of the number, least significant byte first,
    and fails its assertion when the magnitude needs more than eight bytes. *)
Definition u64 (v : Z) : outcome (list byte) :=
  let magnitude := Z.abs v in
  if 2 ^ 64 <=? magnitude then Throw (Error "byte array longer than desired length")
  else Return (le_bytes 8 magnitude).

End Wire.

Definition DISCRIMINATOR_BUY : list byte := [x66; x06; x3d; x12; x01; xda; xeb; xea].
Definition DISCRIMINATOR_SELL : list byte := [x33; xe6; x85; xa4; x01; x7f; x83; xad].

(** The spend bound of a curve buy and the receipt bound of a curve sell, for
    the slippage [slippageBps] (a Number holding an integer, as [BigInt]
    requires): [(solIn * BigInt(10_000 + slippageBps)) / 10_000n] and
    [(solOut * BigInt(10_000 - slippageBps)) / 10_000n]. *)
Definition maxSol (solIn slippageBps : Z) : outcome Z :=
  bigint_div (solIn * BigInt (10000 + slippageBps)) 10000.

Definition minSol (solOut slippageBps : Z) : outcome Z :=
  bigint_div (solOut * BigInt (10000 - slippageBps)) 10000.

(** The [data] of the curve buy instruction:
    [Buffer.concat([DISCRIMINATORS.BUY, u64(tokenOut), u64(maxSol)])]. *)
Definition buy_data (tokenOut maxSol : Z) : outcome (list byte) :=
  let* amount := Wire.u64 tokenOut in
  let* bound := Wire.u64 maxSol in
  Return (DISCRIMINATOR_BUY ++ amount ++ bound).

(** The [data] of the curve sell instruction:
    [Buffer.concat([DISCRIMINATORS.SELL, u64(tokenIn),
                    u64(minSol > 0n ? minSol : 1n)])]. *)
Definition sell_data (tokenIn minSol : Z) : outcome (list byte) :=
  let* amount := Wire.u64 tokenIn in
  let* bound := Wire.u64 (if 0 <? minSol then minSol else 1) in
  Return (DISCRIMINATOR_SELL ++ amount ++ bound).

(** The [data] of [createAmmBuyInstruction], with its two trailing bytes, and
    of [createAmmSellInstruction]. *)
Definition amm_buy_data (baseAmountOut maxQuoteAmountIn : Z) : outcome (list byte) :=
  let* amount := Wire.u64 baseAmountOut in
  let* bound := Wire.u64 maxQuoteAmountIn in
  Return (DISCRIMINATOR_BUY ++ amount ++ bound ++ [x01; x01]).

Definition amm_sell_data (baseAmountIn minQuoteAmountOut : Z) : outcome (list byte) :=
  let* amount := Wire.u64 baseAmountIn in
  let* bound := Wire.u64 (if 0 <? minQuoteAmountOut then minQuoteAmountOut else 1) in
  Return (DISCRIMINATOR_SELL ++ amount ++ bound).

(** *** Account records *)

Record PoolKeys : Type := {
  creator : PublicKey;
  baseMint : PublicKey;
  quoteMint : PublicKey;
  lpMint : PublicKey;
  poolBaseTokenAccount : PublicKey;
  poolQuoteTokenAccount : PublicKey;
  coinCreator : PublicKey;
  isMayhemMode : bool
}.

(** [parsePoolKeys(data)]; [None] is a missing [data]. *)
Definition parsePoolKeys (data : option (list byte)) : outcome PoolKeys :=
  match data with
  | None => Throw (Error "Invalid pool account data")
  | Some data =>
      if (length data <? 280)%nat then Throw (Error "Invalid pool account data")
      else
        let offset := 8%nat in
        let* poolBump := readUInt8 data offset in
        let offset := (offset + 1)%nat in
        let* index := readUInt16LE data offset in
        let offset := (offset + 2)%nat in
        let* creator := PublicKey_of_bytes (slice data offset (offset + 32)) in
        let offset := (offset + 32)%nat in
        let* baseMint := PublicKey_of_bytes (slice data offset (offset + 32)) in
        let offset := (offset + 32)%nat in
        let* quoteMint := PublicKey_of_bytes (slice data offset (offset + 32)) in
        let offset := (offset + 32)%nat in
        let* lpMint := PublicKey_of_bytes (slice data offset (offset + 32)) in
        let offset := (offset + 32)%nat in
        let* poolBaseTokenAccount := PublicKey_of_bytes (slice data offset (offset + 32)) in
        let offset := (offset + 32)%nat in
        let* poolQuoteTokenAccount := PublicKey_of_bytes (slice data offset (offset + 32)) in
        let offset := (offset + 32)%nat in
        let* lpSupply := readBigUInt64LE data offset in
        let offset := (offset + 8)%nat in
        let* coinCreator := PublicKey_of_bytes (slice data offset (offset + 32)) in
        let offset := (offset + 32)%nat in
        let* mayhem := readUInt8 data offset in
        Return {| creator := creator;
                  baseMint := baseMint;
                  quoteMint := quoteMint;
                  lpMint := lpMint;
                  poolBaseTokenAccount := poolBaseTokenAccount;
                  poolQuoteTokenAccount := poolQuoteTokenAccount;
                  coinCreator := coinCreator;
                  isMayhemMode := mayhem =? 1 |}
  end.

Record AmmGlobalConfig : Type := {
  address : PublicKey;
  admin : PublicKey;
  protocolFeeRecipients : list PublicKey
}.

(** The [for (let i = 0; i < 8; i++)] loop of [parseAmmGlobalConfig], [iters]
    iterations from [offset] on. *)
Fixpoint protocolFeeRecipients_loop (iters : nat) (data : list byte) (offset : nat)
    (recipients : list PublicKey) : outcome (list PublicKey) :=
  match iters with
  | O => Return recipients
  | S iters' =>
      let* recipient := PublicKey_of_bytes (slice data offset (offset + 32)) in
      protocolFeeRecipients_loop iters' data (offset + 32) (recipients ++ [recipient])
  end.

Definition parseAmmGlobalConfig (data : list byte) (address : PublicKey)
  : outcome AmmGlobalConfig :=
  let offset := 8%nat in
  let* admin := PublicKey_of_bytes (slice data offset (offset + 32)) in
  let offset := (offset + 32)%nat in
  let offset := (offset + 8)%nat in
  let offset := (offset + 8)%nat in
  let offset := (offset + 1)%nat in
  let* protocolFeeRecipients := protocolFeeRecipients_loop 8 data offset [] in
  Return {| address := address; admin := admin;
            protocolFeeRecipients := protocolFeeRecipients |}.

Record Metadata : Type := {
  meta_updateAuthority : string;
  meta_mint : string;
  meta_name : string;
  meta_symbol : string;
  meta_uri : string
}.

Section ParseMetadata.

(** [buf.toString("utf8")] and [key.toBase58()]. *)
Variable utf8 : list byte -> string.
Variable toBase58 : PublicKey -> string.

(** [readU32(buf, offsetObj)] and [readString(buf, offsetObj)]: the offset
    object is threaded through, the value comes with the offset it leaves. *)
Definition readU32 (buf : list byte) (offset : nat) : outcome (Z * nat) :=
  let* value := readUInt32LE buf offset in
  Return (value, (offset + 4)%nat).

Definition readString (buf : list byte) (offset : nat) : outcome (string * nat) :=
  let* '(len, offset) := readU32 buf offset in
  let str := utf8 (slice buf offset (offset + Z.to_nat len)) in
  Return (str, (offset + Z.to_nat len)%nat).

Definition parseMetadataAccount (data : list byte) : outcome Metadata :=
  let offset := 1%nat in
  let* updateAuthority := PublicKey_of_bytes (slice data offset (offset + 32)) in
  let offset := (offset + 32)%nat in
  let* mint := PublicKey_of_bytes (slice data offset (offset + 32)) in
  let offset := (offset + 32)%nat in
  let* '(name, offset) := readString data offset in
  let* '(symbol, offset) := readString data offset in
  let* '(uri, offset) := readString data offset in
  Return {| meta_updateAuthority := toBase58 updateAuthority;
            meta_mint := toBase58 mint;
            meta_name := name;
            meta_symbol := symbol;
            meta_uri := uri |}.

End ParseMetadata.

(** *** The token-program cache *)

(** [clearTokenProgramCache(tokenAddr = null)]: [if (tokenAddr)] takes the
    empty string with [null]. *)
Definition clearTokenProgramCache (tokenAddr : option string) : M unit :=
  fun t =>
    (Return tt,
     {| globalState := globalState t;
        tokenProgramCache :=
          match tokenAddr with
          | Some key =>
              if String.eqb key "" then ∅ else delete key (tokenProgramCache t)
          | None => ∅
          end;
        history := history t |}).

(** [getCachedTokenProgram(tokenAddr)]; [None] is [undefined]. *)
Definition getCachedTokenProgram (tokenAddr : string) : M (option TokenProgram) :=
  fun t => (Return (tokenProgramCache t !! tokenAddr), t).

(** *** The plan of [ammSell] *)

(** The [totalSolOut] and [tokenChunks] constants of [ammSell]. *)
Definition ammTokenChunks (totalTokenIn maxSolPerTx : Z) (reserves : PoolReserves)
  : outcome (list Z) :=
  let* totalSolOut := calculateAmmSellOutput totalTokenIn reserves in
  if totalSolOut <=? maxSolPerTx then Return [totalTokenIn]
  else
    let* n := bigint_div (totalSolOut + maxSolPerTx - 1) maxSolPerTx in
    splitIntoN totalTokenIn (Number n).

(** ** Layouts

    The records of the ledger as their programs write them, to state that the
    decoders read back what was written. *)

Module Layout.

(** A bonding-curve account: the record tag, five unsigned 64-bit integers,
    the completion flag, the creator, and whatever follows. *)
Definition bonding_curve (tag : list byte) (state : BondingCurveState) (creator : PublicKey)
    (rest : list byte) : list byte :=
  tag ++ le_bytes 8 (virtualTokenReserves state) ++ le_bytes 8 (virtualSolReserves state)
  ++ le_bytes 8 (realTokenReserves state) ++ le_bytes 8 (realSolReserves state)
  ++ le_bytes 8 (tokenTotalSupply state)
  ++ [if complete state then x01 else x00] ++ toBuffer creator ++ rest.

(** A trade event in the log. *)
Definition trade_event (mint : PublicKey) (sol token : Z) (buy : bool) (trader : PublicKey)
    (time : Z) : list byte :=
  TRADE_EVENT ++ toBuffer mint ++ le_bytes 8 sol ++ le_bytes 8 token
  ++ [if buy then x01 else x00] ++ toBuffer trader ++ le_bytes 8 time.

(** A token-metadata account: the key byte, the update authority, the mint,
    and three strings, each behind the four bytes of its length. *)
Definition metadata_account (key : byte) (updateAuthority mint : PublicKey)
    (name symbol uri rest : list byte) : list byte :=
  [key] ++ toBuffer updateAuthority ++ toBuffer mint
  ++ le_bytes 4 (Z.of_nat (length name)) ++ name
  ++ le_bytes 4 (Z.of_nat (length symbol)) ++ symbol
  ++ le_bytes 4 (Z.of_nat (length uri)) ++ uri ++ rest.

(** The values a field holds. *)
Definition key_ok (key : PublicKey) : Prop := 0 <= bn key < 2 ^ 256.

Definition state_ok (state : BondingCurveState) : Prop :=
  u64 (virtualTokenReserves state) /\ u64 (virtualSolReserves state) /\
  u64 (realTokenReserves state) /\ u64 (realSolReserves state) /\
  u64 (tokenTotalSupply state).

Definition i64 (z : Z) : Prop := - 2 ^ 63 <= z < 2 ^ 63.

End Layout.

(** ** What a batch shows *)

Module View.

(** The indices a result lists, pending first. *)
Definition indices (result : TradeResult) : list nat :=
  map pending_index (pendingTransactions result)
  ++ map failed_index (failedTransactions result).

(** What a sub-order puts in, and under which index. *)
Definition stake (order : SubOrder) : nat * Z := (index order, amountIn order).

(** The amount out a sub-order carries is the quote of its own amount in on
    [state], by the formula of its side. *)
Definition quoted_on (state : BondingCurveState) (order : SubOrder) : Prop :=
  match side order with
  | Buy => calcBuy (amountIn order) state
  | Sell => calcSell (amountIn order) state
  end = Return (quotedOut order).

(** A ledger whose mint queries all fail. *)
Definition no_mints (h : list RpcCall) (mint : PublicKey) (p : TokenProgramId) : outcome unit :=
  Throw (Error "could not find mint").

Definition runtime_without_mints : Runtime unit unit :=
  {| bs58_decode := Samples.decode;
     findProgramAddressSync := Samples.derive;
     PUMP := Samples.program;
     getMint := no_mints;
     getAccountInfo := Samples.completed_ledger;
     submit := Samples.send;
     ammBuy := Samples.amm_buy;
     ammSell := Samples.amm_sell |}.

(** The trader after a detection on that ledger. *)
Definition after_failed_detect : Trader :=
  snd (detectTokenProgram runtime_without_mints "mint" Samples.fresh).

(** A trader that has one other address cached. *)
Definition with_other_cached : Trader :=
  {| globalState := None;
     tokenProgramCache := <["other" := Samples.token2022]> (tokenProgramCache Samples.after_detect);
     history := [] |}.

(** A ledger whose curve account holds [example_curve], still open. *)
Definition example_curve_data : list byte :=
  replicate 8 x00 ++ le_bytes 8 1000000000 ++ le_bytes 8 30000000000
  ++ le_bytes 8 0 ++ le_bytes 8 0 ++ le_bytes 8 1000000000 ++ [x00] ++ replicate 32 x00.

Definition example_ledger (h : list RpcCall) (address : PublicKey)
  : outcome (option (list byte)) :=
  if bn address =? 1 then Return (Some Samples.global_data)
  else Return (Some example_curve_data).

(** The trader after the checks of a trade on that ledger. *)
Definition after_checks : Trader :=
  snd (curve_checks (Samples.runtime_on example_ledger) "mint" Samples.fresh).

(** Options whose ceiling per transaction is zero. *)
Definition zero_ceiling : TradeOptions unit unit :=
  {| maxSolPerTx := 0; slippage := tt; priority := tt |}.

(** The number of reads of the curve account among the calls made. *)
Definition curve_reads (h : list RpcCall) : nat :=
  length (List.filter (fun call => match call with
                                   | RpcGetAccountInfo address => bn address =? 2
                                   | _ => false
                                   end) h).

(** A ledger on which the curve completes after its account was read once. *)
Definition racing_ledger (h : list RpcCall) (address : PublicKey)
  : outcome (option (list byte)) :=
  if bn address =? 1 then Return (Some Samples.global_data)
  else if (curve_reads h =? 0)%nat then Return (Some example_curve_data)
       else Return (Some Samples.completed_curve_data).

(** The trader after the mode check on that ledger, and after the checks of
    the trade that follows. *)
Definition after_mode : Trader :=
  snd (getTradeMode (Samples.runtime_on racing_ledger) "mint" Samples.fresh).

Definition after_race : Trader :=
  snd (curve_checks (Samples.runtime_on racing_ledger) "mint" after_mode).

End View.

(** ** What a poll shows *)

Module Watch.

(** The calls of one attempt, in their order: the wait, then the status
    query, then the height query when there is one. *)
Definition attempt_calls (delayMs : Z) (signature : string) (calls : list PollCall) : Prop :=
  calls = [Delay delayMs; GetTransaction signature] \/
  calls = [Delay delayMs; GetTransaction signature; GetBlockHeight].

(** A source that fails its first status query and its height queries, and
    at the third attempt finds the transaction failed. *)
Definition flaky_then_rejected : StatusSource :=
  {| getTransaction := fun k =>
       match k with
       | 1%nat => Throw (Error "fetch failed")
       | 2%nat => Return None
       | _ => Return (Some {| meta := Some {| err := Some "{}" |} |})
       end;
     getBlockHeight := fun _ => Throw (Error "429 Too Many Requests") |}.

(** A source that finds the transaction with the error field zero. *)
Definition zero_error_source : StatusSource :=
  {| getTransaction := fun _ => Return (Some {| meta := Some {| err := Some "0" |} |});
     getBlockHeight := fun _ => Return 0 |}.

(** A source whose queries fail with an error that quotes the poller's own
    rejection message. *)
Definition quoting_source : StatusSource :=
  {| getTransaction := fun _ => Throw (Error "upstream said: 交易失败: {}");
     getBlockHeight := fun _ => Return 0 |}.

(** A source whose node is down. *)
Definition unreachable_source : StatusSource :=
  {| getTransaction := fun _ => Throw (Error "fetch failed");
     getBlockHeight := fun _ => Throw (Error "fetch failed") |}.

End Watch.

(** ** What a message carries *)

Module Feed.

(** A trade as the program logs it. *)
Record Trade : Type := {
  trade_mint : PublicKey;
  trade_sol : Z;
  trade_token : Z;
  trade_buy : bool;
  trade_user : PublicKey;
  trade_time : Z
}.

Definition bytes_of (tr : Trade) : list byte :=
  Layout.trade_event (trade_mint tr) (trade_sol tr) (trade_token tr) (trade_buy tr)
    (trade_user tr) (trade_time tr).

(** The values the fields of a logged trade hold; the time is a count of
    seconds, far below 2^53. *)
Definition trade_ok (tr : Trade) : Prop :=
  Layout.key_ok (trade_mint tr) /\ u64 (trade_sol tr) /\ u64 (trade_token tr) /\
  Layout.key_ok (trade_user tr) /\ Z.abs (trade_time tr) < 2 ^ 53.

(** The filter lets a trade through. *)
Definition passes (mintFilter : option PublicKey) (tr : Trade) : bool :=
  match mintFilter with
  | Some wanted => equals (trade_mint tr) wanted
  | None => true
  end.

(** The trades of a message before the first one the filter does not let
    through. *)
Fixpoint before_first_stop (mintFilter : option PublicKey) (trades : list Trade)
  : list Trade :=
  match trades with
  | [] => []
  | tr :: rest =>
      if passes mintFilter tr then tr :: before_first_stop mintFilter rest else []
  end.

Section Lines.

Variable base64 : string -> list byte.
Variable toBase58 : PublicKey -> string.

Definition payload (logLine : string) : list byte :=
  base64 (replace "Program data: " "" logLine).

(** What a log line shows: a trade, when it is a data line that begins with
    the bytes of one, and nothing, when it is no data line or carries another
    tag. *)
Definition shows (logLine : string) (shown : option Trade) : Prop :=
  match shown with
  | Some tr =>
      startsWith "Program data: " logLine = true /\ trade_ok tr /\
      exists rest : list byte, payload logLine = bytes_of tr ++ rest
  | None =>
      startsWith "Program data: " logLine = false \/
      Buffer_equals (slice (payload logLine) 0 8) TRADE_EVENT = false
  end.

(** The event the callback is to receive for a trade. *)
Definition event_of (signature : string) (tr : Trade) : TradeEvent :=
  {| event_mint := toBase58 (trade_mint tr);
     solAmount := trade_sol tr;
     tokenAmount := trade_token tr;
     isBuy := trade_buy tr;
     user := toBase58 (trade_user tr);
     timestamp := trade_time tr;
     event_signature := signature |}.

End Lines.

(** The trades of the two sample lines. *)
Definition tradeA : Trade :=
  {| trade_mint := Samples.mintA; trade_sol := 100000000; trade_token := 3322260;
     trade_buy := true; trade_user := {| bn := 7 |}; trade_time := 1700000000 |}.

Definition tradeB : Trade :=
  {| trade_mint := Samples.mintB; trade_sol := 100000000; trade_token := 3322260;
     trade_buy := true; trade_user := {| bn := 7 |}; trade_time := 1700000000 |}.

End Feed.

(** * Part II: the facts *)

Import Spec Samples.

(** ** JavaScript values *)

Lemma bigint_div_floor (a b : Z) :
  0 <= a -> 0 < b -> bigint_div a b = Return (a / b).
Proof.
  intros Ha Hb. unfold bigint_div.
  destruct (Z.eqb_spec b 0) as [->|_]; [lia|].
  now rewrite Z.quot_div_nonneg by lia.
Qed.

Lemma bigint_div_zero (a : Z) : bigint_div a 0 = Throw (RangeError "Division by zero").
Proof. reflexivity. Qed.

Lemma Number_exact (b : Z) : Z.abs b < 2 ^ 53 -> Number b = b.
Proof.
  intros Hb. unfold Number.
  destruct (Z.ltb_spec (Z.abs b) (2 ^ 53)); [reflexivity|lia].
Qed.

Lemma prefix_append (pat s : string) : String.prefix pat (pat +:+ s) = true.
Proof.
  induction pat as [|c pat IH]; simpl; [now destruct s|].
  destruct (ascii_dec c c); [exact IH|congruence].
Qed.

Lemma includes_prefix (pat s : string) : String.prefix pat s = true -> includes pat s = true.
Proof. intros H. destruct s; unfold includes; fold includes; rewrite H; reflexivity. Qed.

Lemma includes_skip (pat a s : string) : includes pat s = true -> includes pat (a +:+ s) = true.
Proof.
  intros H. induction a as [|c a IH]; [exact H|].
  change (String c a +:+ s) with (String c (a +:+ s)).
  simpl. rewrite IH. apply orb_true_r.
Qed.

Lemma includes_append (pat a b : string) : includes pat (a +:+ pat +:+ b) = true.
Proof. apply includes_skip, includes_prefix, prefix_append. Qed.

Lemma byte_value_bounds (b : byte) : 0 <= byte_value b < 256.
Proof.
  unfold byte_value. pose proof (Byte.to_N_bounded b). lia.
Qed.

Lemma le_value_bounds (bytes : list byte) : 0 <= le_value bytes < 256 ^ Z.of_nat (length bytes).
Proof.
  induction bytes as [|b bytes IH]; [simpl; lia|].
  cbn [le_value length]. rewrite Nat2Z.inj_succ, Z.pow_succ_r by lia.
  pose proof (byte_value_bounds b). nia.
Qed.

Lemma readBigUInt64LE_u64 (buf : list byte) (offset : nat) (v : Z) :
  readBigUInt64LE buf offset = Return v -> u64 v.
Proof.
  unfold readBigUInt64LE, slice.
  destruct (offset + 8 <=? length buf)%nat eqn:E; [|discriminate].
  intros [= <-]. apply Nat.leb_le in E.
  pose proof (le_value_bounds (take (offset + 8 - offset) (drop offset buf))) as H.
  rewrite length_take, length_drop in H.
  replace (Z.of_nat ((offset + 8 - offset) `min` (length buf - offset))) with 8 in H by lia.
  unfold u64. change (256 ^ 8) with (2 ^ 64) in H. exact H.
Qed.

Lemma readBigUInt64LE_short (buf : list byte) (offset : nat) :
  (length buf < offset + 8)%nat -> readBigUInt64LE buf offset = Throw (RangeError "ERR_OUT_OF_RANGE").
Proof.
  intros H. unfold readBigUInt64LE.
  destruct (Nat.leb_spec (offset + 8) (length buf)); [lia|reflexivity].
Qed.

(** A slice of at most 32 bytes always is a public key. *)
Lemma PublicKey_of_bytes_slice (buf : list byte) (start : nat) :
  exists key, PublicKey_of_bytes (slice buf start (start + 32)) = Return key.
Proof.
  unfold PublicKey_of_bytes, be_value, slice.
  set (bytes := take (start + 32 - start) (drop start buf)).
  pose proof (le_value_bounds (rev bytes)) as H.
  assert (Hlen : (length (rev bytes) <= 32)%nat)
    by (rewrite length_rev; unfold bytes; rewrite length_take; lia).
  assert (256 ^ Z.of_nat (length (rev bytes)) <= 256 ^ 32)
    by (apply Z.pow_le_mono_r; lia).
  change (256 ^ 32) with (2 ^ 256) in *.
  destruct (Z.leb_spec (2 ^ 256) (le_value (rev bytes))); [lia|].
  eexists. reflexivity.
Qed.

(** ** The pricing formulas *)

Module Pricing.

Example calcBuy_example : calcBuy 100000000 example_curve = Return 3322260.
Proof. reflexivity. Qed.

Example calcSell_example : calcSell 3322260 example_curve_after_buy = Return 100000026.
Proof. reflexivity. Qed.

Example calcBuy_empty_pot : calcBuy 0 {| virtualTokenReserves := 5; virtualSolReserves := 0;
    realTokenReserves := 0; realSolReserves := 0; tokenTotalSupply := 0; complete := false |}
  = Throw (RangeError "Division by zero").
Proof. reflexivity. Qed.

Lemma calcBuy_eq (st : BondingCurveState) (x : Z) :
  0 <= virtualSolReserves st -> 0 <= virtualTokenReserves st -> 0 < virtualSolReserves st + x ->
  calcBuy x st =
    Return (virtualTokenReserves st
            - virtualSolReserves st * virtualTokenReserves st / (virtualSolReserves st + x)).
Proof.
  intros Hb Ht Hx. unfold calcBuy.
  rewrite bigint_div_floor by nia. reflexivity.
Qed.

Lemma calcSell_eq (st : BondingCurveState) (y : Z) :
  0 <= virtualSolReserves st -> 0 <= virtualTokenReserves st -> 0 < virtualTokenReserves st + y ->
  calcSell y st =
    Return (virtualSolReserves st
            - virtualSolReserves st * virtualTokenReserves st / (virtualTokenReserves st + y)).
Proof.
  intros Hb Ht Hy. unfold calcSell.
  rewrite bigint_div_floor by nia. reflexivity.
Qed.

(** Floor division of a product that does not exceed [b * t]. *)
Lemma floor_product_le (p b t : Z) : 0 < t -> p <= b * t -> p / t <= b.
Proof.
  intros Ht Hp.
  replace b with (b * t / t) by (apply Z.div_mul; lia).
  apply Z.div_le_mono; lia.
Qed.

Lemma floor_reaches_iff (p b t : Z) : 0 < t -> (b <= p / t <-> b * t <= p).
Proof.
  intros Ht. split; intros H.
  - pose proof (Z.mul_div_le p t Ht). nia.
  - apply Z.div_le_lower_bound; lia.
Qed.

(** C1 (as amended): on positive virtual reserves and a positive input [x],
    buying with [x], moving the reserves to [Vb + x] and
    [floor (Vb * Vt / (Vb + x))], and selling the bought tokens against the
    moved reserves, returns at least [x]; it returns exactly [x] precisely when
    the division of the buy left no remainder. *)
Theorem calcBuy_then_calcSell_returns_at_least (st st' : BondingCurveState) (x : Z) :
  0 < virtualSolReserves st -> 0 < virtualTokenReserves st -> 0 < x ->
  virtualSolReserves st' = virtualSolReserves st + x ->
  virtualTokenReserves st' =
    virtualSolReserves st * virtualTokenReserves st / (virtualSolReserves st + x) ->
  exists tokenOut solBack : Z,
    calcBuy x st = Return tokenOut /\
    calcSell tokenOut st' = Return solBack /\
    x <= solBack /\
    (solBack = x <->
     (virtualSolReserves st * virtualTokenReserves st) mod (virtualSolReserves st + x) = 0).
Proof.
  intros Hb Ht Hx Hb' Ht'.
  set (Vb := virtualSolReserves st) in *. set (Vt := virtualTokenReserves st) in *.
  set (V' := Vb * Vt / (Vb + x)) in *.
  assert (HV' : 0 <= V') by (apply Z.div_pos; nia).
  assert (Hle : (Vb + x) * V' <= Vb * Vt) by (apply Z.mul_div_le; lia).
  assert (Hmod : Vb * Vt = (Vb + x) * V' + (Vb * Vt) mod (Vb + x))
    by (apply Z.div_mod; lia).
  assert (Hrem : 0 <= (Vb * Vt) mod (Vb + x)) by (apply Z.mod_pos_bound; lia).
  exists (Vt - V'), (Vb + x - (Vb + x) * V' / Vt).
  split; [apply calcBuy_eq; fold Vb Vt; lia|].
  split.
  { rewrite calcSell_eq by (rewrite ?Hb', ?Ht'; lia).
    rewrite Hb', Ht'. do 3 f_equal. lia. }
  pose proof (floor_product_le ((Vb + x) * V') Vb Vt Ht Hle) as Hq.
  pose proof (floor_reaches_iff ((Vb + x) * V') Vb Vt Ht) as Hiff.
  split; [lia|]. split; intros H.
  - assert (Vb <= (Vb + x) * V' / Vt) by lia. apply Hiff in H0. lia.
  - assert (Vb <= (Vb + x) * V' / Vt) by (apply Hiff; lia). lia.
Qed.

Lemma calcBuy_then_calcSell_returns_at_least_witness :
  exists tokenOut solBack : Z,
    calcBuy 100000000 example_curve = Return tokenOut /\
    calcSell tokenOut example_curve_after_buy = Return solBack /\
    100000000 <= solBack /\
    (solBack = 100000000 <-> (30000000000 * 1000000000) mod (30000000000 + 100000000) = 0).
Proof.
  apply (calcBuy_then_calcSell_returns_at_least example_curve example_curve_after_buy 100000000);
    reflexivity.
Defined.

(** C1 as stated fails: on the specification's own example state the round
    trip of 100_000_000 lamports returns 100_000_026, which is more than was
    spent. *)
Lemma calcBuy_then_calcSell_returns_more :
  calcBuy 100000000 example_curve = Return 3322260 /\
  virtualSolReserves example_curve_after_buy = virtualSolReserves example_curve + 100000000 /\
  virtualTokenReserves example_curve_after_buy =
    virtualSolReserves example_curve * virtualTokenReserves example_curve
    / (virtualSolReserves example_curve + 100000000) /\
  calcSell 3322260 example_curve_after_buy = Return 100000026 /\
  100000000 < 100000026.
Proof. repeat split. Qed.

(** C2 (as amended): on non-negative virtual reserves and a positive input the
    bought amount never exceeds the virtual token reserves, and it is strictly
    below them exactly when [Vb + x <= Vb * Vt], that is when the new token
    reserve [floor (Vb * Vt / (Vb + x))] does not truncate to zero. *)
Theorem calcBuy_bounded_by_virtualToken (st : BondingCurveState) (x : Z) :
  0 <= virtualSolReserves st -> 0 <= virtualTokenReserves st -> 0 < x ->
  exists tokenOut : Z,
    calcBuy x st = Return tokenOut /\
    tokenOut <= virtualTokenReserves st /\
    (tokenOut < virtualTokenReserves st <->
     virtualSolReserves st + x <= virtualSolReserves st * virtualTokenReserves st).
Proof.
  intros Hb Ht Hx.
  set (Vb := virtualSolReserves st) in *. set (Vt := virtualTokenReserves st) in *.
  exists (Vt - Vb * Vt / (Vb + x)).
  split; [apply calcBuy_eq; fold Vb Vt; lia|].
  assert (H0 : 0 <= Vb * Vt / (Vb + x)) by (apply Z.div_pos; nia).
  split; [lia|].
  pose proof (floor_reaches_iff (Vb * Vt) 1 (Vb + x) ltac:(lia)) as Hiff.
  split; intros H.
  - assert (1 <= Vb * Vt / (Vb + x)) by lia. apply Hiff in H1. lia.
  - assert (1 <= Vb * Vt / (Vb + x)) by (apply Hiff; lia). lia.
Qed.

Lemma calcBuy_bounded_by_virtualToken_witness :
  exists tokenOut : Z,
    calcBuy 100000000 example_curve = Return tokenOut /\
    tokenOut <= virtualTokenReserves example_curve /\
    (tokenOut < virtualTokenReserves example_curve <->
     virtualSolReserves example_curve + 100000000
     <= virtualSolReserves example_curve * virtualTokenReserves example_curve).
Proof.
  apply (calcBuy_bounded_by_virtualToken example_curve 100000000); simpl; lia.
Defined.

(** C2 as stated fails: one lamport against the unit curve buys the whole
    virtual token reserve, not strictly less. *)
Lemma calcBuy_drains_unit_curve :
  0 < 1 /\ calcBuy 1 unit_curve = Return (virtualTokenReserves unit_curve).
Proof. split; reflexivity. Qed.

(** C7: on unsigned reserves and input with a non-zero new reserve [Vb + x],
    [calcBuy] is [Vt - floor (Vb * Vt / (Vb + x))] in exact integer arithmetic;
    on the example state a buy of 100_000_000 lamports yields exactly
    [1_000_000_000 - floor (30_000_000_000 * 1_000_000_000 / 30_100_000_000)],
    which is 3_322_260. *)
Theorem calcBuy_constant_product (st : BondingCurveState) (x : Z) :
  0 <= virtualSolReserves st -> 0 <= virtualTokenReserves st -> 0 <= x ->
  0 < virtualSolReserves st + x ->
  calcBuy x st =
    Return (virtualTokenReserves st
            - virtualSolReserves st * virtualTokenReserves st / (virtualSolReserves st + x)) /\
  calcBuy 100000000 example_curve
    = Return (1000000000 - 30000000000 * 1000000000 / 30100000000) /\
  1000000000 - 30000000000 * 1000000000 / 30100000000 = 3322260.
Proof.
  intros Hb Ht Hx Hn. split; [now apply calcBuy_eq|]. split; reflexivity.
Qed.

Lemma calcBuy_constant_product_witness :
  calcBuy 7 unit_curve = Return (1 - 1 * 1 / (1 + 7)) /\
  calcBuy 100000000 example_curve
    = Return (1000000000 - 30000000000 * 1000000000 / 30100000000) /\
  1000000000 - 30000000000 * 1000000000 / 30100000000 = 3322260.
Proof.
  apply (calcBuy_constant_product unit_curve 7); simpl; lia.
Defined.

Lemma calculateAmmBuyOutput_eq (r : PoolReserves) (q : Z) :
  0 <= baseAmount r -> 0 <= quoteAmount r -> 0 <= q ->
  0 < quoteAmount r + q * 9900 / 10000 ->
  calculateAmmBuyOutput q r =
    Return (baseAmount r * (q * 9900 / 10000) / (quoteAmount r + q * 9900 / 10000)).
Proof.
  intros Hb Hq Hx Hn. unfold calculateAmmBuyOutput, BPS_DENOMINATOR, AMM_FEE_BPS.
  change (10000 - 100) with 9900.
  rewrite bigint_div_floor by lia. cbn [obind].
  assert (0 <= q * 9900 / 10000) by (apply Z.div_pos; lia).
  rewrite bigint_div_floor by nia. reflexivity.
Qed.

(** C8: [calculateAmmBuyOutput] first takes the 100-of-10000 basis-point fee
    off the quote input, [q' = floor (q * 9900 / 10000)], and then applies the
    constant-product formula [floor (base * q' / (quote + q'))]; on reserves
    base = 500_000, quote = 10_000_000 and input 1_000_000 the fee leaves
    990_000 and the output is [floor (500_000 * 990_000 / 10_990_000)],
    which is 45_040. *)
Theorem calculateAmmBuyOutput_fee_then_product (r : PoolReserves) (q : Z) :
  0 <= baseAmount r -> 0 <= quoteAmount r -> 0 <= q ->
  0 < quoteAmount r + q * 9900 / 10000 ->
  (BPS_DENOMINATOR - AMM_FEE_BPS = 9900 /\ BPS_DENOMINATOR = 10000) /\
  calculateAmmBuyOutput q r =
    Return (baseAmount r * (q * 9900 / 10000) / (quoteAmount r + q * 9900 / 10000)) /\
  1000000 * 9900 / 10000 = 990000 /\
  calculateAmmBuyOutput 1000000 example_pool = Return (500000 * 990000 / 10990000) /\
  500000 * 990000 / 10990000 = 45040.
Proof.
  intros Hb Hq Hx Hn. split; [split; reflexivity|].
  split; [now apply calculateAmmBuyOutput_eq|]. repeat split.
Qed.

Lemma calculateAmmBuyOutput_fee_then_product_witness :
  (BPS_DENOMINATOR - AMM_FEE_BPS = 9900 /\ BPS_DENOMINATOR = 10000) /\
  calculateAmmBuyOutput 250 example_pool =
    Return (baseAmount example_pool * (250 * 9900 / 10000)
            / (quoteAmount example_pool + 250 * 9900 / 10000)) /\
  1000000 * 9900 / 10000 = 990000 /\
  calculateAmmBuyOutput 1000000 example_pool = Return (500000 * 990000 / 10990000) /\
  500000 * 990000 / 10990000 = 45040.
Proof.
  apply (calculateAmmBuyOutput_fee_then_product example_pool 250); vm_compute; easy.
Defined.

End Pricing.

(** ** The order planner *)

Module Planner.

Lemma sum_app (l k : list Z) : plan_sum (l ++ k) = plan_sum l + plan_sum k.
Proof. unfold plan_sum. induction l as [|c l IH]; simpl; lia. Qed.

Lemma sum_replicate (c : Z) (n : nat) : plan_sum (replicate n c) = Z.of_nat n * c.
Proof. unfold plan_sum. induction n as [|n IH]; simpl replicate; simpl foldr; lia. Qed.

Lemma ceil_div_bounds (a b : Z) :
  0 < b -> b * (ceil_div a b - 1) < a <= b * ceil_div a b.
Proof.
  intros Hb. unfold ceil_div.
  pose proof (Z.div_mod (- a) b ltac:(lia)).
  pose proof (Z.mod_pos_bound (- a) b Hb). nia.
Qed.

Lemma ceil_div_unique (a b n : Z) :
  0 < b -> b * (n - 1) < a <= b * n -> ceil_div a b = n.
Proof.
  intros Hb Hn. pose proof (ceil_div_bounds a b Hb). nia.
Qed.

Lemma ceil_div_round_up (a b : Z) : 0 < b -> (a + b - 1) / b = ceil_div a b.
Proof.
  intros Hb. symmetry. apply ceil_div_unique; [exact Hb|].
  pose proof (Z.div_mod (a + b - 1) b ltac:(lia)).
  pose proof (Z.mod_pos_bound (a + b - 1) b Hb). nia.
Qed.

Example splitByMax_7_3 : splitByMax 4 7 3 = Some [3; 3; 1].
Proof. reflexivity. Qed.

Example splitByMax_short_of_fuel : splitByMax 3 7 3 = None.
Proof. reflexivity. Qed.

Example splitIntoN_10_3 : splitIntoN 10 3 = Return [3; 3; 4].
Proof. reflexivity. Qed.

Example splitIntoN_zero_parts : splitIntoN 10 0 = Throw (RangeError "Division by zero").
Proof. reflexivity. Qed.

(** Under a ceiling of zero the loop condition never fails: no fuel sees the
    loop through. *)
Lemma splitByMax_loop_diverges (fuel : nat) (max remaining : Z) (chunks : list Z) :
  max <= 0 -> 0 < remaining -> splitByMax_loop fuel max remaining chunks = None.
Proof.
  intros Hmax. revert remaining chunks.
  induction fuel as [|fuel IH]; intros remaining chunks Hrem; simpl; [reflexivity|].
  destruct (Z.ltb_spec 0 remaining); [|lia].
  destruct (Z.ltb_spec max remaining); [|lia].
  apply IH. lia.
Qed.

(** The loop invariant of [splitByMax]: with fuel beyond the number of chunks
    still to cut, the loop returns the chunks cut so far followed by chunks
    that plan_sum to [remaining], stay within [(0, max]] and number
    [ceil (remaining / max)]. *)
Lemma splitByMax_loop_spec (max : Z) (Hmax : 0 < max) (fuel : nat) :
  forall (remaining : Z) (chunks : list Z),
    0 <= remaining -> ceil_div remaining max < Z.of_nat fuel ->
    exists rest : list Z,
      splitByMax_loop fuel max remaining chunks = Some (chunks ++ rest) /\
      plan_sum rest = remaining /\
      Forall (fun c => 0 < c <= max) rest /\
      Z.of_nat (length rest) = ceil_div remaining max.
Proof.
  induction fuel as [|fuel IH]; intros remaining chunks Hrem Hfuel.
  - pose proof (ceil_div_bounds remaining max Hmax). nia.
  - simpl. destruct (Z.ltb_spec 0 remaining) as [Hpos|Hzero].
    + pose proof (ceil_div_bounds remaining max Hmax) as Hc.
      destruct (Z.ltb_spec max remaining) as [Hbig|Hsmall].
      * assert (Hstep : ceil_div (remaining - max) max = ceil_div remaining max - 1)
          by (apply ceil_div_unique; [exact Hmax|lia]).
        destruct (IH (remaining - max) (chunks ++ [max])) as (rest & Hrun & Hsum & Hall & Hlen);
          [lia|lia|].
        exists (max :: rest). rewrite Hrun, <- app_assoc. split; [reflexivity|].
        split; [unfold plan_sum in *; simpl; lia|].
        split; [constructor; [lia|exact Hall]|].
        simpl length. lia.
      * assert (Hone : ceil_div remaining max = 1)
          by (apply ceil_div_unique; [exact Hmax|lia]).
        replace (remaining - remaining) with 0 by lia.
        destruct fuel as [|fuel]; [lia|]. simpl.
        exists [remaining]. split; [reflexivity|].
        split; [unfold plan_sum; simpl; lia|].
        split; [repeat constructor; lia|]. simpl. lia.
    + assert (remaining = 0) by lia. subst remaining.
      exists []. rewrite app_nil_r. split; [reflexivity|].
      split; [reflexivity|]. split; [constructor|]. reflexivity.
Qed.

Lemma splitByMax_loop_more_fuel (max : Z) (fuel : nat) :
  forall (fuel' : nat) (remaining : Z) (chunks result : list Z),
    (fuel <= fuel')%nat ->
    splitByMax_loop fuel max remaining chunks = Some result ->
    splitByMax_loop fuel' max remaining chunks = Some result.
Proof.
  induction fuel as [|fuel IH]; intros fuel' remaining chunks result Hle Hrun;
    [discriminate|].
  destruct fuel' as [|fuel']; [lia|]. simpl in *.
  destruct (0 <? remaining); [|exact Hrun].
  apply IH; [lia|exact Hrun].
Qed.

(** C6: for a non-negative total and a positive ceiling [splitByMax] returns
    (on any fuel beyond the number of chunks) a list of chunks that sums to the
    total exactly, whose every chunk is at most the ceiling, and whose length is
    [ceil (total / max)]. *)
Theorem splitByMax_sum_bound_count (total max : Z) :
  0 <= total -> 0 < max ->
  exists chunks : list Z,
    (forall fuel : nat,
        ceil_div total max < Z.of_nat fuel -> splitByMax fuel total max = Some chunks) /\
    plan_sum chunks = total /\
    Forall (fun c => c <= max) chunks /\
    Z.of_nat (length chunks) = ceil_div total max.
Proof.
  intros Htotal Hmax.
  pose proof (ceil_div_bounds total max Hmax) as Hc.
  destruct (splitByMax_loop_spec max Hmax (S (Z.to_nat (ceil_div total max))) total [])
    as (chunks & Hrun & Hsum & Hall & Hlen); [lia|lia|].
  exists chunks. split; [|split; [exact Hsum|split; [|exact Hlen]]].
  - intros fuel Hfuel. unfold splitByMax.
    apply (splitByMax_loop_more_fuel max (S (Z.to_nat (ceil_div total max)))); [lia|].
    exact Hrun.
  - eapply Forall_impl; [exact Hall|]. intros c Hc'. simpl in Hc'. lia.
Qed.

Lemma splitByMax_sum_bound_count_witness :
  exists chunks : list Z,
    (forall fuel : nat,
        ceil_div 7 3 < Z.of_nat fuel -> splitByMax fuel 7 3 = Some chunks) /\
    plan_sum chunks = 7 /\
    Forall (fun c => c <= 3) chunks /\
    Z.of_nat (length chunks) = ceil_div 7 3.
Proof. apply (splitByMax_sum_bound_count 7 3); lia. Defined.

(** The loop invariant of [splitIntoN]: the iterations before the last push
    [part], the last one pushes what remains. *)
Lemma splitIntoN_loop_spec (n part : Z) (iters : nat) :
  forall (i remaining : Z) (chunks : list Z),
    i + Z.of_nat (S iters) = n ->
    splitIntoN_loop (S iters) i n part remaining chunks
    = chunks ++ replicate iters part ++ [remaining - Z.of_nat iters * part].
Proof.
  induction iters as [|iters IH]; intros i remaining chunks Hi.
  - simpl. destruct (Z.eqb_spec i (n - 1)); [|lia].
    do 2 f_equal. lia.
  - change (splitIntoN_loop (S (S iters)) i n part remaining chunks)
      with (splitIntoN_loop (S iters) (i + 1) n part
              (remaining - (if i =? n - 1 then remaining else part))
              (chunks ++ [if i =? n - 1 then remaining else part])).
    destruct (Z.eqb_spec i (n - 1)); [lia|].
    rewrite IH by lia. rewrite <- app_assoc. simpl. do 4 f_equal. lia.
Qed.

Lemma splitIntoN_eq (total n : Z) :
  0 <= total -> 0 < n ->
  splitIntoN total n
  = Return (replicate (Z.to_nat (n - 1)) (total / n) ++ [total / n + total mod n]).
Proof.
  intros Htotal Hn. unfold splitIntoN, BigInt.
  rewrite bigint_div_floor by lia. cbn [obind].
  replace (Z.to_nat n) with (S (Z.to_nat (n - 1))) by lia.
  rewrite splitIntoN_loop_spec by lia. simpl. do 3 f_equal.
  rewrite Z.mod_eq, Z2Nat.id by lia. ring.
Qed.

Lemma splitIntoN_even_split (total n : Z) :
  0 <= total -> 0 < n ->
  exists chunks : list Z, splitIntoN total n = Return chunks /\ even_split total n chunks.
Proof.
  intros Htotal Hn. eexists. split; [now apply splitIntoN_eq|].
  unfold even_split. split; [|split; [|split]].
  - rewrite sum_app, sum_replicate. unfold plan_sum. simpl.
    rewrite Z.mod_eq, Z2Nat.id by lia. ring.
  - rewrite length_app, length_replicate. simpl. lia.
  - intros i c Hi Hc.
    rewrite lookup_app_l in Hc by (rewrite length_replicate; lia).
    apply lookup_replicate in Hc. tauto.
  - apply last_snoc.
Qed.

Lemma calcSell_quote_bounds (st : BondingCurveState) (y : Z) :
  0 <= virtualSolReserves st -> 0 <= virtualTokenReserves st -> 0 <= y ->
  0 < virtualTokenReserves st + y ->
  0 <= virtualSolReserves st
       - virtualSolReserves st * virtualTokenReserves st / (virtualTokenReserves st + y).
Proof.
  intros Hb Ht Hy Hn.
  enough (virtualSolReserves st * virtualTokenReserves st / (virtualTokenReserves st + y)
          <= virtualSolReserves st) by lia.
  apply Pricing.floor_product_le; nia.
Qed.

(** C5: a sell of [T] tokens under the ceiling [maxSolPerTx] quotes the whole
    of [T] once ([quoted], the proceeds [calcSell] gives for [T]); when the
    quote is at or under the ceiling the plan is the single chunk [[T]];
    otherwise the plan is [splitIntoN T n] for [n = ceil (quoted / maxSolPerTx)],
    whose chunks plan_sum to exactly [T], number exactly [n], are [floor (T / n)]
    before the last, and leave the remainder to the last chunk alone.  ([n] is
    passed through [Number], exact below 2^53.) *)
Theorem sell_tokenChunks_plan (st : BondingCurveState) (T maxSolPerTx : Z) :
  0 <= virtualSolReserves st -> 0 <= virtualTokenReserves st ->
  0 <= T -> 0 < virtualTokenReserves st + T -> 0 < maxSolPerTx ->
  exists quoted : Z,
    calcSell T st = Return quoted /\
    (quoted <= maxSolPerTx -> tokenChunks T maxSolPerTx st = Return [T]) /\
    (maxSolPerTx < quoted -> ceil_div quoted maxSolPerTx < 2 ^ 53 ->
     exists chunks : list Z,
       tokenChunks T maxSolPerTx st = splitIntoN T (ceil_div quoted maxSolPerTx) /\
       splitIntoN T (ceil_div quoted maxSolPerTx) = Return chunks /\
       even_split T (ceil_div quoted maxSolPerTx) chunks).
Proof.
  intros Hb Ht HT Hn Hmax.
  pose proof (calcSell_quote_bounds st T Hb Ht HT Hn) as Hq.
  eexists. split; [now apply Pricing.calcSell_eq|].
  set (quoted := virtualSolReserves st
                 - virtualSolReserves st * virtualTokenReserves st
                   / (virtualTokenReserves st + T)) in *.
  split.
  - intros Hle. unfold tokenChunks. rewrite Pricing.calcSell_eq by assumption.
    cbn [obind]. fold quoted. destruct (Z.leb_spec quoted maxSolPerTx); [reflexivity|lia].
  - intros Hgt Hsafe.
    pose proof (ceil_div_bounds quoted maxSolPerTx Hmax) as Hc.
    assert (Hpos : 0 < ceil_div quoted maxSolPerTx) by nia.
    destruct (splitIntoN_even_split T (ceil_div quoted maxSolPerTx) HT Hpos)
      as (chunks & Hrun & Heven).
    exists chunks. split; [|split; assumption].
    unfold tokenChunks. rewrite Pricing.calcSell_eq by assumption.
    cbn [obind]. fold quoted. destruct (Z.leb_spec quoted maxSolPerTx); [lia|].
    rewrite bigint_div_floor by lia. cbn [obind].
    rewrite ceil_div_round_up by exact Hmax.
    rewrite Number_exact by lia. reflexivity.
Qed.

Lemma sell_tokenChunks_plan_witness :
  exists quoted : Z,
    calcSell 3322260 example_curve_after_buy = Return quoted /\
    (quoted <= 30000000 ->
     tokenChunks 3322260 30000000 example_curve_after_buy = Return [3322260]) /\
    (30000000 < quoted -> ceil_div quoted 30000000 < 2 ^ 53 ->
     exists chunks : list Z,
       tokenChunks 3322260 30000000 example_curve_after_buy
       = splitIntoN 3322260 (ceil_div quoted 30000000) /\
       splitIntoN 3322260 (ceil_div quoted 30000000) = Return chunks /\
       even_split 3322260 (ceil_div quoted 30000000) chunks).
Proof.
  apply (sell_tokenChunks_plan example_curve_after_buy 3322260 30000000);
    vm_compute; easy.
Defined.

Example tokenChunks_example :
  tokenChunks 3322260 30000000 example_curve_after_buy
  = Return [830565; 830565; 830565; 830565].
Proof. reflexivity. Qed.

End Planner.

(** ** The confirmation poller *)

Module Poller.

Example confirm_rejected_at_once :
  confirmTransactionWithPolling rejected_at_once "sig" 100 5 2000
  = ([Delay 2000; GetTransaction "sig"], Throw (rejectionError "{}")).
Proof. reflexivity. Qed.

Example confirm_expires_at_third :
  confirmTransactionWithPolling expires_at_third "sig" 100 5 2000
  = ([Delay 2000; GetTransaction "sig"; GetBlockHeight;
      Delay 2000; GetTransaction "sig"; GetBlockHeight;
      Delay 2000; GetTransaction "sig"; GetBlockHeight], Throw expirationError).
Proof. reflexivity. Qed.

Example confirm_times_out :
  snd (confirmTransactionWithPolling expires_at_third "sig" 100 2 2000)
  = Throw (Error "交易确认超时（已尝试 2 次），签名: sig。请手动检查交易状态。").
Proof. reflexivity. Qed.

Arguments rethrown : simpl never.
Arguments rejectionError : simpl never.
Arguments expirationError : simpl never.
Arguments timeoutError : simpl never.

Lemma rethrown_rejectionError (payload : string) : rethrown (rejectionError payload) = true.
Proof.
  unfold rethrown, rejectionError, Error, message.
  change ("交易失败: " +:+ payload) with ("交易失败" +:+ (": " +:+ payload)).
  rewrite includes_prefix by apply prefix_append. reflexivity.
Qed.

Lemma rethrown_expirationError : rethrown expirationError = true.
Proof. reflexivity. Qed.

Lemma attempts_used_app (l k : list PollCall) :
  attempts_used (l ++ k) = (attempts_used l + attempts_used k)%nat.
Proof. unfold attempts_used. now rewrite List.filter_app, length_app. Qed.

(** The test of the [catch] block is the quotation of the poller's own
    errors. *)
Lemma rethrown_iff_quotes (error : exn) :
  rethrown error = true <-> quotes_poller_error (message error).
Proof. unfold rethrown, quotes_poller_error. apply orb_true_iff. Qed.

Lemma transient_not_rethrown (error : exn) :
  ~ quotes_poller_error (message error) -> rethrown error = false.
Proof.
  intros Hquiet. destruct (rethrown error) eqn:E; [|reflexivity].
  exfalso. now apply Hquiet, rethrown_iff_quotes.
Qed.

(** An error field that is set passes the condition on it. *)
Lemma truthy_set (payload : string) :
  payload <> "false" /\ payload <> "0" /\ payload <> empty_string_rendering ->
  truthy payload = true.
Proof.
  intros (Hfalse & Hzero & Hempty). unfold truthy.
  destruct (String.eqb_spec payload "false"); [contradiction|].
  destruct (String.eqb_spec payload "0"); [contradiction|].
  destruct (String.eqb_spec payload empty_string_rendering); [contradiction|reflexivity].
Qed.

(** One iteration against the transition it implements. *)
Lemma attempt_body_transition (src : StatusSource) (signature : string)
    (lastValidBlockHeight delayMs maxAttempts : Z) (k : nat) :
  transient_failures src -> error_fields_set src ->
  exists calls done,
    attempt_body src signature lastValidBlockHeight delayMs k = (calls, done) /\
    attempts_used calls = 1%nat /\
    done = surface maxAttempts (transition signature lastValidBlockHeight (status_of src k)).
Proof.
  intros [HgetTx HgetHeight] Hset.
  unfold attempt_body, attempt_try, status_of.
  destruct (getTransaction src k) as [[txInfo|]|error] eqn:Etx.
  - destruct (meta txInfo ≫= err) as [payload|] eqn:Eerr.
    + rewrite (truthy_set payload (Hset k txInfo payload Etx Eerr)).
      eexists _, _. split; [reflexivity|]. split; [reflexivity|]. simpl. reflexivity.
    + eexists _, _. split; [reflexivity|]. split; reflexivity.
  - destruct (getBlockHeight src k) as [height|error] eqn:Eh.
    + simpl. destruct (lastValidBlockHeight <? height);
        eexists _, _; (split; [reflexivity|]); split; reflexivity.
    + eexists _, _. split; [reflexivity|]. split; [reflexivity|].
      simpl. now rewrite (transient_not_rethrown error (HgetHeight k error Eh)).
  - eexists _, _. split; [reflexivity|]. split; [reflexivity|].
    simpl. now rewrite (transient_not_rethrown error (HgetTx k error Etx)).
Qed.

(** The loop refines the machine, from any attempt on. *)
Lemma poll_loop_machine (src : StatusSource) (signature : string)
    (lastValidBlockHeight maxAttempts delayMs : Z) (Htransient : transient_failures src)
    (Hset : error_fields_set src) (iters : nat) :
  forall k : nat,
    let run := poll_loop src signature lastValidBlockHeight maxAttempts delayMs iters k in
    let spec := machine signature lastValidBlockHeight (status_of src) iters k in
    Some (snd run) = surface maxAttempts (fst spec) /\ attempts_used (fst run) = snd spec.
Proof.
  induction iters as [|iters IH]; intros k; [split; reflexivity|].
  simpl.
  destruct (attempt_body_transition src signature lastValidBlockHeight delayMs maxAttempts k
              Htransient Hset) as (calls & done & Hbody & Hused & Hdone).
  rewrite Hbody.
  specialize (IH (S k)). simpl in IH.
  destruct (poll_loop src signature lastValidBlockHeight maxAttempts delayMs iters (S k))
    as [calls' completion].
  destruct (machine signature lastValidBlockHeight (status_of src) iters (S k))
    as [final used].
  destruct (transition signature lastValidBlockHeight (status_of src k));
    simpl in Hdone; subst done; simpl in *;
    try (split; [reflexivity|exact Hused]).
  rewrite attempts_used_app, Hused. destruct IH as [-> ->]. split; reflexivity.
Qed.

(** The machine stops at the first attempt whose transition leaves [Polling],
    having consumed the attempts up to it and no more. *)
Lemma machine_stops_at_first_final (signature : string) (expiryCeiling : Z)
    (statuses : nat -> status) (final : poll_state) (before : nat) :
  forall (budget k : nat),
    (before < budget)%nat ->
    (forall j : nat, (j < before)%nat ->
        transition signature expiryCeiling (statuses (k + j)%nat) = Polling) ->
    transition signature expiryCeiling (statuses (k + before)%nat) = final ->
    final <> Polling ->
    machine signature expiryCeiling statuses budget k = (final, S before).
Proof.
  induction before as [|before IH]; intros budget k Hbudget Hpoll Hfinal Hne;
    (destruct budget as [|budget]; [lia|]); simpl.
  - rewrite Nat.add_0_r in Hfinal. rewrite Hfinal. now destruct final.
  - pose proof (Hpoll 0%nat ltac:(lia)) as H0. rewrite Nat.add_0_r in H0. rewrite H0.
    rewrite (IH budget (S k)); [reflexivity|lia| | |exact Hne].
    + intros j Hj. replace (S k + j)%nat with (k + S j)%nat by lia. apply Hpoll. lia.
    + replace (S k + before)%nat with (k + S before)%nat by lia. exact Hfinal.
Qed.

(** The machine times out when every attempt of the budget stays [Polling]. *)
Lemma machine_times_out (signature : string) (expiryCeiling : Z)
    (statuses : nat -> status) (budget : nat) :
  forall k : nat,
    (forall j : nat, (j < budget)%nat ->
        transition signature expiryCeiling (statuses (k + j)%nat) = Polling) ->
    machine signature expiryCeiling statuses budget k = (TimedOut signature, budget).
Proof.
  induction budget as [|budget IH]; intros k Hpoll; simpl; [reflexivity|].
  pose proof (Hpoll 0%nat ltac:(lia)) as H0. rewrite Nat.add_0_r in H0. rewrite H0.
  rewrite (IH (S k)); [reflexivity|].
  intros j Hj. replace (S k + j)%nat with (k + S j)%nat by lia. apply Hpoll. lia.
Qed.

Lemma timeoutError_distinct (maxAttempts : Z) (signature : string) :
  (forall payload, timeoutError maxAttempts signature <> rejectionError payload) /\
  timeoutError maxAttempts signature <> expirationError.
Proof.
  unfold timeoutError, rejectionError, expirationError, Error.
  split; [intros payload|]; intros H; injection H as H; simpl in H; discriminate H.
Qed.

Lemma timeoutError_carries_signature (maxAttempts : Z) (signature : string) :
  includes signature (message (timeoutError maxAttempts signature)) = true.
Proof.
  unfold timeoutError, Error, message.
  do 3 apply includes_skip. apply includes_prefix, prefix_append.
Qed.

(** C9 (as amended): against every status source whose failing queries are
    transient (none fails with a message that quotes the poller's rejection
    or expiration text) and whose error fields, when not null, are set to
    errors, [confirmTransactionWithPolling] ends as the specified state
    machine does and consumes the attempts the machine consumes: found with an
    error it throws the rejection error at once, found without one it returns
    the signature, not found above the expiry ceiling it throws the expiration
    error at once, otherwise (a failing query included) it tries again, and
    out of attempts it throws the timeout error, which differs from the other
    two and carries the signature. *)
Theorem confirmTransactionWithPolling_state_machine (src : StatusSource)
    (signature : string) (lastValidBlockHeight maxAttempts delayMs : Z) :
  transient_failures src -> error_fields_set src ->
  Some (snd (confirmTransactionWithPolling src signature lastValidBlockHeight
               maxAttempts delayMs))
  = surface maxAttempts
      (fst (machine signature lastValidBlockHeight (status_of src)
              (Z.to_nat maxAttempts) 1)) /\
  attempts_used (fst (confirmTransactionWithPolling src signature lastValidBlockHeight
                        maxAttempts delayMs))
  = snd (machine signature lastValidBlockHeight (status_of src) (Z.to_nat maxAttempts) 1) /\
  (forall payload, timeoutError maxAttempts signature <> rejectionError payload) /\
  timeoutError maxAttempts signature <> expirationError /\
  includes signature (message (timeoutError maxAttempts signature)) = true.
Proof.
  intros Htransient Hset.
  destruct (poll_loop_machine src signature lastValidBlockHeight maxAttempts delayMs
              Htransient Hset (Z.to_nat maxAttempts) 1) as [Hrun Hused].
  destruct (timeoutError_distinct maxAttempts signature) as [Hrej Hexp].
  repeat split; try assumption.
  apply timeoutError_carries_signature.
Qed.

Lemma confirmTransactionWithPolling_state_machine_witness :
  Some (snd (confirmTransactionWithPolling Watch.flaky_then_rejected "sig" 100 5 2000))
  = surface 5 (fst (machine "sig" 100 (status_of Watch.flaky_then_rejected) (Z.to_nat 5) 1)) /\
  attempts_used (fst (confirmTransactionWithPolling Watch.flaky_then_rejected "sig" 100 5 2000))
  = snd (machine "sig" 100 (status_of Watch.flaky_then_rejected) (Z.to_nat 5) 1) /\
  (forall payload, timeoutError 5 "sig" <> rejectionError payload) /\
  timeoutError 5 "sig" <> expirationError /\
  includes "sig" (message (timeoutError 5 "sig")) = true.
Proof.
  apply (confirmTransactionWithPolling_state_machine Watch.flaky_then_rejected "sig" 100 5 2000).
  - split; intros k error Hfail.
    + destruct k as [|[|[|k]]]; cbn in Hfail; try discriminate Hfail.
      injection Hfail as <-. intros [Hquote|Hquote]; vm_compute in Hquote; discriminate Hquote.
    + injection Hfail as <-. intros [Hquote|Hquote]; vm_compute in Hquote; discriminate Hquote.
  - intros k txInfo payload Hfound Herr.
    destruct k as [|[|[|k]]]; cbn in Hfound; try discriminate Hfound;
      injection Hfound as <-; cbn in Herr; injection Herr as <-;
      repeat split; discriminate.
Defined.

(** The flaky source runs the machine through two failing queries to the
    rejection at the third attempt. *)
Example confirm_flaky_then_rejected :
  confirmTransactionWithPolling Watch.flaky_then_rejected "sig" 100 5 2000
  = ([Delay 2000; GetTransaction "sig";
      Delay 2000; GetTransaction "sig"; GetBlockHeight;
      Delay 2000; GetTransaction "sig"], Throw (rejectionError "{}")) /\
  machine "sig" 100 (status_of Watch.flaky_then_rejected) 5 1 = (Failed "{}", 3%nat).
Proof. split; reflexivity. Qed.

(** The claim as first stated, for every sequence of responses, fails twice.
    A status query that fails with a message quoting the rejection text ends
    the poll at the first attempt with that error, where the machine tries
    again and times out after all five; and a transaction found with the
    error field zero, which is not null, is returned as confirmed, where the
    machine fails. *)
Lemma confirmTransactionWithPolling_not_the_machine :
  (confirmTransactionWithPolling Watch.quoting_source "sig" 100 5 2000
   = ([Delay 2000; GetTransaction "sig"], Throw (Error "upstream said: 交易失败: {}")) /\
   machine "sig" 100 (status_of Watch.quoting_source) (Z.to_nat 5) 1
   = (TimedOut "sig", 5%nat) /\
   Some (snd (confirmTransactionWithPolling Watch.quoting_source "sig" 100 5 2000))
   <> surface 5 (fst (machine "sig" 100 (status_of Watch.quoting_source) (Z.to_nat 5) 1)) /\
   attempts_used (fst (confirmTransactionWithPolling Watch.quoting_source "sig" 100 5 2000))
   <> snd (machine "sig" 100 (status_of Watch.quoting_source) (Z.to_nat 5) 1)) /\
  (confirmTransactionWithPolling Watch.zero_error_source "sig" 100 5 2000
   = ([Delay 2000; GetTransaction "sig"], Return "sig") /\
   machine "sig" 100 (status_of Watch.zero_error_source) (Z.to_nat 5) 1
   = (Failed "0", 1%nat) /\
   Some (snd (confirmTransactionWithPolling Watch.zero_error_source "sig" 100 5 2000))
   <> surface 5 (fst (machine "sig" 100 (status_of Watch.zero_error_source) (Z.to_nat 5) 1))).
Proof.
  split; [split; [|split; [|split]]|split; [|split]];
    try (vm_compute; reflexivity); intros Hsame; vm_compute in Hsame; discriminate Hsame.
Qed.

End Poller.

(** ** The trade-event listener *)

Module Events.

Example base64_hello : Codecs.base64 "aGVsbG8=" = [x68; x65; x6c; x6c; x6f].
Proof. reflexivity. Qed.

Example toBase58_system_program : Codecs.toBase58 {| bn := 0 |} = "11111111111111111111111111111111".
Proof. reflexivity. Qed.

Example toBase58_wrapped_sol :
  Codecs.toBase58 {| bn := 0x069b8857feab8184fb687f634618c035dac439dc1aeb3b5598a0f00000000001 |}
  = "So11111111111111111111111111111111111111112".
Proof. vm_compute. reflexivity. Qed.

(** A trade event of another mint ends the handler: the callback is not
    called for it, nor for any line after it. *)
Lemma logLines_loop_returns_at_mismatch (base64 : string -> list byte)
    (toBase58 : PublicKey -> string) (wanted mint : PublicKey) (log : Logs)
    (logLine : string) (lines : list string) (called : list TradeEvent) :
  trade_event_line base64 logLine mint -> equals mint wanted = false ->
  logLines_loop base64 toBase58 (Some wanted) log (logLine :: lines) called = (called, Return tt).
Proof.
  intros (Hstart & Htag & Hmint) Hne. simpl. unfold logLine_body.
  rewrite Hstart, Htag. simpl. change (8 + 32)%nat with 40%nat.
  rewrite Hmint. cbn [obind]. rewrite Hne. reflexivity.
Qed.

Example lineA_decodes :
  Codecs.base64 (replace "Program data: " "" lineA)
  = event_bytes mintA 100000000 3322260 true {| bn := 7 |} 1700000000.
Proof. vm_compute. reflexivity. Qed.

Example lineB_decodes :
  Codecs.base64 (replace "Program data: " "" lineB)
  = event_bytes mintB 100000000 3322260 true {| bn := 7 |} 1700000000.
Proof. vm_compute. reflexivity. Qed.

Example lineB_is_trade_event : trade_event_line Codecs.base64 lineB mintB.
Proof. repeat split. Qed.

(** With the matching line first both lines are handled: one call. *)
Example listenTrades_match_then_mismatch :
  listenTrades Codecs.base64 Codecs.toBase58 (Some mintB)
    {| logs := ["Program log: Instruction: Buy"; lineB; lineA]; signature := "sig" |}
  = ([eventB], Return tt).
Proof. vm_compute. reflexivity. Qed.

(** Without a filter every trade event is delivered. *)
Example listenTrades_no_filter :
  fst (listenTrades Codecs.base64 Codecs.toBase58 None
         {| logs := [lineA; lineB]; signature := "sig" |})
  = [{| event_mint := "11111111111111111111111111111112";
        solAmount := 100000000; tokenAmount := 3322260; isBuy := true;
        user := "11111111111111111111111111111118"; timestamp := 1700000000;
        event_signature := "sig" |}; eventB].
Proof. vm_compute. reflexivity. Qed.

(** C3: on a message that logs a trade of another mint before a trade of the
    filtered mint, the handler returns at the first and never calls the
    callback for the second, although its line is a well-formed trade event of
    the filtered mint (delivered when it comes first or stands alone). *)
Theorem listenTrades_drops_match_after_mismatch :
  trade_event_line Codecs.base64 lineA mintA /\
  trade_event_line Codecs.base64 lineB mintB /\
  listenTrades Codecs.base64 Codecs.toBase58 (Some mintB)
    {| logs := [lineB]; signature := "sig" |} = ([eventB], Return tt) /\
  listenTrades Codecs.base64 Codecs.toBase58 (Some mintB)
    {| logs := [lineA; lineB]; signature := "sig" |} = ([], Return tt).
Proof. repeat split. Qed.

End Events.

(** ** The trade entry points *)

Module Trading.

(** The reserves a bonding-curve account decodes to are unsigned 64-bit
    values: the pricing facts, stated on non-negative reserves, cover every
    state [loadBonding] returns. *)
Lemma decodeBonding_u64 (data : list byte) (state : BondingCurveState) (creator : PublicKey) :
  decodeBonding data = Return (state, creator) ->
  u64 (virtualTokenReserves state) /\ u64 (virtualSolReserves state).
Proof.
  unfold decodeBonding, readU64.
  destruct (readBigUInt64LE data 8) as [vt|] eqn:Evt; [|discriminate]. cbn [obind].
  destruct (readBigUInt64LE data (8 + 8)) as [vs|] eqn:Evs; [|discriminate]. cbn [obind].
  destruct (readBigUInt64LE data (8 + 8 + 8)) as [rt|]; [|discriminate]. cbn [obind].
  destruct (readBigUInt64LE data (8 + 8 + 8 + 8)) as [rs|]; [|discriminate]. cbn [obind].
  destruct (readBigUInt64LE data (8 + 8 + 8 + 8 + 8)) as [ts|]; [|discriminate]. cbn [obind].
  destruct (PublicKey_of_bytes _) as [key|]; [|discriminate]. cbn [obind].
  intros [= <- <-]. simpl.
  split; eapply readBigUInt64LE_u64; eassumption.
Qed.

Section Facts.

Context {SlippageOptions PriorityOptions : Type}.
Variable rt : Runtime SlippageOptions PriorityOptions.

(** *** The reads submit nothing *)

Lemma submitted_app (l k : list RpcCall) : submitted (l ++ k) = submitted l ++ submitted k.
Proof. apply omap_app. Qed.

Lemma ret_submits_nothing {A : Type} (a : A) : submits_nothing (ret a).
Proof. intros t. reflexivity. Qed.

Lemma throw_submits_nothing {A : Type} (e : exn) : submits_nothing (@throw A e).
Proof. intros t. reflexivity. Qed.

Lemma lift_submits_nothing {A : Type} (o : outcome A) : submits_nothing (lift o).
Proof. intros t. reflexivity. Qed.

Lemma mbind_submits_nothing {A B : Type} (m : M A) (k : A -> M B) :
  submits_nothing m -> (forall a, submits_nothing (k a)) -> submits_nothing (mbind m k).
Proof.
  intros Hm Hk t. unfold mbind. specialize (Hm t).
  destruct (m t) as [[a|e] t']; simpl in *; [|exact Hm].
  now rewrite Hk.
Qed.

Lemma try_catch_submits_nothing {A : Type} (body : M A) (handler : exn -> M A) :
  submits_nothing body -> (forall e, submits_nothing (handler e)) ->
  submits_nothing (try_catch body handler).
Proof.
  intros Hb Hh t. unfold try_catch. specialize (Hb t).
  destruct (body t) as [[a|e] t']; simpl in *; [exact Hb|].
  now rewrite Hh.
Qed.

Lemma rpc_getMint_submits_nothing {A : Type} (mint : PublicKey) (program : TokenProgramId)
    (answer : list RpcCall -> outcome A) :
  submits_nothing (rpc (RpcGetMint mint program) answer).
Proof. intros t. simpl. rewrite submitted_app. simpl. apply app_nil_r. Qed.

Lemma rpc_getAccountInfo_submits_nothing {A : Type} (address : PublicKey)
    (answer : list RpcCall -> outcome A) :
  submits_nothing (rpc (RpcGetAccountInfo address) answer).
Proof. intros t. simpl. rewrite submitted_app. simpl. apply app_nil_r. Qed.

Lemma cache_set_submits_nothing (tokenAddr : string) (result : TokenProgram) :
  submits_nothing (cache_set tokenAddr result).
Proof. intros t. reflexivity. Qed.

Lemma set_globalState_submits_nothing (g : GlobalState) : submits_nothing (set_globalState g).
Proof. intros t. reflexivity. Qed.

Create HintDb reads discriminated.
#[local] Hint Resolve ret_submits_nothing throw_submits_nothing lift_submits_nothing
  rpc_getMint_submits_nothing rpc_getAccountInfo_submits_nothing
  cache_set_submits_nothing set_globalState_submits_nothing : reads.

(** Splits a method into its binds, handlers and branches, down to the calls
    it makes. *)
Ltac reads_only :=
  repeat first
    [ apply mbind_submits_nothing; [|intros ?]
    | apply try_catch_submits_nothing; [|intros ?]
    | progress auto with reads
    | match goal with |- submits_nothing (match ?x with _ => _ end) => destruct x end ].

Lemma detectTokenProgram_submits_nothing (tokenAddr : string) :
  submits_nothing (detectTokenProgram rt tokenAddr).
Proof.
  intros t. unfold detectTokenProgram.
  destruct (tokenProgramCache t !! tokenAddr); [reflexivity|].
  revert t. reads_only.
Qed.

Lemma loadGlobal_submits_nothing : submits_nothing (loadGlobal rt).
Proof. unfold loadGlobal. reads_only. Qed.

Lemma loadGlobal_if_missing_submits_nothing : submits_nothing (loadGlobal_if_missing rt).
Proof.
  intros t. unfold loadGlobal_if_missing.
  destruct (globalState t); [reflexivity|].
  revert t. pose proof loadGlobal_submits_nothing. reads_only.
Qed.

Lemma loadBonding_submits_nothing (mint : PublicKey) : submits_nothing (loadBonding rt mint).
Proof. unfold loadBonding. reads_only. Qed.

Lemma curve_checks_submits_nothing (tokenAddr : string) :
  submits_nothing (curve_checks rt tokenAddr).
Proof.
  pose proof (detectTokenProgram_submits_nothing tokenAddr).
  pose proof loadGlobal_if_missing_submits_nothing.
  pose proof loadBonding_submits_nothing.
  unfold curve_checks. reads_only.
Qed.

(** *** The completion check *)

(** The checks hand a state on only when its completion flag is clear. *)
Lemma curve_checks_incomplete (tokenAddr : string) (t t' : Trader) (state : BondingCurveState) :
  curve_checks rt tokenAddr t = (Return state, t') -> complete state = false.
Proof.
  unfold curve_checks, mbind, lift, throw, ret.
  destruct (PublicKey_of_string rt tokenAddr) as [mint|e]; [|discriminate].
  destruct (detectTokenProgram rt tokenAddr t) as [[tokenProgram|e] t1]; [|discriminate].
  destruct (loadGlobal_if_missing rt t1) as [[[]|e] t2]; [|discriminate].
  destruct (loadBonding rt mint t2) as [[[[bonding st] creator]|e] t3]; [|discriminate].
  destruct (complete st) eqn:E; [discriminate|].
  now intros [= <- <-].
Qed.

Lemma curve_checks_completed (tokenAddr : string) (t t1 t2 t3 : Trader) (mint : PublicKey)
    (tokenProgram : TokenProgram) (bonding creator : PublicKey) (state : BondingCurveState) :
  PublicKey_of_string rt tokenAddr = Return mint ->
  detectTokenProgram rt tokenAddr t = (Return tokenProgram, t1) ->
  loadGlobal_if_missing rt t1 = (Return tt, t2) ->
  loadBonding rt mint t2 = (Return (bonding, state, creator), t3) ->
  complete state = true ->
  curve_checks rt tokenAddr t = (Throw CurveAlreadyComplete, t3).
Proof.
  intros Hmint Hdetect Hglobal Hbonding Hcomplete.
  unfold curve_checks, mbind, lift.
  rewrite Hmint, Hdetect, Hglobal, Hbonding, Hcomplete. reflexivity.
Qed.

(** C4: when the reads of a curve-phase trade succeed and the bonding-curve
    state they load has its completion flag set, [buy] and [sell] throw the
    curve-already-complete error in the state the reads left: no plan is made,
    no [TradeResult] is returned, and no sub-order has been submitted since
    the call began. *)
Theorem curve_trade_rejects_completed_curve (fuel : nat) (tokenAddr : string) (total : Z)
    (tradeOpt : TradeOptions SlippageOptions PriorityOptions) (t t1 t2 t3 : Trader)
    (mint : PublicKey) (tokenProgram : TokenProgram) (bonding creator : PublicKey)
    (state : BondingCurveState) :
  PublicKey_of_string rt tokenAddr = Return mint ->
  detectTokenProgram rt tokenAddr t = (Return tokenProgram, t1) ->
  loadGlobal_if_missing rt t1 = (Return tt, t2) ->
  loadBonding rt mint t2 = (Return (bonding, state, creator), t3) ->
  complete state = true ->
  buy rt fuel tokenAddr total tradeOpt t = Some (Throw CurveAlreadyComplete, t3) /\
  sell rt tokenAddr total tradeOpt t = (Throw CurveAlreadyComplete, t3) /\
  submitted (history t3) = submitted (history t).
Proof.
  intros Hmint Hdetect Hglobal Hbonding Hcomplete.
  pose proof (curve_checks_completed tokenAddr t t1 t2 t3 mint tokenProgram bonding creator
                state Hmint Hdetect Hglobal Hbonding Hcomplete) as Hchecks.
  split; [|split].
  - unfold buy. now rewrite Hchecks.
  - unfold sell, mbind. now rewrite Hchecks.
  - pose proof (curve_checks_submits_nothing tokenAddr t) as H.
    now rewrite Hchecks in H.
Qed.

(** Whatever the other reads do, a trade on a token whose curve account
    decodes to a completed state throws and submits nothing. *)
Lemma buy_never_submits_on_completed_curve (fuel : nat) (tokenAddr : string) (total : Z)
    (tradeOpt : TradeOptions SlippageOptions PriorityOptions) (t : Trader)
    (mint creator : PublicKey) (data : list byte) (state : BondingCurveState) :
  PublicKey_of_string rt tokenAddr = Return mint ->
  (forall h, getAccountInfo rt h (getBondingPda rt mint) = Return (Some data)) ->
  decodeBonding data = Return (state, creator) ->
  complete state = true ->
  exists e t',
    buy rt fuel tokenAddr total tradeOpt t = Some (Throw e, t') /\
    submitted (history t') = submitted (history t).
Proof.
  intros Hmint Hacc Hdecode Hcomplete.
  pose proof (curve_checks_submits_nothing tokenAddr t) as Hsub.
  unfold buy.
  destruct (curve_checks rt tokenAddr t) as [[st|e] t'] eqn:Hchecks.
  - exfalso. revert Hchecks.
    unfold curve_checks, mbind, lift, throw, ret. rewrite Hmint.
    destruct (detectTokenProgram rt tokenAddr t) as [[tokenProgram|e] t1]; [|discriminate].
    destruct (loadGlobal_if_missing rt t1) as [[[]|e] t2]; [|discriminate].
    unfold loadBonding, mbind, rpc, lift, ret. rewrite Hacc, Hdecode, Hcomplete.
    discriminate.
  - exists e, t'. split; [reflexivity|exact Hsub].
Qed.

(** *** Routing *)

(** The three ways [loadBonding] fails. *)
Lemma loadBonding_account_missing (mint : PublicKey) (t : Trader) :
  getAccountInfo rt (history t) (getBondingPda rt mint) = Return None ->
  fst (loadBonding rt mint t) = Throw (Error "Bonding curve not found").
Proof. intros H. unfold loadBonding, mbind, rpc. now rewrite H. Qed.

Lemma loadBonding_query_error (mint : PublicKey) (t : Trader) (e : exn) :
  getAccountInfo rt (history t) (getBondingPda rt mint) = Throw e ->
  fst (loadBonding rt mint t) = Throw e.
Proof. intros H. unfold loadBonding, mbind, rpc. now rewrite H. Qed.

Lemma loadBonding_malformed (mint : PublicKey) (t : Trader) (data : list byte) :
  getAccountInfo rt (history t) (getBondingPda rt mint) = Return (Some data) ->
  (length data < 48)%nat ->
  fst (loadBonding rt mint t) = Throw (RangeError "ERR_OUT_OF_RANGE").
Proof.
  intros H Hshort. unfold loadBonding, mbind, rpc, lift. rewrite H.
  unfold decodeBonding, readU64.
  repeat match goal with
         | |- context [readBigUInt64LE data ?o] =>
             destruct (Nat.leb_spec (o + 8) (length data));
             [ unfold readBigUInt64LE at 1;
               destruct (Nat.leb_spec (o + 8) (length data)); [cbn [obind]|lia]
             | rewrite (readBigUInt64LE_short data o) by lia; reflexivity ]
         end.
  lia.
Qed.

(** C10: whenever loading the bonding-curve state fails (the account is
    missing, its data is malformed, or the query throws) [isAmmCompleted]
    returns true instead of throwing, [getTradeMode] returns "amm", and
    [autoBuy] and [autoSell] go on as [ammBuy] and [ammSell]. *)
Theorem unreadable_curve_routes_to_amm (tokenAddr : string) (t : Trader) :
  (forall mint, PublicKey_of_string rt tokenAddr = Return mint ->
                exists e, fst (loadBonding rt mint t) = Throw e) ->
  exists t',
    isAmmCompleted rt tokenAddr t = (Return true, t') /\
    getTradeMode rt tokenAddr t = (Return "amm", t') /\
    (forall fuel total tradeOpt,
        autoBuy rt fuel tokenAddr total tradeOpt t = ammBuy rt tokenAddr total tradeOpt t') /\
    (forall total tradeOpt,
        autoSell rt tokenAddr total tradeOpt t = ammSell rt tokenAddr total tradeOpt t').
Proof.
  intros Hfails.
  assert (Hcompleted : exists t', isAmmCompleted rt tokenAddr t = (Return true, t')).
  { unfold isAmmCompleted, try_catch, mbind, lift, ret.
    destruct (PublicKey_of_string rt tokenAddr) as [mint|e]; [|now eexists].
    destruct (Hfails mint eq_refl) as [e He].
    destruct (loadBonding rt mint t) as [[[[bonding state] creator]|e'] t']; [discriminate|].
    now eexists. }
  destruct Hcompleted as [t' Hcompleted]. exists t'.
  assert (Hmode : getTradeMode rt tokenAddr t = (Return "amm", t'))
    by (unfold getTradeMode, mbind; now rewrite Hcompleted).
  split; [exact Hcompleted|]. split; [exact Hmode|]. split.
  - intros fuel total tradeOpt. unfold autoBuy. now rewrite Hmode.
  - intros total tradeOpt. unfold autoSell, mbind. now rewrite Hmode.
Qed.

End Facts.

(** *** On the sample ledgers *)

Example completed_curve_decodes :
  decodeBonding completed_curve_data
  = Return ({| virtualTokenReserves := 1000000000; virtualSolReserves := 30000000000;
               realTokenReserves := 0; realSolReserves := 0;
               tokenTotalSupply := 1000000000; complete := true |}, {| bn := 0 |}).
Proof. vm_compute. reflexivity. Qed.

Example after_bonding_history :
  history after_bonding
  = [RpcGetMint mintA TOKEN_2022_PROGRAM_ID;
     RpcGetAccountInfo {| bn := 1 |}; RpcGetAccountInfo {| bn := 2 |}].
Proof. vm_compute. reflexivity. Qed.

(** On an open curve the same call plans and submits. *)
Example buy_open_curve :
  option_map (fun r => (fst r, submitted (history (snd r))))
    (buy (runtime_on open_ledger) 3 "mint" 50000000 options fresh)
  = Some (Return {| pendingTransactions :=
                      [{| pending_signature := "sig"; lastValidBlockHeight := 100;
                          pending_index := 0 |};
                       {| pending_signature := "sig"; lastValidBlockHeight := 100;
                          pending_index := 1 |}];
                    failedTransactions := [] |},
          [{| side := Buy; index := 0; amountIn := 30000000; quotedOut := 0 |};
           {| side := Buy; index := 1; amountIn := 20000000; quotedOut := 0 |}]).
Proof. vm_compute. reflexivity. Qed.

Lemma curve_trade_rejects_completed_curve_witness :
  buy (runtime_on completed_ledger) 3 "mint" 50000000 options fresh
  = Some (Throw CurveAlreadyComplete, after_bonding) /\
  sell (runtime_on completed_ledger) "mint" 50000000 options fresh
  = (Throw CurveAlreadyComplete, after_bonding) /\
  submitted (history after_bonding) = submitted (history fresh).
Proof.
  apply (curve_trade_rejects_completed_curve (runtime_on completed_ledger) 3 "mint" 50000000
           options fresh after_detect after_global after_bonding mintA token2022
           {| bn := 2 |} {| bn := 0 |}
           {| virtualTokenReserves := 1000000000; virtualSolReserves := 30000000000;
              realTokenReserves := 0; realSolReserves := 0;
              tokenTotalSupply := 1000000000; complete := true |});
    vm_compute; reflexivity.
Defined.

Lemma unreadable_curve_routes_to_amm_witness :
  exists t',
    isAmmCompleted (runtime_on empty_ledger) "mint" fresh = (Return true, t') /\
    getTradeMode (runtime_on empty_ledger) "mint" fresh = (Return "amm", t') /\
    (forall fuel total tradeOpt,
        autoBuy (runtime_on empty_ledger) fuel "mint" total tradeOpt fresh
        = amm_buy "mint" total tradeOpt t') /\
    (forall total tradeOpt,
        autoSell (runtime_on empty_ledger) "mint" total tradeOpt fresh
        = amm_sell "mint" total tradeOpt t').
Proof.
  apply (unreadable_curve_routes_to_amm (runtime_on empty_ledger) "mint" fresh).
  intros mint _. exists (Error "Bonding curve not found").
  apply loadBonding_account_missing. reflexivity.
Defined.

End Trading.

(** ** Bytes written and read back *)

Module Bytes.

Lemma byte_value_of_value (z : Z) : 0 <= z < 256 -> byte_value (byte_of_value z) = z.
Proof.
  intros Hz. unfold byte_value, byte_of_value.
  destruct (Byte.of_N (Z.to_N z)) as [b|] eqn:E.
  - simpl. apply Byte.to_of_N in E. lia.
  - apply Byte.of_N_None_iff in E. lia.
Qed.

Lemma length_le_bytes (n : nat) (z : Z) : length (le_bytes n z) = n.
Proof. revert z. induction n as [|n IH]; intros z; simpl; [reflexivity|now rewrite IH]. Qed.

Lemma le_value_le_bytes (n : nat) (z : Z) :
  le_value (le_bytes n z) = z mod 256 ^ Z.of_nat n.
Proof.
  revert z. induction n as [|n IH]; intros z.
  - simpl. now rewrite Z.mod_1_r.
  - cbn [le_bytes le_value]. rewrite IH, byte_value_of_value by (apply Z.mod_pos_bound; lia).
    rewrite Nat2Z.inj_succ, Z.pow_succ_r by lia.
    rewrite (Z.mul_comm 256), Z.rem_mul_r by lia. lia.
Qed.

Lemma le_value_le_bytes_small (n : nat) (z : Z) :
  0 <= z < 256 ^ Z.of_nat n -> le_value (le_bytes n z) = z.
Proof. intros Hz. rewrite le_value_le_bytes. now apply Z.mod_small. Qed.

Lemma length_toBuffer (key : PublicKey) : length (toBuffer key) = 32%nat.
Proof. unfold toBuffer. now rewrite length_rev, length_le_bytes. Qed.

(** The bytes between two offsets of a buffer written in three parts. *)
Lemma slice_middle (data pre mid post : list byte) (start stop : nat) :
  data = pre ++ mid ++ post -> start = length pre -> stop = (start + length mid)%nat ->
  slice data start stop = mid.
Proof.
  intros -> -> ->. unfold slice.
  rewrite drop_app_length.
  replace (length pre + length mid - length pre)%nat with (length mid) by lia.
  apply take_app_length.
Qed.

Lemma read_u64_at (data pre post : list byte) (v : Z) (offset : nat) :
  data = pre ++ le_bytes 8 v ++ post -> offset = length pre -> u64 v ->
  readBigUInt64LE data offset = Return v.
Proof.
  intros Hdata Hoffset Hv. unfold readBigUInt64LE.
  destruct (Nat.leb_spec (offset + 8) (length data)) as [_|Hshort].
  - rewrite (slice_middle data pre (le_bytes 8 v) post); try assumption.
    + rewrite le_value_le_bytes_small; [reflexivity|]. exact Hv.
    + now rewrite length_le_bytes.
  - subst data. rewrite !length_app, length_le_bytes in Hshort. lia.
Qed.

Lemma read_i64_at (data pre post : list byte) (v : Z) (offset : nat) :
  data = pre ++ le_bytes 8 v ++ post -> offset = length pre -> Layout.i64 v ->
  readBigInt64LE data offset = Return v.
Proof.
  intros Hdata Hoffset Hv. unfold readBigInt64LE, readBigUInt64LE.
  destruct (Nat.leb_spec (offset + 8) (length data)) as [_|Hshort].
  - rewrite (slice_middle data pre (le_bytes 8 v) post); try assumption;
      [|now rewrite length_le_bytes].
    rewrite le_value_le_bytes. cbn [obind]. f_equal.
    change (256 ^ Z.of_nat 8) with (2 ^ 64). unfold Layout.i64 in Hv.
    destruct (Z.ltb_spec (v mod 2 ^ 64) (2 ^ 63)) as [Hlow|Hhigh].
    + destruct (Z.lt_ge_cases v 0) as [Hneg|Hpos].
      * replace v with (v + 2 ^ 64 - 1 * 2 ^ 64) in Hlow by lia.
        rewrite Zminus_mod, Z_mod_mult, Z.sub_0_r, Z.mod_mod, Z.mod_small in Hlow by lia. lia.
      * apply Z.mod_small. lia.
    + destruct (Z.lt_ge_cases v 0) as [Hneg|Hpos].
      * replace v with (v + 2 ^ 64 - 1 * 2 ^ 64) at 1 by lia.
        rewrite Zminus_mod, Z_mod_mult, Z.sub_0_r, Z.mod_mod, Z.mod_small by lia. lia.
      * rewrite Z.mod_small in Hhigh by lia. lia.
  - subst data. rewrite !length_app, length_le_bytes in Hshort. lia.
Qed.

Lemma read_key_at (data pre post : list byte) (key : PublicKey) (offset : nat) :
  data = pre ++ toBuffer key ++ post -> offset = length pre -> Layout.key_ok key ->
  PublicKey_of_bytes (slice data offset (offset + 32)) = Return key.
Proof.
  intros Hdata Hoffset Hkey.
  rewrite (slice_middle data pre (toBuffer key) post); try assumption;
    [|now rewrite length_toBuffer].
  unfold PublicKey_of_bytes, be_value, toBuffer. rewrite rev_involutive.
  rewrite le_value_le_bytes_small by exact Hkey.
  destruct (Z.leb_spec (2 ^ 256) (bn key)) as [Hbig|_]; [unfold Layout.key_ok in Hkey; lia|].
  now destruct key.
Qed.

Lemma read_flag_at (data pre post : list byte) (flag : bool) (offset : nat) :
  data = pre ++ [if flag then x01 else x00] ++ post -> offset = length pre ->
  byte_is_one data offset = flag.
Proof.
  intros -> ->. unfold byte_is_one.
  rewrite lookup_app_r, Nat.sub_diag by lia. now destruct flag.
Qed.

End Bytes.

(** ** Encoded arguments *)

Module Encoding.

Lemma u64_bytes (v : Z) : u64 v -> Wire.u64 v = Return (le_bytes 8 v).
Proof.
  intros Hv. unfold u64 in Hv. unfold Wire.u64. rewrite Z.abs_eq by lia.
  destruct (Z.leb_spec (2 ^ 64) v); [lia|reflexivity].
Qed.

(** X1: an unsigned 64-bit value written by [u64] takes eight bytes, and
    [readBigUInt64LE] reads it back from wherever those bytes stand in a
    buffer. *)
Theorem u64_read_back (v : Z) (pre post : list byte) :
  u64 v ->
  exists bytes : list byte,
    Wire.u64 v = Return bytes /\
    length bytes = 8%nat /\
    readBigUInt64LE (pre ++ bytes ++ post) (length pre) = Return v.
Proof.
  intros Hv. exists (le_bytes 8 v). split; [now apply u64_bytes|].
  split; [apply Bytes.length_le_bytes|].
  now apply (Bytes.read_u64_at _ pre post v).
Qed.

Lemma u64_read_back_witness :
  exists bytes : list byte,
    Wire.u64 3322260 = Return bytes /\
    length bytes = 8%nat /\
    readBigUInt64LE (DISCRIMINATOR_BUY ++ bytes ++ [x01; x01]) (length DISCRIMINATOR_BUY)
    = Return 3322260.
Proof. apply (u64_read_back 3322260 DISCRIMINATOR_BUY [x01; x01]). unfold u64. lia. Defined.

(** A value that does not fit eight bytes is refused, not truncated. *)
Lemma u64_overflow (v : Z) :
  2 ^ 64 <= v -> Wire.u64 v = Throw (Error "byte array longer than desired length").
Proof.
  intros Hv. unfold Wire.u64. rewrite Z.abs_eq by lia.
  destruct (Z.leb_spec (2 ^ 64) v); [reflexivity|lia].
Qed.

Lemma maxSol_eq (solIn slippageBps : Z) :
  0 <= solIn -> 0 <= slippageBps ->
  maxSol solIn slippageBps = Return (solIn + solIn * slippageBps / 10000).
Proof.
  intros Hin Hs. unfold maxSol, BigInt. rewrite bigint_div_floor by nia.
  f_equal. replace (solIn * (10000 + slippageBps)) with (solIn * slippageBps + solIn * 10000) by ring.
  rewrite Z.div_add by lia. lia.
Qed.

(** X2: the data of a curve buy is the buy selector followed by the token
    amount and the spend bound, 24 bytes that read back as the two arguments;
    and the spend bound computed for a non-negative slippage is the input plus
    its slippage share, never less than the input. *)
Theorem buy_data_reads_back (tokenOut solIn slippageBps : Z) :
  u64 tokenOut -> 0 <= solIn -> 0 <= slippageBps ->
  solIn + solIn * slippageBps / 10000 < 2 ^ 64 ->
  exists (bound : Z) (data : list byte),
    maxSol solIn slippageBps = Return bound /\
    bound = solIn + solIn * slippageBps / 10000 /\ solIn <= bound /\
    buy_data tokenOut bound = Return data /\
    length data = 24%nat /\
    slice data 0 8 = DISCRIMINATOR_BUY /\
    readBigUInt64LE data 8 = Return tokenOut /\
    readBigUInt64LE data 16 = Return bound.
Proof.
  intros Hout Hin Hs Hfits.
  assert (Hshare : 0 <= solIn * slippageBps / 10000) by (apply Z.div_pos; nia).
  set (bound := solIn + solIn * slippageBps / 10000) in *.
  assert (Hbound : u64 bound) by (unfold u64; lia).
  exists bound, (DISCRIMINATOR_BUY ++ le_bytes 8 tokenOut ++ le_bytes 8 bound).
  split; [now apply maxSol_eq|]. split; [reflexivity|]. split; [lia|].
  split; [unfold buy_data; now rewrite !u64_bytes|].
  split; [now rewrite !length_app, !Bytes.length_le_bytes|].
  split; [reflexivity|]. split.
  - now apply (Bytes.read_u64_at _ DISCRIMINATOR_BUY (le_bytes 8 bound) tokenOut).
  - apply (Bytes.read_u64_at _ (DISCRIMINATOR_BUY ++ le_bytes 8 tokenOut) [] bound);
      [now rewrite app_nil_r, <- app_assoc
      |now rewrite length_app, Bytes.length_le_bytes
      |exact Hbound].
Qed.

Lemma buy_data_reads_back_witness :
  exists (bound : Z) (data : list byte),
    maxSol 100000000 500 = Return bound /\
    bound = 100000000 + 100000000 * 500 / 10000 /\ 100000000 <= bound /\
    buy_data 3322260 bound = Return data /\
    length data = 24%nat /\
    slice data 0 8 = DISCRIMINATOR_BUY /\
    readBigUInt64LE data 8 = Return 3322260 /\
    readBigUInt64LE data 16 = Return bound.
Proof.
  apply (buy_data_reads_back 3322260 100000000 500); try (unfold u64; lia).
  vm_compute. reflexivity.
Defined.

Lemma minSol_bounds (solOut slippageBps : Z) :
  0 <= solOut -> 0 <= slippageBps ->
  exists bound : Z, minSol solOut slippageBps = Return bound /\ bound <= solOut.
Proof.
  intros Hout Hs. unfold minSol, BigInt, bigint_div. simpl (10000 =? 0).
  eexists. split; [reflexivity|].
  destruct (Z.le_gt_cases slippageBps 10000) as [Hle|Hgt].
  - rewrite Z.quot_div_nonneg by nia.
    apply Z.div_le_upper_bound; nia.
  - replace (solOut * (10000 - slippageBps)) with (- (solOut * (slippageBps - 10000))) by ring.
    rewrite Z.quot_opp_l by lia.
    assert (0 <= solOut * (slippageBps - 10000) ÷ 10000) by (apply Z.quot_pos; nia). lia.
Qed.

(** X3: whatever the slippage, the receipt bound a curve sell encodes is at
    least 1 and at most the quote (or 1 when the quote is 0): a bound that
    comes out zero or negative is written as 1. *)
Theorem sell_data_bound_positive (tokenIn solOut slippageBps : Z) :
  u64 tokenIn -> u64 solOut -> 0 <= slippageBps ->
  exists (bound encoded : Z) (data : list byte),
    minSol solOut slippageBps = Return bound /\
    sell_data tokenIn bound = Return data /\
    slice data 0 8 = DISCRIMINATOR_SELL /\
    readBigUInt64LE data 8 = Return tokenIn /\
    readBigUInt64LE data 16 = Return encoded /\
    1 <= encoded <= Z.max 1 solOut /\
    (0 < bound -> encoded = bound).
Proof.
  intros Hin Hout Hs.
  destruct (minSol_bounds solOut slippageBps) as (bound & Hmin & Hle);
    [unfold u64 in Hout; lia|exact Hs|].
  set (encoded := if 0 <? bound then bound else 1).
  assert (Henc : u64 encoded /\ 1 <= encoded <= Z.max 1 solOut /\ (0 < bound -> encoded = bound)).
  { unfold encoded, u64 in *. destruct (Z.ltb_spec 0 bound); lia. }
  destruct Henc as (Hu & Hrange & Hsame).
  exists bound, encoded, (DISCRIMINATOR_SELL ++ le_bytes 8 tokenIn ++ le_bytes 8 encoded).
  split; [exact Hmin|].
  split; [unfold sell_data; fold encoded; now rewrite !u64_bytes|].
  split; [reflexivity|]. split; [|split; [|split; assumption]].
  - now apply (Bytes.read_u64_at _ DISCRIMINATOR_SELL (le_bytes 8 encoded) tokenIn).
  - apply (Bytes.read_u64_at _ (DISCRIMINATOR_SELL ++ le_bytes 8 tokenIn) [] encoded);
      [now rewrite app_nil_r, <- app_assoc
      |now rewrite length_app, Bytes.length_le_bytes
      |exact Hu].
Qed.

Lemma sell_data_bound_positive_witness :
  exists (bound encoded : Z) (data : list byte),
    minSol 3 12000 = Return bound /\
    sell_data 3322260 bound = Return data /\
    slice data 0 8 = DISCRIMINATOR_SELL /\
    readBigUInt64LE data 8 = Return 3322260 /\
    readBigUInt64LE data 16 = Return encoded /\
    1 <= encoded <= Z.max 1 3 /\
    (0 < bound -> encoded = bound).
Proof. apply (sell_data_bound_positive 3322260 3 12000); unfold u64; lia. Defined.

Example sell_data_zero_bound :
  (let* bound := minSol 3 12000 in sell_data 3322260 bound)
  = Return (DISCRIMINATOR_SELL ++ le_bytes 8 3322260 ++ le_bytes 8 1).
Proof. reflexivity. Qed.

End Encoding.

(** ** Account records *)

Module Accounts.

Lemma read_u64_in_range (data : list byte) (offset : nat) :
  (offset + 8 <= length data)%nat ->
  readBigUInt64LE data offset = Return (le_value (slice data offset (offset + 8))).
Proof.
  intros H. unfold readBigUInt64LE.
  destruct (Nat.leb_spec (offset + 8) (length data)); [reflexivity|lia].
Qed.

Lemma read_u8_in_range (data : list byte) (offset : nat) :
  (offset + 1 <= length data)%nat ->
  readUInt8 data offset = Return (le_value (slice data offset (offset + 1))).
Proof.
  intros H. unfold readUInt8.
  destruct (Nat.leb_spec (offset + 1) (length data)); [reflexivity|lia].
Qed.

Lemma read_u16_in_range (data : list byte) (offset : nat) :
  (offset + 2 <= length data)%nat ->
  readUInt16LE data offset = Return (le_value (slice data offset (offset + 2))).
Proof.
  intros H. unfold readUInt16LE.
  destruct (Nat.leb_spec (offset + 2) (length data)); [reflexivity|lia].
Qed.

Lemma read_u32_at (data pre post : list byte) (v : Z) (offset : nat) :
  data = pre ++ le_bytes 4 v ++ post -> offset = length pre -> 0 <= v < 2 ^ 32 ->
  readUInt32LE data offset = Return v.
Proof.
  intros Hdata Hoffset Hv. unfold readUInt32LE.
  destruct (Nat.leb_spec (offset + 4) (length data)) as [_|Hshort].
  - rewrite (Bytes.slice_middle data pre (le_bytes 4 v) post); try assumption.
    + rewrite Bytes.le_value_le_bytes_small; [reflexivity|]. exact Hv.
    + now rewrite Bytes.length_le_bytes.
  - subst data. rewrite !length_app, Bytes.length_le_bytes in Hshort. lia.
Qed.

(** Rewrites the reads of a decoder that are within the buffer, and the keys
    it cuts out, by their values. *)
Ltac reads_in_range :=
  repeat first
    [ rewrite read_u64_in_range by lia; cbn [obind]
    | rewrite read_u8_in_range by lia; cbn [obind]
    | rewrite read_u16_in_range by lia; cbn [obind]
    | match goal with
      | |- context [PublicKey_of_bytes (slice ?data ?o (?o + 32))] =>
          let key := fresh "key" in
          let Hkey := fresh "Hkey" in
          destruct (PublicKey_of_bytes_slice data o) as [key Hkey];
          rewrite Hkey; cbn [obind]
      end ].

(** Finds the first read of a decoder that falls off a short buffer. *)
Ltac reads_off_the_end :=
  repeat match goal with
         | |- context [readBigUInt64LE ?data ?o] =>
             destruct (Nat.leb_spec (o + 8) (length data));
             [ rewrite (read_u64_in_range data o) by lia; cbn [obind]
             | rewrite (readBigUInt64LE_short data o) by lia; cbn [obind] ]
         | |- context [PublicKey_of_bytes (slice ?data ?o (?o + 32))] =>
             let key := fresh "key" in
             let Hkey := fresh "Hkey" in
             destruct (PublicKey_of_bytes_slice data o) as [key Hkey];
             rewrite Hkey; cbn [obind]
         end.

(** X4: [decodeBonding] reads back a bonding-curve account as laid out: the
    five reserves, the flag and the creator after an eight-byte tag, whatever
    bytes follow. *)
Theorem decodeBonding_reads_layout (tag rest : list byte) (state : BondingCurveState)
    (creator : PublicKey) :
  length tag = 8%nat -> Layout.state_ok state -> Layout.key_ok creator ->
  decodeBonding (Layout.bonding_curve tag state creator rest) = Return (state, creator).
Proof.
  intros Htag (Hvt & Hvs & Hrt & Hrs & Hts) Hkey.
  destruct state as [vt vs rt rs ts flag]. simpl in *.
  unfold decodeBonding, readU64, Layout.bonding_curve. cbn [virtualTokenReserves
    virtualSolReserves realTokenReserves realSolReserves tokenTotalSupply complete].
  set (A := le_bytes 8 vt). set (B := le_bytes 8 vs). set (C := le_bytes 8 rt).
  set (D := le_bytes 8 rs). set (E := le_bytes 8 ts).
  set (F := [if flag then x01 else x00]). set (K := toBuffer creator).
  assert (HA : length A = 8%nat) by apply Bytes.length_le_bytes.
  assert (HB : length B = 8%nat) by apply Bytes.length_le_bytes.
  assert (HC : length C = 8%nat) by apply Bytes.length_le_bytes.
  assert (HD : length D = 8%nat) by apply Bytes.length_le_bytes.
  assert (HE : length E = 8%nat) by apply Bytes.length_le_bytes.
  rewrite (Bytes.read_u64_at _ tag (B ++ C ++ D ++ E ++ F ++ K ++ rest) vt)
    by (try reflexivity; try assumption; lia). cbn [obind].
  rewrite (Bytes.read_u64_at _ (tag ++ A) (C ++ D ++ E ++ F ++ K ++ rest) vs)
    by (rewrite <- ?app_assoc, ?length_app; try reflexivity; try assumption; lia).
  cbn [obind].
  rewrite (Bytes.read_u64_at _ (tag ++ A ++ B) (D ++ E ++ F ++ K ++ rest) rt)
    by (rewrite <- ?app_assoc, ?length_app; try reflexivity; try assumption; lia).
  cbn [obind].
  rewrite (Bytes.read_u64_at _ (tag ++ A ++ B ++ C) (E ++ F ++ K ++ rest) rs)
    by (rewrite <- ?app_assoc, ?length_app; try reflexivity; try assumption; lia).
  cbn [obind].
  rewrite (Bytes.read_u64_at _ (tag ++ A ++ B ++ C ++ D) (F ++ K ++ rest) ts)
    by (rewrite <- ?app_assoc, ?length_app; try reflexivity; try assumption; lia).
  cbn [obind].
  rewrite (Bytes.read_flag_at _ (tag ++ A ++ B ++ C ++ D ++ E) (K ++ rest) flag)
    by (rewrite <- ?app_assoc, ?length_app; try reflexivity; lia).
  rewrite (Bytes.read_key_at _ (tag ++ A ++ B ++ C ++ D ++ E ++ F) rest creator)
    by (rewrite <- ?app_assoc, ?length_app; try reflexivity; try assumption; simpl; lia).
  reflexivity.
Qed.

Lemma decodeBonding_reads_layout_witness :
  decodeBonding (Layout.bonding_curve (replicate 8 x00) example_curve mintA [x2a])
  = Return (example_curve, mintA).
Proof.
  apply (decodeBonding_reads_layout (replicate 8 x00) [x2a] example_curve mintA).
  - reflexivity.
  - unfold Layout.state_ok, u64. simpl. lia.
  - unfold Layout.key_ok. simpl. lia.
Defined.

(** X5: [decodeBonding] accepts exactly the accounts of 48 bytes and more: it
    never asks for the flag or the creator to be there.  The state it returns
    is complete exactly when byte 48 is there and is 1. *)
Theorem decodeBonding_accepts_from_48_bytes (data : list byte) :
  ((exists result, decodeBonding data = Return result) <-> (48 <= length data)%nat) /\
  (forall state creator,
      decodeBonding data = Return (state, creator) -> complete state = byte_is_one data 48).
Proof.
  split; [split|].
  - intros [result Hresult]. destruct (Nat.le_gt_cases 48 (length data)) as [|Hshort];
      [assumption|].
    exfalso. revert Hresult. unfold decodeBonding, readU64.
    reads_off_the_end; try discriminate. lia.
  - intros Hlong. unfold decodeBonding, readU64. reads_in_range. eexists. reflexivity.
  - intros state creator. unfold decodeBonding, readU64.
    reads_off_the_end; try discriminate. now intros [= <- _].
Qed.

(** X6: [decodeGlobal] accepts exactly the accounts of 145 bytes and more. *)
Theorem decodeGlobal_accepts_from_145_bytes (data : list byte) :
  (exists result, decodeGlobal data = Return result) <-> (145 <= length data)%nat.
Proof.
  split.
  - intros [result Hresult]. destruct (Nat.le_gt_cases 145 (length data)) as [|Hshort];
      [assumption|].
    exfalso. revert Hresult. unfold decodeGlobal.
    reads_off_the_end; try discriminate. lia.
  - intros Hlong. unfold decodeGlobal. reads_in_range. eexists. reflexivity.
Qed.

(** X7: [parsePoolKeys] returns exactly when it is given data of 280 bytes or
    more; the only error it ever throws is its own, for missing or shorter
    data: no read of it falls off the buffer. *)
Theorem parsePoolKeys_guard (data : option (list byte)) :
  ((exists keys, parsePoolKeys data = Return keys)
   <-> (exists bytes, data = Some bytes /\ (280 <= length bytes)%nat)) /\
  (forall e, parsePoolKeys data = Throw e -> e = Error "Invalid pool account data").
Proof.
  destruct data as [bytes|].
  - unfold parsePoolKeys.
    destruct (Nat.ltb_spec (length bytes) 280) as [Hshort|Hlong].
    + split; [split|].
      * intros [keys Hkeys]. discriminate.
      * intros (bytes' & [= <-] & Hlong). lia.
      * now intros e [= <-].
    + reads_in_range. split; [split|].
      * intros _. now exists bytes.
      * intros _. eexists. reflexivity.
      * discriminate.
  - split; [split|].
    + intros [keys Hkeys]. discriminate.
    + intros (bytes & Hnone & _). discriminate.
    + now intros e [= <-].
Qed.

(** The fields [parsePoolKeys] returns stand at fixed offsets. *)
Lemma parsePoolKeys_offsets (bytes : list byte) (keys : PoolKeys) :
  parsePoolKeys (Some bytes) = Return keys ->
  PublicKey_of_bytes (slice bytes 11 43) = Return (creator keys) /\
  PublicKey_of_bytes (slice bytes 43 75) = Return (baseMint keys) /\
  PublicKey_of_bytes (slice bytes 75 107) = Return (quoteMint keys) /\
  PublicKey_of_bytes (slice bytes 139 171) = Return (poolBaseTokenAccount keys) /\
  PublicKey_of_bytes (slice bytes 171 203) = Return (poolQuoteTokenAccount keys) /\
  PublicKey_of_bytes (slice bytes 211 243) = Return (coinCreator keys).
Proof.
  unfold parsePoolKeys.
  destruct (Nat.ltb_spec (length bytes) 280) as [Hshort|Hlong]; [discriminate|].
  reads_in_range. intros [= <-]. cbn. repeat split; assumption.
Qed.

Lemma protocolFeeRecipients_loop_spec (data : list byte) (iters : nat) :
  forall (offset : nat) (recipients : list PublicKey),
  exists more : list PublicKey,
    protocolFeeRecipients_loop iters data offset recipients = Return (recipients ++ more) /\
    length more = iters /\
    forall i : nat, (i < iters)%nat ->
      exists key, more !! i = Some key /\
        PublicKey_of_bytes (slice data (offset + 32 * i) (offset + 32 * i + 32)) = Return key.
Proof.
  induction iters as [|iters IH]; intros offset recipients.
  - exists []. rewrite app_nil_r. split; [reflexivity|]. split; [reflexivity|]. lia.
  - cbn [protocolFeeRecipients_loop].
    destruct (PublicKey_of_bytes_slice data offset) as [key Hkey].
    rewrite Hkey. cbn [obind].
    destruct (IH (offset + 32)%nat (recipients ++ [key])) as (more & Hrun & Hlen & Hkeys).
    exists (key :: more). rewrite Hrun, <- app_assoc. split; [reflexivity|].
    split; [simpl; lia|].
    intros [|i] Hi.
    + exists key. split; [reflexivity|].
      now replace (offset + 32 * 0)%nat with offset by lia.
    + destruct (Hkeys i ltac:(lia)) as (k & Hk & Hslice). exists k. split; [exact Hk|].
      now replace (offset + 32 * S i)%nat with (offset + 32 + 32 * i)%nat by lia.
Qed.

(** X8: [parseAmmGlobalConfig] never throws, whatever the buffer (even an
    empty one): it always returns the address it was given and exactly eight fee
    recipients, the i-th of them cut from the 32 bytes at offset 57 + 32 i. *)
Theorem parseAmmGlobalConfig_total (data : list byte) (at_address : PublicKey) :
  exists config : AmmGlobalConfig,
    parseAmmGlobalConfig data at_address = Return config /\
    address config = at_address /\
    PublicKey_of_bytes (slice data 8 40) = Return (admin config) /\
    length (protocolFeeRecipients config) = 8%nat /\
    forall i : nat, (i < 8)%nat ->
      exists key, protocolFeeRecipients config !! i = Some key /\
        PublicKey_of_bytes (slice data (57 + 32 * i) (57 + 32 * i + 32)) = Return key.
Proof.
  unfold parseAmmGlobalConfig.
  destruct (PublicKey_of_bytes_slice data 8) as [key Hkey]. rewrite Hkey. cbn [obind].
  destruct (protocolFeeRecipients_loop_spec data 8 (8 + 32 + 8 + 8 + 1) [])
    as (more & Hrun & Hlen & Hkeys).
  rewrite Hrun. cbn [obind app]. eexists. split; [reflexivity|]. cbn.
  repeat split; assumption.
Qed.

Example parseAmmGlobalConfig_no_data :
  parseAmmGlobalConfig [] mintA
  = Return {| address := mintA; admin := {| bn := 0 |};
              protocolFeeRecipients := replicate 8 {| bn := 0 |} |}.
Proof. reflexivity. Qed.

(** X9: [parseMetadataAccount] reads back a metadata account as laid out: the
    two keys in base58 and the three strings, each as long as its four-byte
    length says. *)
Theorem parseMetadataAccount_reads_layout (utf8 : list byte -> string)
    (toBase58 : PublicKey -> string) (key : byte) (updateAuthority mint : PublicKey)
    (name symbol uri rest : list byte) :
  Layout.key_ok updateAuthority -> Layout.key_ok mint ->
  Z.of_nat (length name) < 2 ^ 32 -> Z.of_nat (length symbol) < 2 ^ 32 ->
  Z.of_nat (length uri) < 2 ^ 32 ->
  parseMetadataAccount utf8 toBase58
    (Layout.metadata_account key updateAuthority mint name symbol uri rest)
  = Return {| meta_updateAuthority := toBase58 updateAuthority;
              meta_mint := toBase58 mint;
              meta_name := utf8 name;
              meta_symbol := utf8 symbol;
              meta_uri := utf8 uri |}.
Proof.
  intros Hua Hmint Hname Hsymbol Huri.
  unfold parseMetadataAccount, readString, readU32, Layout.metadata_account.
  set (U := toBuffer updateAuthority). set (M := toBuffer mint).
  set (LN := le_bytes 4 (Z.of_nat (length name))).
  set (LS := le_bytes 4 (Z.of_nat (length symbol))).
  set (LU := le_bytes 4 (Z.of_nat (length uri))).
  assert (HU : length U = 32%nat) by apply Bytes.length_toBuffer.
  assert (HM : length M = 32%nat) by apply Bytes.length_toBuffer.
  assert (HLN : length LN = 4%nat) by apply Bytes.length_le_bytes.
  assert (HLS : length LS = 4%nat) by apply Bytes.length_le_bytes.
  assert (HLU : length LU = 4%nat) by apply Bytes.length_le_bytes.
  rewrite (Bytes.read_key_at _ [key] (M ++ LN ++ name ++ LS ++ symbol ++ LU ++ uri ++ rest)
             updateAuthority) by (try reflexivity; assumption).
  cbn [obind].
  rewrite (Bytes.read_key_at _ ([key] ++ U) (LN ++ name ++ LS ++ symbol ++ LU ++ uri ++ rest)
             mint)
    by (rewrite <- ?app_assoc, ?length_app; try reflexivity; try assumption; simpl; lia).
  cbn [obind].
  rewrite (read_u32_at _ ([key] ++ U ++ M) (name ++ LS ++ symbol ++ LU ++ uri ++ rest)
             (Z.of_nat (length name)))
    by (rewrite <- ?app_assoc, ?length_app; try reflexivity; simpl; lia).
  cbn [obind]. rewrite Nat2Z.id.
  rewrite (Bytes.slice_middle _ ([key] ++ U ++ M ++ LN) name
             (LS ++ symbol ++ LU ++ uri ++ rest))
    by (rewrite <- ?app_assoc, ?length_app; try reflexivity; simpl; lia).
  rewrite (read_u32_at _ ([key] ++ U ++ M ++ LN ++ name) (symbol ++ LU ++ uri ++ rest)
             (Z.of_nat (length symbol)))
    by (rewrite <- ?app_assoc, ?length_app; try reflexivity; simpl; lia).
  cbn [obind]. rewrite Nat2Z.id.
  rewrite (Bytes.slice_middle _ ([key] ++ U ++ M ++ LN ++ name ++ LS) symbol
             (LU ++ uri ++ rest))
    by (rewrite <- ?app_assoc, ?length_app; try reflexivity; simpl; lia).
  rewrite (read_u32_at _ ([key] ++ U ++ M ++ LN ++ name ++ LS ++ symbol) (uri ++ rest)
             (Z.of_nat (length uri)))
    by (rewrite <- ?app_assoc, ?length_app; try reflexivity; simpl; lia).
  cbn [obind]. rewrite Nat2Z.id.
  rewrite (Bytes.slice_middle _ ([key] ++ U ++ M ++ LN ++ name ++ LS ++ symbol ++ LU) uri rest)
    by (rewrite <- ?app_assoc, ?length_app; try reflexivity; simpl; lia).
  reflexivity.
Qed.

Lemma parseMetadataAccount_reads_layout_witness :
  parseMetadataAccount string_of_list_byte Codecs.toBase58
    (Layout.metadata_account x04 mintA mintB (list_byte_of_string "Pump")
       (list_byte_of_string "PUMP") (list_byte_of_string "https://pump.fun") [x00])
  = Return {| meta_updateAuthority := Codecs.toBase58 mintA;
              meta_mint := Codecs.toBase58 mintB;
              meta_name := string_of_list_byte (list_byte_of_string "Pump");
              meta_symbol := string_of_list_byte (list_byte_of_string "PUMP");
              meta_uri := string_of_list_byte (list_byte_of_string "https://pump.fun") |}.
Proof.
  apply (parseMetadataAccount_reads_layout string_of_list_byte Codecs.toBase58 x04 mintA mintB
           (list_byte_of_string "Pump") (list_byte_of_string "PUMP")
           (list_byte_of_string "https://pump.fun") [x00]);
    try (unfold Layout.key_ok; simpl; lia); vm_compute; reflexivity.
Defined.

End Accounts.

(** ** The token-program cache and the global configuration *)

Module Cache.

Section Facts.

Context {SlippageOptions PriorityOptions : Type}.
Variable rt : Runtime SlippageOptions PriorityOptions.

(** What a detection that misses the cache does, by the answers it gets. *)
Lemma detectTokenProgram_miss (tokenAddr : string) (t : Trader) :
  tokenProgramCache t !! tokenAddr = None ->
  forall (result : outcome TokenProgram) (t' : Trader),
    detectTokenProgram rt tokenAddr t = (result, t') ->
    (exists e, result = Throw e /\ tokenProgramCache t' = tokenProgramCache t /\
               globalState t' = globalState t /\
               (length (history t') <= length (history t) + 2)%nat)
    \/ (exists found, result = Return found /\
                      tokenProgramCache t' = <[tokenAddr := found]> (tokenProgramCache t) /\
                      globalState t' = globalState t /\
                      (length (history t) < length (history t'))%nat).
Proof.
  intros Hmiss result t'. unfold detectTokenProgram. rewrite Hmiss.
  unfold mbind, lift, try_catch, rpc, cache_set, ret, throw. cbn.
  destruct (PublicKey_of_string rt tokenAddr) as [mint|e]; cbn.
  - destruct (getMint rt (history t) mint TOKEN_2022_PROGRAM_ID) as [[]|e1]; cbn.
    + intros [= <- <-]. right. eexists. cbn. rewrite length_app. cbn.
      repeat split; lia.
    + destruct (getMint rt (history t ++ [RpcGetMint mint TOKEN_2022_PROGRAM_ID]) mint
                  TOKEN_PROGRAM_ID) as [[]|e2]; cbn.
      * intros [= <- <-]. right. eexists. cbn. rewrite !length_app. cbn.
        repeat split; lia.
      * intros [= <- <-]. left. eexists. cbn. rewrite !length_app. cbn.
        repeat split; lia.
  - intros [= <- <-]. left. eexists. repeat split; lia.
Qed.

(** X10: a detection that succeeded is answered from the cache from then on:
    the next call for the same address returns the identical result, makes no
    remote call and leaves the trader as it is, and [getCachedTokenProgram]
    shows the entry. *)
Theorem detectTokenProgram_cached (tokenAddr : string) (t t1 : Trader) (found : TokenProgram) :
  detectTokenProgram rt tokenAddr t = (Return found, t1) ->
  detectTokenProgram rt tokenAddr t1 = (Return found, t1) /\
  getCachedTokenProgram tokenAddr t1 = (Return (Some found), t1).
Proof.
  intros Hfirst.
  assert (Hentry : tokenProgramCache t1 !! tokenAddr = Some found).
  { destruct (tokenProgramCache t !! tokenAddr) as [cached|] eqn:Hlookup.
    - unfold detectTokenProgram in Hfirst. rewrite Hlookup in Hfirst.
      now injection Hfirst as <- <-.
    - destruct (detectTokenProgram_miss tokenAddr t Hlookup _ _ Hfirst)
        as [(e & He & _)|(found' & Hfound & Hcache & _)]; [discriminate|].
      injection Hfound as <-. rewrite Hcache. apply lookup_insert_eq. }
  split.
  - unfold detectTokenProgram. now rewrite Hentry.
  - unfold getCachedTokenProgram. now rewrite Hentry.
Qed.

(** X11: a detection that fails changes neither the cache nor the global
    configuration, and has made at most two remote calls. *)
Theorem detectTokenProgram_failure_keeps_cache (tokenAddr : string) (t t1 : Trader) (e : exn) :
  detectTokenProgram rt tokenAddr t = (Throw e, t1) ->
  tokenProgramCache t1 = tokenProgramCache t /\
  globalState t1 = globalState t /\
  (length (history t1) <= length (history t) + 2)%nat.
Proof.
  intros Hfail.
  destruct (tokenProgramCache t !! tokenAddr) as [cached|] eqn:Hlookup.
  - unfold detectTokenProgram in Hfail. rewrite Hlookup in Hfail. discriminate.
  - destruct (detectTokenProgram_miss tokenAddr t Hlookup _ _ Hfail)
      as [(e' & _ & Hcache & Hglobal & Hcalls)|(found & Hfound & _)]; [|discriminate].
    repeat split; assumption.
Qed.

(** X12: the mint is tried as a Token-2022 mint first: when that query
    answers, the result is the Token-2022 program, whatever the legacy program
    would have answered, and the legacy program is not queried. *)
Theorem detectTokenProgram_prefers_token_2022 (tokenAddr : string) (t : Trader)
    (mint : PublicKey) :
  tokenProgramCache t !! tokenAddr = None ->
  PublicKey_of_string rt tokenAddr = Return mint ->
  getMint rt (history t) mint TOKEN_2022_PROGRAM_ID = Return tt ->
  exists t',
    detectTokenProgram rt tokenAddr t
    = (Return {| type := "TOKEN_2022_PROGRAM_ID"; programId := TOKEN_2022_PROGRAM_ID |}, t') /\
    history t' = history t ++ [RpcGetMint mint TOKEN_2022_PROGRAM_ID].
Proof.
  intros Hmiss Hmint Hanswer. unfold detectTokenProgram. rewrite Hmiss.
  unfold mbind, lift, try_catch, rpc, cache_set, ret. cbn.
  rewrite Hmint. cbn. rewrite Hanswer. cbn. eexists. split; reflexivity.
Qed.

(** X13: evicting one address removes its entry and no other, so that the
    other addresses stay answered from the cache; an absent or empty address
    empties the cache. *)
Theorem clearTokenProgramCache_one (tokenAddr : string) (t : Trader) :
  tokenAddr <> "" ->
  exists t',
    clearTokenProgramCache (Some tokenAddr) t = (Return tt, t') /\
    getCachedTokenProgram tokenAddr t' = (Return None, t') /\
    (forall other found,
        other <> tokenAddr ->
        tokenProgramCache t !! other = Some found ->
        detectTokenProgram rt other t' = (Return found, t')) /\
    history t' = history t /\ globalState t' = globalState t.
Proof.
  intros Hkey. unfold clearTokenProgramCache.
  destruct (String.eqb_spec tokenAddr "") as [|_]; [contradiction|].
  eexists. split; [reflexivity|]. split; [|split; [|split; reflexivity]].
  - unfold getCachedTokenProgram. cbn. now rewrite lookup_delete_eq.
  - intros other found Hother Hfound. unfold detectTokenProgram. cbn.
    rewrite lookup_delete_ne by congruence. now rewrite Hfound.
Qed.

Lemma clearTokenProgramCache_all (tokenAddr : option string) (t : Trader) :
  tokenAddr = None \/ tokenAddr = Some "" ->
  tokenProgramCache (snd (clearTokenProgramCache tokenAddr t)) = ∅.
Proof. intros [->| ->]; reflexivity. Qed.

(** X14: the global configuration is loaded once: when
    [loadGlobal_if_missing] returns, the configuration is held, and from then
    on it returns at once, with no remote call; when it throws, the
    configuration is still missing, and the next call asks again. *)
Theorem loadGlobal_once (t t1 : Trader) (result : outcome unit) :
  loadGlobal_if_missing rt t = (result, t1) ->
  match result with
  | Return _ =>
      (exists g, globalState t1 = Some g) /\
      loadGlobal_if_missing rt t1 = (Return tt, t1)
  | Throw _ =>
      globalState t1 = None /\
      history t1 = history t ++ [RpcGetAccountInfo (global rt)]
  end.
Proof.
  unfold loadGlobal_if_missing.
  destruct (globalState t) as [g|] eqn:Hheld.
  - intros [= <- <-]. rewrite Hheld. split; [now exists g|reflexivity].
  - unfold loadGlobal, mbind, rpc, lift, set_globalState, throw, ret. cbn.
    destruct (getAccountInfo rt (history t) (global rt)) as [[data|]|e]; cbn.
    + destruct (decodeGlobal data) as [g|e]; cbn.
      * intros [= <- <-]. cbn. split; [now eexists|reflexivity].
      * intros [= <- <-]. cbn. now split.
    + intros [= <- <-]. cbn. now split.
    + intros [= <- <-]. cbn. now split.
Qed.

End Facts.

Lemma detectTokenProgram_cached_witness :
  detectTokenProgram (runtime_on completed_ledger) "mint" after_detect
  = (Return token2022, after_detect) /\
  getCachedTokenProgram "mint" after_detect = (Return (Some token2022), after_detect).
Proof.
  apply (detectTokenProgram_cached (runtime_on completed_ledger) "mint" fresh after_detect
           token2022).
  vm_compute. reflexivity.
Defined.

Lemma detectTokenProgram_failure_keeps_cache_witness :
  tokenProgramCache View.after_failed_detect = tokenProgramCache fresh /\
  globalState View.after_failed_detect = globalState fresh /\
  (length (history View.after_failed_detect) <= length (history fresh) + 2)%nat.
Proof.
  apply (detectTokenProgram_failure_keeps_cache View.runtime_without_mints "mint" fresh
           View.after_failed_detect
           (Error "Failed to detect token program for mint: Error: could not find mint")).
  vm_compute. reflexivity.
Defined.

Lemma detectTokenProgram_prefers_token_2022_witness :
  exists t',
    detectTokenProgram (runtime_on completed_ledger) "mint" fresh = (Return token2022, t') /\
    history t' = history fresh ++ [RpcGetMint mintA TOKEN_2022_PROGRAM_ID].
Proof.
  apply (detectTokenProgram_prefers_token_2022 (runtime_on completed_ledger) "mint" fresh mintA);
    vm_compute; reflexivity.
Defined.

Lemma clearTokenProgramCache_one_witness :
  exists t',
    clearTokenProgramCache (Some "mint") View.with_other_cached = (Return tt, t') /\
    getCachedTokenProgram "mint" t' = (Return None, t') /\
    (forall other found,
        other <> "mint" ->
        tokenProgramCache View.with_other_cached !! other = Some found ->
        detectTokenProgram (runtime_on completed_ledger) other t' = (Return found, t')) /\
    history t' = history View.with_other_cached /\
    globalState t' = globalState View.with_other_cached.
Proof.
  apply (clearTokenProgramCache_one (runtime_on completed_ledger) "mint" View.with_other_cached).
  discriminate.
Defined.

Lemma loadGlobal_once_witness :
  (exists g, globalState after_global = Some g) /\
  loadGlobal_if_missing (runtime_on completed_ledger) after_global = (Return tt, after_global).
Proof.
  apply (loadGlobal_once (runtime_on completed_ledger) after_detect after_global (Return tt)).
  vm_compute. reflexivity.
Defined.

End Cache.

(** ** The batch of sub-orders *)

Module Batch.

Import View.

Lemma plan_sum_cons (c : Z) (l : list Z) : plan_sum (c :: l) = c + plan_sum l.
Proof. reflexivity. Qed.

Lemma Forall_sublist {A : Type} (P : A -> Prop) (l k : list A) :
  Forall P k -> l `sublist_of` k -> Forall P l.
Proof.
  intros Hk Hsub. induction Hsub as [|c l k _ IH|c l k _ IH].
  - constructor.
  - apply Forall_cons in Hk as [Hc Hk]. constructor; [exact Hc|now apply IH].
  - apply Forall_cons in Hk as [_ Hk]. now apply IH.
Qed.

Lemma plan_sum_sublist (l k : list Z) :
  l `sublist_of` k -> Forall (fun c => 0 <= c) k -> plan_sum l <= plan_sum k.
Proof.
  induction 1 as [|c l k _ IH|c l k _ IH]; intros Hpos.
  - reflexivity.
  - rewrite !plan_sum_cons. apply Forall_cons in Hpos as [_ Hpos]. specialize (IH Hpos). lia.
  - rewrite plan_sum_cons. apply Forall_cons in Hpos as [Hc Hpos]. specialize (IH Hpos). lia.
Qed.

Section Facts.

Context {SlippageOptions PriorityOptions : Type}.
Variable rt : Runtime SlippageOptions PriorityOptions.

(** One sub-order: it never throws; it is listed under its index, as pending
    or as failed; and it is handed to [submit] at most once, with its amount,
    which a pending transaction always was. *)
Lemma subOrder_body_returns (tradeOpt : TradeOptions SlippageOptions PriorityOptions)
    (state : BondingCurveState) (which : Side) (i : nat) (amount : Z)
    (result : TradeResult) (t : Trader) :
  exists (result' : TradeResult) (t' : Trader) (orders : list SubOrder) (sent : list nat),
    subOrder_body rt tradeOpt state which i amount result t = (Return result', t') /\
    submitted (history t') = submitted (history t) ++ orders /\
    map stake orders `sublist_of` [(i, amount)] /\
    Forall (fun order => side order = which) orders /\
    indices result' ≡ₚ indices result ++ [i] /\
    map pending_index (pendingTransactions result')
    = map pending_index (pendingTransactions result) ++ sent /\
    sent `sublist_of` map index orders /\
    Forall (quoted_on state) orders.
Proof.
  unfold subOrder_body, try_catch, mbind, lift, rpc, ret. cbn.
  destruct (match which with Buy => calcBuy amount state | Sell => calcSell amount state end)
    as [quoted|e] eqn:Hquote; cbn.
  - assert (Hcarried : Forall (quoted_on state)
                         [{| side := which; index := i; amountIn := amount;
                             quotedOut := quoted |}])
      by (repeat constructor; exact Hquote).
    destruct (submit rt (history t) tradeOpt _) as [[sig height]|e]; cbn.
    + eexists _, _, [_], [i]. split; [reflexivity|]. cbn.
      split; [now rewrite Trading.submitted_app|]. split; [reflexivity|].
      split; [repeat constructor|].
      split; [|split; [now rewrite map_app|split; [reflexivity|exact Hcarried]]].
      unfold indices, push_pending. cbn. rewrite map_app. cbn.
      rewrite <- !app_assoc. apply Permutation_app_head. apply Permutation_app_comm.
    + eexists _, _, [_], []. split; [reflexivity|]. cbn.
      split; [now rewrite Trading.submitted_app|]. split; [reflexivity|].
      split; [repeat constructor|].
      split; [|split; [now rewrite app_nil_r|split; [apply sublist_nil_l|exact Hcarried]]].
      unfold indices, push_failed. cbn. rewrite map_app. cbn. now rewrite app_assoc.
  - eexists _, _, [], []. split; [reflexivity|]. cbn.
    split; [now rewrite app_nil_r|]. split; [apply sublist_nil_l|].
    split; [constructor|].
    split; [|split; [now rewrite app_nil_r|split; [apply sublist_nil_l|constructor]]].
    unfold indices, push_failed. cbn. rewrite map_app. cbn. now rewrite app_assoc.
Qed.

(** The loop, from the sub-order [i] on. *)
Lemma subOrder_loop_returns (tradeOpt : TradeOptions SlippageOptions PriorityOptions)
    (state : BondingCurveState) (which : Side) (chunks : list Z) :
  forall (i : nat) (result : TradeResult) (t : Trader),
  exists (result' : TradeResult) (t' : Trader) (orders : list SubOrder) (sent : list nat),
    subOrder_loop rt tradeOpt state which i chunks result t = (Return result', t') /\
    submitted (history t') = submitted (history t) ++ orders /\
    map stake orders `sublist_of` zip (seq i (length chunks)) chunks /\
    Forall (fun order => side order = which) orders /\
    indices result' ≡ₚ indices result ++ seq i (length chunks) /\
    map pending_index (pendingTransactions result')
    = map pending_index (pendingTransactions result) ++ sent /\
    sent `sublist_of` map index orders /\
    Forall (quoted_on state) orders.
Proof.
  induction chunks as [|amount chunks IH]; intros i result t.
  - exists result, t, [], []. cbn. rewrite !app_nil_r.
    repeat split; try reflexivity; constructor.
  - cbn [subOrder_loop]. unfold mbind.
    destruct (subOrder_body_returns tradeOpt state which i amount result t)
      as (r1 & t1 & orders1 & sent1 & Hbody & Hsub1 & Hstake1 & Hside1 & Hidx1 & Hpend1
          & Hsent1 & Hquoted1).
    rewrite Hbody.
    destruct (IH (S i) r1 t1)
      as (r2 & t2 & orders2 & sent2 & Hloop & Hsub2 & Hstake2 & Hside2 & Hidx2 & Hpend2
          & Hsent2 & Hquoted2).
    exists r2, t2, (orders1 ++ orders2), (sent1 ++ sent2).
    split; [exact Hloop|].
    split; [now rewrite Hsub2, Hsub1, app_assoc|].
    split; [rewrite map_app; cbn [length seq zip zip_with];
            now apply (sublist_app _ [(i, amount)])|].
    split; [now apply Forall_app|].
    split; [rewrite Hidx2, Hidx1; cbn [length seq]; now rewrite <- app_assoc|].
    split; [now rewrite Hpend2, Hpend1, app_assoc|].
    split; [rewrite map_app; now apply sublist_app|now apply Forall_app].
Qed.


(** The batch on a plan: what the result and the history hold when the loop
    has run over [chunks]. *)
Lemma batch_of_plan (tradeOpt : TradeOptions SlippageOptions PriorityOptions)
    (state : BondingCurveState) (which : Side) (chunks : list Z) (t : Trader) :
  exists (result : TradeResult) (t' : Trader) (orders : list SubOrder),
    subOrder_loop rt tradeOpt state which 0 chunks empty_result t = (Return result, t') /\
    indices result ≡ₚ seq 0 (length chunks) /\
    submitted (history t') = submitted (history t) ++ orders /\
    Forall (fun order => side order = which) orders /\
    map amountIn orders `sublist_of` chunks /\
    NoDup (map index orders) /\
    Forall (quoted_on state) orders.
Proof.
  destruct (subOrder_loop_returns tradeOpt state which chunks 0 empty_result t)
    as (result & t' & orders & sent & Hloop & Hsub & Hstake & Hside & Hidx & _ & _ & Hquoted).
  exists result, t', orders.
  split; [exact Hloop|]. split; [exact Hidx|]. split; [exact Hsub|]. split; [exact Hside|].
  split; [|split; [|exact Hquoted]].
  - apply (fmap_sublist snd) in Hstake.
    rewrite snd_zip in Hstake by (rewrite length_seq; lia).
    now rewrite <- list_fmap_compose in Hstake.
  - apply (fmap_sublist fst) in Hstake.
    rewrite fst_zip in Hstake by (rewrite length_seq; lia).
    rewrite <- list_fmap_compose in Hstake.
    eapply sublist_NoDup; [apply NoDup_seq|exact Hstake].
Qed.

(** X16: a buy on an open curve, for a non-negative total under a positive
    ceiling, returns (it never throws once the checks have passed), and its
    result lists [ceil (total / max)] sub-orders, each exactly once, as
    pending or failed.  The orders it hands to the submission step are buys,
    no index twice; each carries, as the tokens to ask for, the quote
    [calcBuy] gives for its own chunk on the state read before the loop; and
    the chunks they are quoted for lie within [(0, max]] and sum to at most
    the total.  (What an instruction may spend is its chunk and the slippage
    share on top: the bound is on the chunks, not on the spend bounds.) *)
Theorem buy_quotes_chunks_within_total (fuel : nat) (tokenAddr : string) (totalSolIn : Z)
    (tradeOpt : TradeOptions SlippageOptions PriorityOptions) (t t0 : Trader)
    (state : BondingCurveState) :
  curve_checks rt tokenAddr t = (Return state, t0) ->
  0 <= totalSolIn -> 0 < maxSolPerTx tradeOpt ->
  ceil_div totalSolIn (maxSolPerTx tradeOpt) < Z.of_nat fuel ->
  exists (result : TradeResult) (t' : Trader) (orders : list SubOrder),
    buy rt fuel tokenAddr totalSolIn tradeOpt t = Some (Return result, t') /\
    indices result ≡ₚ seq 0 (Z.to_nat (ceil_div totalSolIn (maxSolPerTx tradeOpt))) /\
    submitted (history t') = submitted (history t) ++ orders /\
    Forall (fun order => side order = Buy /\
                         0 < amountIn order <= maxSolPerTx tradeOpt /\
                         calcBuy (amountIn order) state = Return (quotedOut order))
      orders /\
    NoDup (map index orders) /\
    plan_sum (map amountIn orders) <= totalSolIn.
Proof.
  intros Hchecks Htotal Hmax Hfuel.
  destruct (Planner.splitByMax_loop_spec _ Hmax fuel totalSolIn [] Htotal Hfuel)
    as (chunks & Hplan & Hsum & Hall & Hlen).
  destruct (batch_of_plan tradeOpt state Buy chunks t0)
    as (result & t' & orders & Hloop & Hidx & Hsub & Hside & Hamounts & Hnodup & Hquoted).
  exists result, t', orders.
  unfold buy, splitByMax. rewrite Hchecks, Hplan. cbn [app].
  split; [now rewrite Hloop|].
  split; [now rewrite <- Hlen, Nat2Z.id|].
  split.
  { rewrite Hsub. f_equal.
    pose proof (Trading.curve_checks_submits_nothing rt tokenAddr t) as Hreads.
    now rewrite Hchecks in Hreads. }
  assert (Hin : Forall (fun c => 0 < c <= maxSolPerTx tradeOpt) (map amountIn orders))
    by (eapply Forall_sublist; eassumption).
  split; [|split; [exact Hnodup|]].
  - apply Forall_forall. intros order Horder.
    assert (Hbuy : side order = Buy) by (eapply Forall_forall in Hside; eassumption).
    split; [exact Hbuy|]. split.
    + eapply Forall_forall in Hin; [exact Hin|]. now apply (list_elem_of_fmap_2 amountIn).
    + eapply Forall_forall in Hquoted; [|exact Horder].
      unfold quoted_on in Hquoted. now rewrite Hbuy in Hquoted.
  - rewrite <- Hsum. apply plan_sum_sublist; [exact Hamounts|].
    eapply Forall_impl; [exact Hall|]. cbn. lia.
Qed.

(** The plan of a sell: non-negative chunks that sum to the total. *)
Lemma tokenChunks_returns (state : BondingCurveState) (totalTokenIn max : Z) :
  0 <= virtualSolReserves state < 2 ^ 53 -> 0 <= virtualTokenReserves state ->
  0 <= totalTokenIn -> 0 < virtualTokenReserves state + totalTokenIn -> 0 < max ->
  exists chunks : list Z,
    tokenChunks totalTokenIn max state = Return chunks /\
    plan_sum chunks = totalTokenIn /\
    Forall (fun c => 0 <= c) chunks /\
    (0 < length chunks)%nat.
Proof.
  intros [Hb Hsafe] Ht HT Hn Hmax.
  pose proof (Planner.calcSell_quote_bounds state totalTokenIn Hb Ht HT Hn) as Hq.
  unfold tokenChunks. rewrite Pricing.calcSell_eq by assumption. cbn [obind].
  set (quoted := virtualSolReserves state
                 - virtualSolReserves state * virtualTokenReserves state
                   / (virtualTokenReserves state + totalTokenIn)) in *.
  assert (Hquoted : quoted <= virtualSolReserves state).
  { enough (0 <= virtualSolReserves state * virtualTokenReserves state
                 / (virtualTokenReserves state + totalTokenIn)) by (unfold quoted; lia).
    apply Z.div_pos; nia. }
  destruct (Z.leb_spec quoted max) as [Hle|Hgt].
  - exists [totalTokenIn]. split; [reflexivity|]. split; [unfold plan_sum; cbn; lia|].
    split; [repeat constructor; lia|cbn; lia].
  - pose proof (Planner.ceil_div_bounds quoted max Hmax) as Hc.
    assert (Hpos : 0 < ceil_div quoted max) by nia.
    assert (Hsmall : ceil_div quoted max < 2 ^ 53) by nia.
    rewrite bigint_div_floor by lia. cbn [obind].
    rewrite Planner.ceil_div_round_up by exact Hmax.
    rewrite Number_exact by lia.
    rewrite Planner.splitIntoN_eq by lia.
    eexists. split; [reflexivity|].
    pose proof (Z.div_pos totalTokenIn (ceil_div quoted max) HT Hpos) as Hpart.
    pose proof (Z.mod_pos_bound totalTokenIn (ceil_div quoted max) Hpos) as Hrest.
    split; [|split].
    + rewrite Planner.sum_app, Planner.sum_replicate. unfold plan_sum. cbn.
      rewrite Z.mod_eq, Z2Nat.id by lia. ring.
    + apply Forall_app. split; [apply Forall_replicate; exact Hpart|].
      repeat constructor. lia.
    + rewrite length_app. cbn. lia.
Qed.

(** X17: a sell on an open curve with reserves below 2^53 lamports returns
    once the checks have passed: its result lists at least one sub-order, each
    exactly once, and what it handed to [submit] are sells, no index twice,
    of non-negative amounts that together sell at most the total. *)
Theorem sell_sells_at_most_total (tokenAddr : string) (totalTokenIn : Z)
    (tradeOpt : TradeOptions SlippageOptions PriorityOptions) (t t0 : Trader)
    (state : BondingCurveState) :
  curve_checks rt tokenAddr t = (Return state, t0) ->
  0 <= virtualSolReserves state < 2 ^ 53 -> 0 <= virtualTokenReserves state ->
  0 <= totalTokenIn -> 0 < virtualTokenReserves state + totalTokenIn ->
  0 < maxSolPerTx tradeOpt ->
  exists (result : TradeResult) (t' : Trader) (orders : list SubOrder),
    sell rt tokenAddr totalTokenIn tradeOpt t = (Return result, t') /\
    indices result <> [] /\ NoDup (indices result) /\
    submitted (history t') = submitted (history t) ++ orders /\
    Forall (fun order => side order = Sell /\ 0 <= amountIn order) orders /\
    NoDup (map index orders) /\
    plan_sum (map amountIn orders) <= totalTokenIn.
Proof.
  intros Hchecks Hb Ht HT Hn Hmax.
  destruct (tokenChunks_returns state totalTokenIn _ Hb Ht HT Hn Hmax)
    as (chunks & Hplan & Hsum & Hall & Hsome).
  destruct (batch_of_plan tradeOpt state Sell chunks t0)
    as (result & t' & orders & Hloop & Hidx & Hsub & Hside & Hamounts & Hnodup & _).
  exists result, t', orders.
  unfold sell, mbind, lift. rewrite Hchecks, Hplan.
  split; [exact Hloop|].
  split.
  { intros Hnone. rewrite Hnone in Hidx. apply Permutation_nil_l in Hidx.
    destruct chunks; [cbn in Hsome; lia|discriminate]. }
  split; [rewrite Hidx; apply NoDup_seq|].
  split.
  { rewrite Hsub. f_equal.
    pose proof (Trading.curve_checks_submits_nothing rt tokenAddr t) as Hreads.
    now rewrite Hchecks in Hreads. }
  assert (Hin : Forall (fun c => 0 <= c) (map amountIn orders))
    by (eapply Forall_sublist; eassumption).
  split; [|split; [exact Hnodup|]].
  - apply Forall_forall. intros order Horder. split.
    + eapply Forall_forall in Hside; eassumption.
    + eapply Forall_forall in Hin; [exact Hin|]. now apply (list_elem_of_fmap_2 amountIn).
  - rewrite <- Hsum. now apply plan_sum_sublist.
Qed.

End Facts.

Lemma buy_quotes_chunks_within_total_witness :
  exists (result : TradeResult) (t' : Trader) (orders : list SubOrder),
    buy (runtime_on example_ledger) 3 "mint" 50000000 options fresh
    = Some (Return result, t') /\
    indices result ≡ₚ seq 0 (Z.to_nat (ceil_div 50000000 (maxSolPerTx options))) /\
    submitted (history t') = submitted (history fresh) ++ orders /\
    Forall (fun order => side order = Buy /\
                         0 < amountIn order <= maxSolPerTx options /\
                         calcBuy (amountIn order) example_curve = Return (quotedOut order))
      orders /\
    NoDup (map index orders) /\
    plan_sum (map amountIn orders) <= 50000000.
Proof.
  apply (buy_quotes_chunks_within_total (runtime_on example_ledger) 3 "mint" 50000000 options
           fresh after_checks example_curve);
    vm_compute; easy.
Defined.

(** The two sub-orders of that buy ask together for more tokens than one
    order of the whole amount would be quoted. *)
Example buy_chunks_ask_for_more :
  option_map (fun run => map quotedOut (submitted (history (snd run))))
    (buy (runtime_on example_ledger) 3 "mint" 50000000 options fresh)
  = Some [999001; 666223] /\
  calcBuy 50000000 example_curve = Return 1663894.
Proof. split; vm_compute; reflexivity. Qed.

Lemma sell_sells_at_most_total_witness :
  exists (result : TradeResult) (t' : Trader) (orders : list SubOrder),
    sell (runtime_on example_ledger) "mint" 3322260 options fresh = (Return result, t') /\
    indices result <> [] /\ NoDup (indices result) /\
    submitted (history t') = submitted (history fresh) ++ orders /\
    Forall (fun order => side order = Sell /\ 0 <= amountIn order) orders /\
    NoDup (map index orders) /\
    plan_sum (map amountIn orders) <= 3322260.
Proof.
  apply (sell_sells_at_most_total (runtime_on example_ledger) "mint" 3322260 options fresh
           after_checks example_curve);
    vm_compute; easy.
Defined.

End Batch.

(** ** Quotes: order, bounds and chunking *)

Module Quotes.

(** The floor of a division grows with the dividend and shrinks with the
    divisor. *)
Lemma floor_antitone (k d d' : Z) : 0 <= k -> 0 < d <= d' -> k / d' <= k / d.
Proof. intros Hk Hd. apply Z.div_le_compat_l; lia. Qed.

(** X18: on a curve with a positive virtual SOL reserve, [calcBuy] quotes
    nothing for nothing, never quotes fewer tokens for more lamports, and
    never a negative amount. *)
Theorem calcBuy_monotone (st : BondingCurveState) (x x' : Z) :
  0 < virtualSolReserves st -> 0 <= virtualTokenReserves st -> 0 <= x <= x' ->
  exists out out' : Z,
    calcBuy 0 st = Return 0 /\
    calcBuy x st = Return out /\ calcBuy x' st = Return out' /\
    0 <= out <= out'.
Proof.
  intros Hb Ht Hx.
  rewrite !Pricing.calcBuy_eq by lia.
  set (Vb := virtualSolReserves st) in *. set (Vt := virtualTokenReserves st) in *.
  do 2 eexists. split; [|split; [reflexivity|split; [reflexivity|]]].
  - rewrite Z.add_0_r, Z.mul_comm, Z.div_mul by lia. f_equal. lia.
  - split.
    + enough (Vb * Vt / (Vb + x) <= Vt) by lia.
      apply Pricing.floor_product_le; nia.
    + enough (Vb * Vt / (Vb + x') <= Vb * Vt / (Vb + x)) by lia.
      apply floor_antitone; nia.
Qed.

Lemma calcBuy_monotone_witness :
  exists out out' : Z,
    calcBuy 0 example_curve = Return 0 /\
    calcBuy 30000000 example_curve = Return out /\
    calcBuy 100000000 example_curve = Return out' /\
    0 <= out <= out'.
Proof. apply (calcBuy_monotone example_curve 30000000 100000000); vm_compute; easy. Defined.

(** X19: the sub-orders of a buy are all quoted on the one state read before
    the loop, and quotes on one state are subadditive: the quotes of two
    chunks together promise at least as many tokens as the quote of their
    sum. *)
Theorem calcBuy_chunks_quote_at_least_whole (st : BondingCurveState) (a b : Z) :
  0 < virtualSolReserves st -> 0 <= virtualTokenReserves st -> 0 <= a -> 0 <= b ->
  exists qa qb whole : Z,
    calcBuy a st = Return qa /\ calcBuy b st = Return qb /\
    calcBuy (a + b) st = Return whole /\
    whole <= qa + qb.
Proof.
  intros Hb Ht Ha Hbb.
  rewrite !Pricing.calcBuy_eq by lia.
  set (s := virtualSolReserves st) in *. set (t := virtualTokenReserves st) in *.
  do 3 eexists. split; [reflexivity|split; [reflexivity|split; [reflexivity|]]].
  set (p := s * t / (s + a)). set (q := s * t / (s + b)).
  assert (Hp : (s + a) * p <= s * t) by (apply Z.mul_div_le; lia).
  assert (Hq : (s + b) * q <= s * t) by (apply Z.mul_div_le; lia).
  assert (Hpt : p <= t) by (apply Pricing.floor_product_le; nia).
  assert (Hqt : q <= t) by (apply Pricing.floor_product_le; nia).
  enough (p + q - t <= s * t / (s + (a + b))) by lia.
  apply Pricing.floor_reaches_iff; [lia|].
  assert (Hu : t * a <= (t - p) * (s + a)) by nia.
  assert (Hv : t * b <= (t - q) * (s + b)) by nia.
  assert (Hcross : 0 <= (t - p) * b + (t - q) * a) by nia.
  nia.
Qed.

Lemma calcBuy_chunks_quote_at_least_whole_witness :
  exists qa qb whole : Z,
    calcBuy 30000000 example_curve = Return qa /\
    calcBuy 20000000 example_curve = Return qb /\
    calcBuy (30000000 + 20000000) example_curve = Return whole /\
    whole <= qa + qb.
Proof.
  apply (calcBuy_chunks_quote_at_least_whole example_curve 30000000 20000000);
    vm_compute; easy.
Defined.

(** X20: [calcSell] pays between nothing and the virtual SOL reserve, and
    never less for more tokens. *)
Theorem calcSell_bounded_and_monotone (st : BondingCurveState) (y y' : Z) :
  0 <= virtualSolReserves st -> 0 < virtualTokenReserves st -> 0 <= y <= y' ->
  exists out out' : Z,
    calcSell y st = Return out /\ calcSell y' st = Return out' /\
    0 <= out <= out' /\ out' <= virtualSolReserves st.
Proof.
  intros Hb Ht Hy.
  rewrite !Pricing.calcSell_eq by lia.
  set (Vb := virtualSolReserves st) in *. set (Vt := virtualTokenReserves st) in *.
  do 2 eexists. split; [reflexivity|split; [reflexivity|]].
  split; [split|].
  - enough (Vb * Vt / (Vt + y) <= Vb) by lia.
    apply Pricing.floor_product_le; nia.
  - enough (Vb * Vt / (Vt + y') <= Vb * Vt / (Vt + y)) by lia.
    apply floor_antitone; nia.
  - enough (0 <= Vb * Vt / (Vt + y')) by lia.
    apply Z.div_pos; nia.
Qed.

Lemma calcSell_bounded_and_monotone_witness :
  exists out out' : Z,
    calcSell 830565 example_curve_after_buy = Return out /\
    calcSell 3322260 example_curve_after_buy = Return out' /\
    0 <= out <= out' /\ out' <= virtualSolReserves example_curve_after_buy.
Proof.
  apply (calcSell_bounded_and_monotone example_curve_after_buy 830565 3322260);
    vm_compute; easy.
Defined.

Lemma calculateAmmSellOutput_eq (r : PoolReserves) (b : Z) :
  0 <= baseAmount r -> 0 <= quoteAmount r -> 0 <= b ->
  0 < baseAmount r + b * 9900 / 10000 ->
  calculateAmmSellOutput b r =
    Return (quoteAmount r * (b * 9900 / 10000) / (baseAmount r + b * 9900 / 10000)).
Proof.
  intros Hb Hq Hx Hn. unfold calculateAmmSellOutput, BPS_DENOMINATOR, AMM_FEE_BPS.
  change (10000 - 100) with 9900.
  rewrite bigint_div_floor by lia. cbn [obind].
  assert (0 <= b * 9900 / 10000) by (apply Z.div_pos; lia).
  rewrite bigint_div_floor by nia. reflexivity.
Qed.

(** The constant-product output stays under the reserve it is paid from. *)
Lemma product_output_bounds (out_reserve in_reserve x : Z) :
  0 < out_reserve -> 0 < in_reserve -> 0 <= x ->
  0 <= out_reserve * x / (in_reserve + x) < out_reserve.
Proof.
  intros Ho Hi Hx. split.
  - apply Z.div_pos; nia.
  - apply Z.div_lt_upper_bound; nia.
Qed.

(** X21: the AMM quotes never drain the pool: on a pool with both reserves
    positive a buy is quoted less than the base reserve and a sell less than
    the quote reserve, and neither quote is negative; an input of one unit,
    which the fee rounds down to nothing, is quoted nothing. *)
Theorem amm_quotes_below_reserves (r : PoolReserves) (x : Z) :
  0 < baseAmount r -> 0 < quoteAmount r -> 0 <= x ->
  exists bought sold : Z,
    calculateAmmBuyOutput x r = Return bought /\ 0 <= bought < baseAmount r /\
    calculateAmmSellOutput x r = Return sold /\ 0 <= sold < quoteAmount r /\
    calculateAmmBuyOutput 1 r = Return 0 /\ calculateAmmSellOutput 1 r = Return 0.
Proof.
  intros Hb Hq Hx.
  assert (Hfee : 0 <= x * 9900 / 10000) by (apply Z.div_pos; lia).
  rewrite !Pricing.calculateAmmBuyOutput_eq by (try lia; change (1 * 9900 / 10000) with 0; lia).
  rewrite !calculateAmmSellOutput_eq by (try lia; change (1 * 9900 / 10000) with 0; lia).
  do 2 eexists. split; [reflexivity|]. split; [now apply product_output_bounds|].
  split; [reflexivity|]. split; [now apply product_output_bounds|].
  change (1 * 9900 / 10000) with 0. rewrite !Z.mul_0_r, !Z.add_0_r.
  split; f_equal; apply Z.div_0_l; lia.
Qed.

Lemma amm_quotes_below_reserves_witness :
  exists bought sold : Z,
    calculateAmmBuyOutput 1000000 example_pool = Return bought /\
    0 <= bought < baseAmount example_pool /\
    calculateAmmSellOutput 1000000 example_pool = Return sold /\
    0 <= sold < quoteAmount example_pool /\
    calculateAmmBuyOutput 1 example_pool = Return 0 /\
    calculateAmmSellOutput 1 example_pool = Return 0.
Proof. apply (amm_quotes_below_reserves example_pool 1000000); vm_compute; easy. Defined.

(** X22: the plan of an AMM sell, on a pool with positive reserves and a
    quote reserve below 2^53: one chunk of the whole total when its quote is
    within the ceiling, and otherwise [ceil (quote / max)] chunks that sum to
    the total, each [floor (total / n)] but the last, which takes the
    remainder. *)
Theorem ammTokenChunks_plan (r : PoolReserves) (total max : Z) :
  0 < baseAmount r -> 0 < quoteAmount r < 2 ^ 53 -> 0 <= total -> 0 < max ->
  exists quoted : Z,
    calculateAmmSellOutput total r = Return quoted /\
    (quoted <= max -> ammTokenChunks total max r = Return [total]) /\
    (max < quoted ->
     exists chunks : list Z,
       ammTokenChunks total max r = Return chunks /\
       even_split total (ceil_div quoted max) chunks).
Proof.
  intros Hb [Hq Hsafe] Htotal Hmax.
  assert (Hfee : 0 <= total * 9900 / 10000) by (apply Z.div_pos; lia).
  pose proof (product_output_bounds (quoteAmount r) (baseAmount r) _ Hq Hb Hfee) as Hout.
  unfold ammTokenChunks. rewrite calculateAmmSellOutput_eq by lia. cbn [obind].
  set (quoted := quoteAmount r * (total * 9900 / 10000)
                 / (baseAmount r + total * 9900 / 10000)) in *.
  exists quoted. split; [reflexivity|]. split.
  - intros Hle. destruct (Z.leb_spec quoted max); [reflexivity|lia].
  - intros Hgt. destruct (Z.leb_spec quoted max); [lia|].
    pose proof (Planner.ceil_div_bounds quoted max Hmax) as Hc.
    assert (Hpos : 0 < ceil_div quoted max) by nia.
    assert (Hsmall : ceil_div quoted max < 2 ^ 53) by nia.
    rewrite bigint_div_floor by lia. cbn [obind].
    rewrite Planner.ceil_div_round_up by exact Hmax.
    rewrite Number_exact by lia.
    apply Planner.splitIntoN_even_split; lia.
Qed.

Lemma ammTokenChunks_plan_witness :
  exists quoted : Z,
    calculateAmmSellOutput 250000 example_pool = Return quoted /\
    (quoted <= 1000000 -> ammTokenChunks 250000 1000000 example_pool = Return [250000]) /\
    (1000000 < quoted ->
     exists chunks : list Z,
       ammTokenChunks 250000 1000000 example_pool = Return chunks /\
       even_split 250000 (ceil_div quoted 1000000) chunks).
Proof. apply (ammTokenChunks_plan example_pool 250000 1000000); vm_compute; easy. Defined.

Example ammTokenChunks_example :
  ammTokenChunks 250000 1000000 example_pool = Return [62500; 62500; 62500; 62500].
Proof. reflexivity. Qed.

End Quotes.

(** ** What the listener delivers *)

Module Listener.

Import Feed.

Section Facts.

Variable base64 : string -> list byte.
Variable toBase58 : PublicKey -> string.

(** A line that shows nothing is passed over. *)
Lemma logLine_body_skips (mintFilter : option PublicKey) (log : Logs) (logLine : string) :
  shows base64 logLine None -> logLine_body base64 toBase58 mintFilter log logLine = Return Continue.
Proof.
  unfold shows, payload, logLine_body. intros [Hstart|Htag].
  - now rewrite Hstart.
  - destruct (startsWith "Program data: " logLine); [|reflexivity]. now rewrite Htag.
Qed.

(** A line that shows a trade is decoded back to it, or ends the handler
    when the filter does not let the trade through. *)
Lemma logLine_body_decodes (mintFilter : option PublicKey) (log : Logs) (logLine : string)
    (tr : Trade) :
  shows base64 logLine (Some tr) ->
  logLine_body base64 toBase58 mintFilter log logLine
  = Return (if passes mintFilter tr then Called (event_of toBase58 (signature log) tr)
            else ReturnFromHandler).
Proof.
  intros (Hstart & (Hmint & Hsol & Htoken & Huser & Htime) & rest & Hbuf).
  unfold logLine_body. rewrite Hstart. cbn [negb].
  unfold payload in Hbuf. rewrite Hbuf. clear Hbuf.
  unfold bytes_of, Layout.trade_event.
  set (M := toBuffer (trade_mint tr)). set (U := toBuffer (trade_user tr)).
  set (S := le_bytes 8 (trade_sol tr)). set (T := le_bytes 8 (trade_token tr)).
  set (W := le_bytes 8 (trade_time tr)).
  set (F := [if trade_buy tr then x01 else x00]).
  assert (HM : length M = 32%nat) by apply Bytes.length_toBuffer.
  assert (HU : length U = 32%nat) by apply Bytes.length_toBuffer.
  assert (HS : length S = 8%nat) by apply Bytes.length_le_bytes.
  assert (HT : length T = 8%nat) by apply Bytes.length_le_bytes.
  assert (HW : length W = 8%nat) by apply Bytes.length_le_bytes.
  rewrite (Bytes.slice_middle _ [] TRADE_EVENT (M ++ S ++ T ++ F ++ U ++ W ++ rest))
    by (rewrite <- ?app_assoc; reflexivity).
  change (Buffer_equals TRADE_EVENT TRADE_EVENT) with true. cbn [negb].
  rewrite (Bytes.read_key_at _ TRADE_EVENT (S ++ T ++ F ++ U ++ W ++ rest) (trade_mint tr))
    by (rewrite <- ?app_assoc; try reflexivity; assumption).
  cbn [obind].
  assert (Hfilter : match mintFilter with
                    | Some wanted => negb (equals (trade_mint tr) wanted)
                    | None => false
                    end = negb (passes mintFilter tr))
    by (now destruct mintFilter).
  rewrite Hfilter. destruct (passes mintFilter tr); [|reflexivity]. cbn [negb].
  rewrite (Bytes.read_u64_at _ (TRADE_EVENT ++ M) (T ++ F ++ U ++ W ++ rest) (trade_sol tr))
    by (rewrite <- ?app_assoc, ?length_app; try reflexivity; try assumption; simpl; lia).
  cbn [obind].
  rewrite (Bytes.read_u64_at _ (TRADE_EVENT ++ M ++ S) (F ++ U ++ W ++ rest) (trade_token tr))
    by (rewrite <- ?app_assoc, ?length_app; try reflexivity; try assumption; simpl; lia).
  cbn [obind].
  rewrite (Bytes.read_flag_at _ (TRADE_EVENT ++ M ++ S ++ T) (U ++ W ++ rest) (trade_buy tr))
    by (rewrite <- ?app_assoc, ?length_app; try reflexivity; simpl; lia).
  rewrite (Bytes.read_key_at _ (TRADE_EVENT ++ M ++ S ++ T ++ F) (W ++ rest) (trade_user tr))
    by (rewrite <- ?app_assoc, ?length_app; try reflexivity; try assumption; simpl; lia).
  cbn [obind].
  rewrite (Bytes.read_i64_at _ (TRADE_EVENT ++ M ++ S ++ T ++ F ++ U) rest (trade_time tr))
    by (rewrite <- ?app_assoc, ?length_app; try reflexivity; simpl; try lia;
        unfold Layout.i64; lia).
  cbn [obind]. rewrite Number_exact by exact Htime. reflexivity.
Qed.

(** The loop over lines that show what [shown] lists. *)
Lemma logLines_loop_delivers (mintFilter : option PublicKey) (log : Logs)
    (lines : list string) (shown : list (option Trade)) :
  Forall2 (shows base64) lines shown ->
  forall called : list TradeEvent,
    logLines_loop base64 toBase58 mintFilter log lines called
    = (called ++ map (event_of toBase58 (signature log))
                   (before_first_stop mintFilter (omap id shown)),
       Return tt).
Proof.
  induction 1 as [|logLine [tr|] lines shown Hline _ IH]; intros called; cbn [logLines_loop].
  - cbn. now rewrite app_nil_r.
  - rewrite (logLine_body_decodes mintFilter log logLine tr Hline).
    cbn [omap list_omap id before_first_stop].
    destruct (passes mintFilter tr).
    + rewrite IH. cbn [map]. now rewrite <- app_assoc.
    + cbn. now rewrite app_nil_r.
  - rewrite (logLine_body_skips mintFilter log logLine Hline). apply IH.
Qed.

(** X23: on a message whose lines are each a well-formed trade event or no
    trade event at all, the handler returns without an error and has called
    the callback, in order and with the values logged, for exactly the trades
    before the first one of a mint other than the filtered one: every trade
    when there is no filter, and none after a trade of another mint. *)
Theorem listenTrades_delivers_until_other_mint (mintFilter : option PublicKey) (log : Logs)
    (shown : list (option Trade)) :
  Forall2 (shows base64) (logs log) shown ->
  listenTrades base64 toBase58 mintFilter log
  = (map (event_of toBase58 (signature log)) (before_first_stop mintFilter (omap id shown)),
     Return tt).
Proof.
  intros Hlines. unfold listenTrades.
  now rewrite (logLines_loop_delivers mintFilter log (logs log) shown Hlines []).
Qed.

(** X24: a trade-event line that carries fewer than the 97 bytes of an event
    makes the handler throw a range error when no filter stands before the
    reads: the callback is called neither for it nor for the lines after
    it. *)
Theorem truncated_event_aborts_message (log : Logs) (logLine : string) (lines : list string)
    (called : list TradeEvent) :
  startsWith "Program data: " logLine = true ->
  Buffer_equals (slice (payload base64 logLine) 0 8) TRADE_EVENT = true ->
  (length (payload base64 logLine) < 97)%nat ->
  logLines_loop base64 toBase58 None log (logLine :: lines) called
  = (called, Throw (RangeError "ERR_OUT_OF_RANGE")).
Proof.
  intros Hstart Htag Hshort. cbn [logLines_loop].
  unfold logLine_body, payload in *. rewrite Hstart, Htag. cbn [negb].
  set (buf := base64 (replace "Program data: " "" logLine)) in *.
  destruct (PublicKey_of_bytes_slice buf 8) as [mint ->]. cbn [obind].
  unfold readBigInt64LE, readBigUInt64LE.
  destruct (Nat.leb_spec (8 + 32 + 8) (length buf)); [|reflexivity]. cbn [obind].
  destruct (Nat.leb_spec (8 + 32 + 8 + 8) (length buf)); [|reflexivity]. cbn [obind].
  destruct (PublicKey_of_bytes_slice buf (8 + 32 + 8 + 8 + 1)) as [trader ->]. cbn [obind].
  destruct (Nat.leb_spec (8 + 32 + 8 + 8 + 1 + 32 + 8) (length buf)); [lia|reflexivity].
Qed.

End Facts.

Lemma listenTrades_delivers_until_other_mint_witness :
  listenTrades Codecs.base64 Codecs.toBase58 (Some mintB)
    {| logs := ["Program log: Instruction: Buy"; lineB; lineA; lineB]; signature := "sig" |}
  = (map (event_of Codecs.toBase58 "sig")
       (before_first_stop (Some mintB) (omap id [None; Some tradeB; Some tradeA; Some tradeB])),
     Return tt).
Proof.
  apply (listenTrades_delivers_until_other_mint Codecs.base64 Codecs.toBase58 (Some mintB)
           {| logs := ["Program log: Instruction: Buy"; lineB; lineA; lineB];
              signature := "sig" |}
           [None; Some tradeB; Some tradeA; Some tradeB]).
  repeat constructor; try (vm_compute; easy); exists []; vm_compute; reflexivity.
Defined.

Lemma truncated_event_aborts_message_witness :
  logLines_loop Codecs.base64 Codecs.toBase58 None {| logs := []; signature := "sig" |}
    ["Program data: vdt/007mYe4AAAAA"; lineA] []
  = ([], Throw (RangeError "ERR_OUT_OF_RANGE")).
Proof.
  apply (truncated_event_aborts_message Codecs.base64 Codecs.toBase58
           {| logs := []; signature := "sig" |} "Program data: vdt/007mYe4AAAAA" [lineA] []);
    vm_compute; try reflexivity; lia.
Defined.

End Listener.

(** ** The budget of the confirmation poller *)

Module Polling.

Import Watch.

(** One iteration, against any source: a wait, then the status query, then
    at most the height query; and when it returns, it returns the
    signature. *)
Lemma attempt_body_calls (src : StatusSource) (signature : string)
    (lastValidBlockHeight delayMs : Z) (k : nat) :
  exists calls done,
    attempt_body src signature lastValidBlockHeight delayMs k = (calls, done) /\
    attempt_calls delayMs signature calls /\
    (forall s, done = Some (Return s) -> s = signature).
Proof.
  unfold attempt_body, attempt_try, attempt_calls.
  destruct (getTransaction src k) as [[txInfo|]|error].
  - destruct (meta txInfo ≫= err) as [payload|]; [destruct (truthy payload)|];
      eexists _, _; (split; [reflexivity|]); (split; [now left|]);
      cbn; intros s [=]; congruence.
  - destruct (getBlockHeight src k) as [height|error].
    + destruct (lastValidBlockHeight <? height); eexists _, _; (split; [reflexivity|]);
        (split; [now right|]); intros s [=].
    + eexists _, _. split; [reflexivity|]. split; [now right|].
      intros s. cbn. destruct (rethrown error); intros [=].
  - eexists _, _. split; [reflexivity|]. split; [now left|].
    intros s. cbn. destruct (rethrown error); intros [=].
Qed.

Lemma poll_loop_attempts (src : StatusSource) (signature : string)
    (lastValidBlockHeight maxAttempts delayMs : Z) (iters : nat) :
  forall k : nat,
    let run := poll_loop src signature lastValidBlockHeight maxAttempts delayMs iters k in
    (exists attempts : list (list PollCall),
        fst run = concat attempts /\
        Forall (attempt_calls delayMs signature) attempts /\
        (length attempts <= iters)%nat) /\
    (forall s, snd run = Return s -> s = signature).
Proof.
  induction iters as [|iters IH]; intros k; cbn zeta.
  - split; [exists []; repeat split; [constructor|cbn; lia]|]. intros s [=].
  - cbn [poll_loop].
    destruct (attempt_body_calls src signature lastValidBlockHeight delayMs k)
      as (calls & done & Hbody & Hcalls & Hsig).
    rewrite Hbody. destruct done as [completion|].
    + cbn [fst snd]. split.
      * exists [calls]. cbn. rewrite app_nil_r.
        split; [reflexivity|]. split; [now constructor|lia].
      * intros s ->. now apply Hsig.
    + specialize (IH (S k)). cbn zeta in IH.
      destruct (poll_loop src signature lastValidBlockHeight maxAttempts delayMs iters (S k))
        as [calls' completion].
      cbn [fst snd] in *. destruct IH as [(attempts & -> & Hall & Hlen) IHs].
      split; [|exact IHs].
      exists (calls :: attempts). split; [reflexivity|].
      split; [now constructor|cbn; lia].
Qed.

(** X25: against every status source the calls of the poller are a sequence
    of at most [maxAttempts] attempts, each of them the wait, then the status
    query, then at most one height query: it waits before every status
    query, the first included.  It returns nothing but the signature it was
    given, and with no attempt allowed it makes no call and throws the
    timeout error. *)
Theorem confirmTransactionWithPolling_budget (src : StatusSource) (signature : string)
    (lastValidBlockHeight maxAttempts delayMs : Z) :
  let run := confirmTransactionWithPolling src signature lastValidBlockHeight
               maxAttempts delayMs in
  (exists attempts : list (list PollCall),
      fst run = concat attempts /\
      Forall (attempt_calls delayMs signature) attempts /\
      Z.of_nat (length attempts) <= Z.max 0 maxAttempts) /\
  (forall s, snd run = Return s -> s = signature) /\
  (maxAttempts <= 0 -> run = ([], Throw (timeoutError maxAttempts signature))).
Proof.
  cbn zeta. unfold confirmTransactionWithPolling.
  destruct (poll_loop_attempts src signature lastValidBlockHeight maxAttempts delayMs
              (Z.to_nat maxAttempts) 1) as [(attempts & Hcalls & Hall & Hlen) Hs].
  split; [|split; [exact Hs|]].
  - exists attempts. split; [exact Hcalls|]. split; [exact Hall|lia].
  - intros Hnone. replace (Z.to_nat maxAttempts) with 0%nat by lia. reflexivity.
Qed.

(** X26: the [catch] block tells the poller's own errors from the failures of
    a query by their message alone: a query that fails with a message quoting
    the rejection or the expiration text ends the poll at once with that
    error, as if the transaction had been found failed. *)
Theorem confirmTransactionWithPolling_rethrows_quoting_failure (src : StatusSource)
    (signature : string) (lastValidBlockHeight maxAttempts delayMs : Z) (error : exn) :
  0 < maxAttempts ->
  getTransaction src 1 = Throw error ->
  rethrown error = true ->
  confirmTransactionWithPolling src signature lastValidBlockHeight maxAttempts delayMs
  = ([Delay delayMs; GetTransaction signature], Throw error).
Proof.
  intros Hsome Hfail Hquote. unfold confirmTransactionWithPolling.
  replace (Z.to_nat maxAttempts) with (S (Z.to_nat (maxAttempts - 1))) by lia.
  cbn [poll_loop]. unfold attempt_body, attempt_try. now rewrite Hfail, Hquote.
Qed.

Lemma confirmTransactionWithPolling_rethrows_quoting_failure_witness :
  confirmTransactionWithPolling quoting_source "sig" 100 5 2000
  = ([Delay 2000; GetTransaction "sig"], Throw (Error "upstream said: 交易失败: {}")).
Proof.
  apply (confirmTransactionWithPolling_rethrows_quoting_failure quoting_source "sig" 100 5 2000
           (Error "upstream said: 交易失败: {}")); [lia|reflexivity|vm_compute; reflexivity].
Defined.

(** The loop against a source whose status queries all fail with errors the
    [catch] block passes over. *)
Lemma poll_loop_swallows (src : StatusSource) (signature : string)
    (lastValidBlockHeight maxAttempts delayMs : Z) (iters : nat) :
  (forall k, exists error, getTransaction src k = Throw error /\ rethrown error = false) ->
  forall k : nat,
    poll_loop src signature lastValidBlockHeight maxAttempts delayMs iters k
    = (concat (replicate iters [Delay delayMs; GetTransaction signature]),
       Throw (timeoutError maxAttempts signature)).
Proof.
  intros Hdown. induction iters as [|iters IH]; intros k; [reflexivity|].
  cbn [poll_loop]. unfold attempt_body, attempt_try.
  destruct (Hdown k) as (error & -> & ->). now rewrite IH.
Qed.

(** X27: a failing status query is not reported: when every status query
    fails, with whatever error that does not quote the poller's own texts,
    the poller waits and asks [maxAttempts] times, never asks for the block
    height, and throws the timeout error; the caller sees none of the
    errors. *)
Theorem confirmTransactionWithPolling_swallows_query_failures (src : StatusSource)
    (signature : string) (lastValidBlockHeight maxAttempts delayMs : Z) :
  (forall k, exists error, getTransaction src k = Throw error /\ rethrown error = false) ->
  confirmTransactionWithPolling src signature lastValidBlockHeight maxAttempts delayMs
  = (concat (replicate (Z.to_nat maxAttempts) [Delay delayMs; GetTransaction signature]),
     Throw (timeoutError maxAttempts signature)).
Proof. intros Hdown. now apply poll_loop_swallows. Qed.

Lemma confirmTransactionWithPolling_swallows_query_failures_witness :
  confirmTransactionWithPolling unreachable_source "sig" 100 2 2000
  = (concat (replicate (Z.to_nat 2) [Delay 2000; GetTransaction "sig"]),
     Throw (timeoutError 2 "sig")).
Proof.
  apply (confirmTransactionWithPolling_swallows_query_failures unreachable_source "sig" 100 2
           2000).
  intros k. exists (Error "fetch failed"). split; reflexivity.
Defined.

End Polling.

(** ** The choice between the curve and the pool *)

Module Routing.

Import View.

Section Facts.

Context {SlippageOptions PriorityOptions : Type}.
Variable rt : Runtime SlippageOptions PriorityOptions.

(** Loading the curve is one read of its account. *)
Lemma loadBonding_trader (mint : PublicKey) (t : Trader) :
  snd (loadBonding rt mint t)
  = {| globalState := globalState t;
       tokenProgramCache := tokenProgramCache t;
       history := history t ++ [RpcGetAccountInfo (getBondingPda rt mint)] |}.
Proof.
  unfold loadBonding, mbind, rpc, lift, throw, ret. cbn.
  destruct (getAccountInfo rt (history t) (getBondingPda rt mint)) as [[data|]|e]; cbn;
    try reflexivity.
  destruct (decodeBonding data) as [[state creator]|e]; reflexivity.
Qed.

(** What the completion check answers, and what it leaves behind. *)
Lemma isAmmCompleted_returns (tokenAddr : string) (t : Trader) :
  exists (completed : bool) (t' : Trader),
    isAmmCompleted rt tokenAddr t = (Return completed, t') /\
    tokenProgramCache t' = tokenProgramCache t /\ globalState t' = globalState t /\
    (history t' = history t \/
     exists mint, PublicKey_of_string rt tokenAddr = Return mint /\
                  history t' = history t ++ [RpcGetAccountInfo (getBondingPda rt mint)]) /\
    (completed = false <->
     exists mint bonding state creator,
       PublicKey_of_string rt tokenAddr = Return mint /\
       fst (loadBonding rt mint t) = Return (bonding, state, creator) /\
       complete state = false).
Proof.
  unfold isAmmCompleted, try_catch, mbind, lift, ret.
  destruct (PublicKey_of_string rt tokenAddr) as [mint|e].
  - pose proof (loadBonding_trader mint t) as Htrader.
    destruct (loadBonding rt mint t) as [[[[bonding state] creator]|e] t1] eqn:Hload.
    + cbn in Htrader. subst t1. eexists _, _. split; [reflexivity|].
      split; [reflexivity|]. split; [reflexivity|]. split; [right; now exists mint|].
      split.
      * intros Hopen. exists mint, bonding, state, creator. rewrite Hload.
        split; [reflexivity|]. split; [reflexivity|exact Hopen].
      * intros (mint' & bonding' & state' & creator' & Hmint & Hret & Hopen).
        injection Hmint as <-. rewrite Hload in Hret. now injection Hret as _ <- _.
    + cbn in Htrader. subst t1. eexists _, _. split; [reflexivity|].
      split; [reflexivity|]. split; [reflexivity|]. split; [right; now exists mint|].
      split; [discriminate|].
      intros (mint' & bonding' & state' & creator' & Hmint & Hret & _).
      injection Hmint as <-. rewrite Hload in Hret. discriminate.
  - eexists _, _. split; [reflexivity|]. split; [reflexivity|]. split; [reflexivity|].
    split; [now left|]. split; [discriminate|].
    now intros (mint' & bonding & state' & creator' & [=] & _).
Qed.

(** The calls of the mode check. *)
Lemma getTradeMode_reads (tokenAddr : string) (t : Trader) :
  history (snd (getTradeMode rt tokenAddr t)) = history t \/
  exists address, history (snd (getTradeMode rt tokenAddr t))
                  = history t ++ [RpcGetAccountInfo address].
Proof.
  destruct (isAmmCompleted_returns tokenAddr t)
    as (completed & t' & Hrun & _ & _ & Hcalls & _).
  unfold getTradeMode, mbind, ret. rewrite Hrun. cbn.
  destruct Hcalls as [Hsame|(mint & _ & Hone)]; [now left|right; eexists; exact Hone].
Qed.

(** X28: [getTradeMode] never throws: it answers "bonding" or "amm", and
    "bonding" exactly when the address is a key whose curve account loads
    with the completion flag clear.  It makes at most one call, a read of the
    curve account, and leaves the cache and the global configuration as they
    were. *)
Theorem getTradeMode_total (tokenAddr : string) (t : Trader) :
  exists (mode : string) (t' : Trader),
    getTradeMode rt tokenAddr t = (Return mode, t') /\
    (mode = "bonding" \/ mode = "amm") /\
    tokenProgramCache t' = tokenProgramCache t /\ globalState t' = globalState t /\
    (history t' = history t \/
     exists mint, PublicKey_of_string rt tokenAddr = Return mint /\
                  history t' = history t ++ [RpcGetAccountInfo (getBondingPda rt mint)]) /\
    (mode = "bonding" <->
     exists mint bonding state creator,
       PublicKey_of_string rt tokenAddr = Return mint /\
       fst (loadBonding rt mint t) = Return (bonding, state, creator) /\
       complete state = false).
Proof.
  destruct (isAmmCompleted_returns tokenAddr t)
    as (completed & t' & Hrun & Hcache & Hglobal & Hcalls & Hopen).
  unfold getTradeMode, mbind, ret. rewrite Hrun.
  eexists _, t'. split; [reflexivity|].
  split; [destruct completed; [now right|now left]|].
  split; [exact Hcache|]. split; [exact Hglobal|]. split; [exact Hcalls|].
  rewrite <- Hopen. destruct completed; split; congruence.
Qed.

(** X29: the mode check and the trade read the curve account one after the
    other: when the curve completes between the two reads, [autoBuy] and
    [autoSell] have chosen the curve and throw its completion error; they
    neither go on to the pool nor submit anything. *)
Theorem auto_trade_completion_between_reads (fuel : nat) (tokenAddr : string) (total : Z)
    (tradeOpt : TradeOptions SlippageOptions PriorityOptions) (t t1 t2 : Trader) :
  getTradeMode rt tokenAddr t = (Return "bonding", t1) ->
  curve_checks rt tokenAddr t1 = (Throw CurveAlreadyComplete, t2) ->
  autoBuy rt fuel tokenAddr total tradeOpt t = Some (Throw CurveAlreadyComplete, t2) /\
  autoSell rt tokenAddr total tradeOpt t = (Throw CurveAlreadyComplete, t2) /\
  submitted (history t2) = submitted (history t).
Proof.
  intros Hmode Hchecks. split; [|split].
  - unfold autoBuy. rewrite Hmode. cbn. unfold buy. now rewrite Hchecks.
  - unfold autoSell, mbind. rewrite Hmode. cbn. unfold sell, mbind. now rewrite Hchecks.
  - pose proof (Trading.curve_checks_submits_nothing rt tokenAddr t1) as Hreads.
    rewrite Hchecks in Hreads. cbn in Hreads. rewrite Hreads.
    destruct (getTradeMode_reads tokenAddr t) as [Hsame|Hone].
    + rewrite Hmode in Hsame. cbn in Hsame. now rewrite Hsame.
    + rewrite Hmode in Hone. cbn in Hone. destruct Hone as [address ->].
      rewrite Trading.submitted_app. cbn. now rewrite app_nil_r.
Qed.

End Facts.

Lemma auto_trade_completion_between_reads_witness :
  autoBuy (runtime_on racing_ledger) 3 "mint" 50000000 options fresh
  = Some (Throw CurveAlreadyComplete, after_race) /\
  autoSell (runtime_on racing_ledger) "mint" 50000000 options fresh
  = (Throw CurveAlreadyComplete, after_race) /\
  submitted (history after_race) = submitted (history fresh).
Proof.
  apply (auto_trade_completion_between_reads (runtime_on racing_ledger) 3 "mint" 50000000
           options fresh after_mode after_race);
    vm_compute; reflexivity.
Defined.

End Routing.

(** ** A ceiling of zero *)

Module Ceiling.

Import View.

Section Facts.

Context {SlippageOptions PriorityOptions : Type}.
Variable rt : Runtime SlippageOptions PriorityOptions.

(** Under a ceiling of zero a total that is quoted nothing is planned as one
    chunk, and the sell goes on to the loop. *)
Lemma sell_zero_ceiling_zero_quote (tokenAddr : string) (total : Z)
    (tradeOpt : TradeOptions SlippageOptions PriorityOptions) (t t0 : Trader)
    (state : BondingCurveState) (quoted : Z) :
  curve_checks rt tokenAddr t = (Return state, t0) ->
  maxSolPerTx tradeOpt = 0 ->
  calcSell total state = Return quoted -> quoted <= 0 ->
  sell rt tokenAddr total tradeOpt t
  = subOrder_loop rt tradeOpt state Sell 0 [total] empty_result t0.
Proof.
  intros Hchecks Hmax Hquote Hsign.
  unfold sell, mbind, lift. rewrite Hchecks.
  unfold tokenChunks. rewrite Hquote, Hmax. cbn [obind].
  destruct (Z.leb_spec quoted 0); [reflexivity|lia].
Qed.

(** X30: under a ceiling per transaction of zero a sell on an open curve
    whose total is quoted a positive amount throws: the plan divides by the
    ceiling, and the range error of the division by zero leaves [sell] before
    the loop, in the state the checks left, with nothing submitted. *)
Theorem sell_zero_ceiling_divides_by_zero (tokenAddr : string) (total : Z)
    (tradeOpt : TradeOptions SlippageOptions PriorityOptions) (t t0 : Trader)
    (state : BondingCurveState) (quoted : Z) :
  curve_checks rt tokenAddr t = (Return state, t0) ->
  maxSolPerTx tradeOpt = 0 ->
  calcSell total state = Return quoted -> 0 < quoted ->
  sell rt tokenAddr total tradeOpt t = (Throw (RangeError "Division by zero"), t0) /\
  submitted (history t0) = submitted (history t).
Proof.
  intros Hchecks Hmax Hquote Hsign. split.
  - unfold sell, mbind, lift. rewrite Hchecks.
    unfold tokenChunks. rewrite Hquote, Hmax. cbn [obind].
    destruct (Z.leb_spec quoted 0); [lia|]. now rewrite bigint_div_zero.
  - pose proof (Trading.curve_checks_submits_nothing rt tokenAddr t) as Hreads.
    now rewrite Hchecks in Hreads.
Qed.

End Facts.

Lemma sell_zero_ceiling_divides_by_zero_witness :
  sell (runtime_on example_ledger) "mint" 3322260 zero_ceiling fresh
  = (Throw (RangeError "Division by zero"), after_checks) /\
  submitted (history after_checks) = submitted (history fresh).
Proof.
  apply (sell_zero_ceiling_divides_by_zero (runtime_on example_ledger) "mint" 3322260
           zero_ceiling fresh after_checks example_curve 99337775);
    vm_compute; reflexivity.
Defined.

End Ceiling.
